(** * TDR validator (tools/tdr_validator.py): model and properties

    The validator is embedded function by function.  A text ([str]) is the
    sequence of its characters, and a character is its Unicode code point,
    so the texts of the model are the texts of the program: any document a
    UTF-8 file can hold.  [str.isspace] (and the [\s] of [re], which is the
    same set) is written out.  The other classes of the Unicode database
    ([\d], [\w], hence [\b]) and the case mappings ([str.upper],
    [str.lower]) are written out on ASCII; what they are beyond ASCII is a
    parameter, the class [Unicode].

    The methods of [TDRValidator] read and write [self.errors] and
    [self.warnings]; they are modelled in a state-and-exception monad over the
    validator object.  The PyYAML decoder, [datetime.fromisoformat], the
    [str()] of non-string values and the file system are not part of the
    program: they are variables of the section that holds the methods, and
    the text of a [pathlib.Path] is the class [Paths].

    The report ([format_results]) and the command ([main], once its
    arguments are parsed) are embedded over the results of the validator;
    [json.dumps] and the methods of [pathlib.Path] are variables of their
    section, and a process that ends by [sys.exit] is the record of its exit
    status and of what it printed. *)

From Stdlib Require Import Bool Arith NArith ZArith List Lia.
From Stdlib Require Import Strings.Byte.
From Stdlib Require Import Floats.SpecFloat.
From Stdlib Require Import Sorting.Mergesort Sorting.Permutation.
From Stdlib Require Import Sorting.Sorted Orders.
Import ListNotations.
Set Warnings "-register-all".

(** ** Texts *)

(** A character, by its code point. *)
Definition char : Set := N.

(** A [str]. *)
Inductive string : Set :=
| EmptyString
| String (c : char) (s : string).

(** Literals are read as UTF-8, one character per encoded code point. *)
Fixpoint decode_utf8 (fuel : nat) (bs : list byte) : string :=
  match fuel with
  | O => EmptyString
  | S fuel' =>
      match bs with
      | [] => EmptyString
      | b :: r =>
          let n := Byte.to_N b in
          if (n <? 128)%N then String n (decode_utf8 fuel' r)
          else if (n <? 224)%N then
            match r with
            | b1 :: r' =>
                String ((n - 192) * 64 + (Byte.to_N b1 - 128))%N
                  (decode_utf8 fuel' r')
            | _ => EmptyString
            end
          else if (n <? 240)%N then
            match r with
            | b1 :: b2 :: r' =>
                String ((n - 224) * 4096 + (Byte.to_N b1 - 128) * 64
                        + (Byte.to_N b2 - 128))%N
                  (decode_utf8 fuel' r')
            | _ => EmptyString
            end
          else
            match r with
            | b1 :: b2 :: b3 :: r' =>
                String ((n - 240) * 262144 + (Byte.to_N b1 - 128) * 4096
                        + (Byte.to_N b2 - 128) * 64
                        + (Byte.to_N b3 - 128))%N
                  (decode_utf8 fuel' r')
            | _ => EmptyString
            end
      end
  end.

Definition string_of_bytes (bs : list byte) : string :=
  decode_utf8 (List.length bs) bs.

Definition byte_of (n : N) : byte :=
  match Byte.of_N n with Some b => b | None => x00 end.

Definition encode_utf8 (c : char) : list byte :=
  (if c <? 128 then [byte_of c]
   else if c <? 2048 then [byte_of (192 + c / 64); byte_of (128 + c mod 64)]
   else if c <? 65536 then
     [byte_of (224 + c / 4096); byte_of (128 + (c / 64) mod 64);
      byte_of (128 + c mod 64)]
   else
     [byte_of (240 + c / 262144); byte_of (128 + (c / 4096) mod 64);
      byte_of (128 + (c / 64) mod 64); byte_of (128 + c mod 64)])%N.

Fixpoint bytes_of_string (s : string) : list byte :=
  match s with
  | EmptyString => []
  | String c r => (encode_utf8 c ++ bytes_of_string r)%list
  end.

Definition char_of_bytes (bs : list byte) : option N :=
  match string_of_bytes bs with
  | String c EmptyString => Some c
  | _ => None
  end.

Declare Scope text_scope.
Delimit Scope text_scope with text.
Bind Scope text_scope with string.
String Notation string string_of_bytes bytes_of_string : text_scope.

Declare Scope codepoint_scope.
Delimit Scope codepoint_scope with cp.
Bind Scope codepoint_scope with char.
String Notation N char_of_bytes encode_utf8 : codepoint_scope.

(** [s + t] *)
Fixpoint append (s t : string) : string :=
  match s with
  | EmptyString => t
  | String c r => String c (append r t)
  end.

Infix "++" := append (right associativity, at level 60) : text_scope.

Open Scope list_scope.
Open Scope text_scope.
Open Scope nat_scope.

(** [len(s)] *)
Fixpoint length (s : string) : nat :=
  match s with
  | EmptyString => 0
  | String _ r => S (length r)
  end.

(** [s[n:n+m]] *)
Fixpoint substring (n m : nat) (s : string) : string :=
  match n, m, s with
  | O, O, _ => EmptyString
  | O, S m', EmptyString => s
  | O, S m', String c r => String c (substring 0 m' r)
  | S n', _, EmptyString => s
  | S n', _, String _ r => substring n' m r
  end.

(** [s == t] and [s <= t]: texts are compared character by character, by
    code point. *)
Module String.
Fixpoint eqb (s t : string) : bool :=
  match s, t with
  | EmptyString, EmptyString => true
  | String a s', String b t' => N.eqb a b && eqb s' t'
  | _, _ => false
  end.

Fixpoint leb (s t : string) : bool :=
  match s, t with
  | EmptyString, _ => true
  | String _ _, EmptyString => false
  | String a s', String b t' =>
      if N.ltb a b then true else if N.eqb a b then leb s' t' else false
  end.
End String.

(** ** Characters and strings, as Python treats them *)

Definition NL : char := 10%N.

(** [str.isspace] on one character, which is also the [\s] of [re] on a
    [str]: TAB, LF, VT, FF, CR, the four separators FS GS RS US, the space,
    NEL, the no-break space, and the Unicode spaces and separators above
    them. *)
Definition isspace (c : char) : bool :=
  (((9 <=? c) && (c <=? 13)) || ((28 <=? c) && (c <=? 32))
   || (c =? 0x85) || (c =? 0xA0) || (c =? 0x1680)
   || ((0x2000 <=? c) && (c <=? 0x200A))
   || (c =? 0x2028) || (c =? 0x2029) || (c =? 0x202F) || (c =? 0x205F)
   || (c =? 0x3000))%N.

(** [[A-Z]] and [[a-z]] *)
Definition is_upper (c : char) : bool := ((65 <=? c) && (c <=? 90))%N.

Definition is_lower (c : char) : bool := ((97 <=? c) && (c <=? 122))%N.

Definition is_ascii (c : char) : bool := (c <? 128)%N.

Fixpoint all_str (p : char -> bool) (s : string) : bool :=
  match s with
  | EmptyString => true
  | String a r => p a && all_str p r
  end.

(** The Unicode character database of the interpreter, beyond ASCII: the
    decimal digits (category Nd, the [\d] of [re]), the letters and numbers
    ([str.isalnum]; with the underscore, the [\w] of [re]), and [str.upper]
    and [str.lower] on a text that is not all ASCII. *)
Class Unicode : Type := {
  unicode_decimal : char -> bool;
  unicode_alnum : char -> bool;
  unicode_upper : string -> string;
  unicode_lower : string -> string
}.

(** [\d] of [re] *)
Definition is_digit {U : Unicode} (c : char) : bool :=
  if is_ascii c then ((48 <=? c) && (c <=? 57))%N else unicode_decimal c.

(** [\w] of [re]: letters, digits and the underscore. *)
Definition is_word {U : Unicode} (c : char) : bool :=
  is_digit c
  || (if is_ascii c then is_upper c || is_lower c || N.eqb c "_"%cp
      else unicode_alnum c).

Definition upper_char (c : char) : char :=
  if is_lower c then (c - 32)%N else c.

Definition lower_char (c : char) : char :=
  if is_upper c then (c + 32)%N else c.

Fixpoint map_str (f : char -> char) (s : string) : string :=
  match s with
  | EmptyString => EmptyString
  | String a r => String (f a) (map_str f r)
  end.

(** [s.upper()] and [s.lower()] *)
Definition upper {U : Unicode} (s : string) : string :=
  if all_str is_ascii s then map_str upper_char s else unicode_upper s.

Definition lower {U : Unicode} (s : string) : string :=
  if all_str is_ascii s then map_str lower_char s else unicode_lower s.

(** [str(p)] for a [pathlib.Path] made from the text [p]. *)
Class Paths : Type := {
  path_str : string -> string
}.

Definition is_empty (s : string) : bool :=
  match s with EmptyString => true | _ => false end.

Fixpoint lstrip (s : string) : string :=
  match s with
  | EmptyString => EmptyString
  | String a r => if isspace a then lstrip r else s
  end.

Fixpoint rstrip (s : string) : string :=
  match s with
  | EmptyString => EmptyString
  | String a r =>
      let r' := rstrip r in
      if isspace a && is_empty r' then EmptyString else String a r'
  end.

(** [s.strip()] *)
Definition strip (s : string) : string := rstrip (lstrip s).

(** [s.split('\n')]: always at least one piece. *)
Fixpoint split_lines (s : string) : list string :=
  match s with
  | EmptyString => [EmptyString]
  | String a r =>
      if N.eqb a NL then EmptyString :: split_lines r
      else match split_lines r with
           | [] => [String a EmptyString]
           | l :: ls => String a l :: ls
           end
  end.

(** ['\n'.join(ls)] *)
Fixpoint join_lines (ls : list string) : string :=
  match ls with
  | [] => EmptyString
  | [l] => l
  | l :: ls' => l ++ String NL (join_lines ls')
  end.

(** [', '.join(ls)] *)
Fixpoint join_comma (ls : list string) : string :=
  match ls with
  | [] => EmptyString
  | [l] => l
  | l :: ls' => l ++ ", " ++ join_comma ls'
  end.

(** [s[n:]] *)
Fixpoint drop (n : nat) (s : string) : string :=
  match n, s with
  | O, _ => s
  | S n', EmptyString => EmptyString
  | S n', String _ r => drop n' r
  end.

(** [s.startswith(p)] *)
Fixpoint startswith (p s : string) : bool :=
  match p, s with
  | EmptyString, _ => true
  | String _ _, EmptyString => false
  | String a p', String b s' => N.eqb a b && startswith p' s'
  end.

(** [s.find(sub, start)], with [None] for -1: the least index from [start]
    on at which [sub] begins. *)
Fixpoint find (sub : string) (start : nat) (s : string) {struct s} : option nat :=
  match s with
  | EmptyString =>
      match start with
      | O => if is_empty sub then Some 0 else None
      | S _ => None
      end
  | String _ r =>
      match start with
      | O => if startswith sub s then Some 0 else option_map S (find sub 0 r)
      | S n => option_map S (find sub n r)
      end
  end.

Arguments startswith : simpl never.
Arguments find : simpl never.

(** [s[i:j]] for [i <= j] *)
Definition slice (i j : nat) (s : string) : string := substring i (j - i) s.

(** ** Python values, exceptions, outcomes *)

(** The values [yaml.safe_load] builds.  A [date] or [datetime] object is
    carried by its [str()] form; a mapping is an association list read by its
    first matching key. *)
Inductive pyval : Type :=
| VNone
| VBool (b : bool)
| VInt (z : Z)
| VFloat (f : spec_float)
| VStr (s : string)
| VList (l : list pyval)
| VDict (d : list (pyval * pyval))
| VDate (iso : string).

Inductive exn : Type :=
| AttributeError | TypeError | KeyError | ValueError | OverflowError
| OSError | LibraryError.

Inductive outcome (A : Type) : Type :=
| Ok (a : A)
| Raise (e : exn).
Arguments Ok {A} a.
Arguments Raise {A} e.

(** [not v] is [negb (truthy v)] *)
Definition truthy (v : pyval) : bool :=
  match v with
  | VNone => false
  | VBool b => b
  | VInt z => negb (Z.eqb z 0)
  | VFloat f => match f with S754_zero _ => false | _ => true end
  | VStr s => negb (is_empty s)
  | VList l => match l with [] => false | _ => true end
  | VDict d => match d with [] => false | _ => true end
  | VDate _ => true
  end.

(** [v == k] for a string [k] *)
Definition eq_str (k : string) (v : pyval) : bool :=
  match v with VStr s => String.eqb s k | _ => false end.

Fixpoint dict_get (k : string) (d : list (pyval * pyval)) : option pyval :=
  match d with
  | [] => None
  | (k', v) :: d' => if eq_str k k' then Some v else dict_get k d'
  end.

Definition is_some {A} (o : option A) : bool :=
  match o with Some _ => true | None => false end.

(** [k in v] for a string [k]: key test on a mapping, substring test on a
    string, membership on a list, [TypeError] on what is not iterable. *)
Definition contains (k : string) (v : pyval) : outcome bool :=
  match v with
  | VDict d => Ok (is_some (dict_get k d))
  | VStr s => Ok (is_some (find k 0 s))
  | VList l => Ok (existsb (eq_str k) l)
  | _ => Raise TypeError
  end.

(** [v[k]] for a string [k] *)
Definition getitem (v : pyval) (k : string) : outcome pyval :=
  match v with
  | VDict d => match dict_get k d with Some x => Ok x | None => Raise KeyError end
  | _ => Raise TypeError
  end.

(** [v.upper()] and [v.lower()]: only [str] has the attribute. *)
Definition call_upper {U : Unicode} (v : pyval) : outcome string :=
  match v with VStr s => Ok (upper s) | _ => Raise AttributeError end.

Definition call_lower {U : Unicode} (v : pyval) : outcome string :=
  match v with VStr s => Ok (lower s) | _ => Raise AttributeError end.

Definition isinstance_str (v : pyval) : bool :=
  match v with VStr _ => true | _ => false end.

Definition isinstance_list (v : pyval) : bool :=
  match v with VList _ => true | _ => false end.

Definition isinstance_dict (v : pyval) : bool :=
  match v with VDict _ => true | _ => false end.

(** [isinstance(v, (int, str))]; [bool] is a subclass of [int]. *)
Definition isinstance_int_str (v : pyval) : bool :=
  match v with VBool _ | VInt _ | VStr _ => true | _ => false end.

(** [int(v)] for a [v] that is neither [int] nor [str]: the exception it
    raises, if any. *)
Definition int_of (v : pyval) : outcome unit :=
  match v with
  | VFloat S754_nan => Raise ValueError
  | VFloat (S754_infinity _) => Raise OverflowError
  | VFloat _ | VBool _ | VInt _ => Ok tt
  | VStr _ => Raise ValueError
  | _ => Raise TypeError
  end.

(** ** The validator object and its monad *)

Record validator : Type := mkValidator {
  strict_mode : bool;
  errors : list string;
  warnings : list string
}.

(** [TDRValidator(strict_mode)] *)
Definition init (strict : bool) : validator := mkValidator strict [] [].

Definition M (A : Type) : Type := validator -> outcome (A * validator).

Definition ret {A} (a : A) : M A := fun self => Ok (a, self).

Definition bind {A B} (m : M A) (f : A -> M B) : M B :=
  fun self =>
    match m self with
    | Ok (a, self') => f a self'
    | Raise e => Raise e
    end.

Definition lift {A} (o : outcome A) : M A :=
  fun self => match o with Ok a => Ok (a, self) | Raise e => Raise e end.

Notation "x <- m ;; k" := (bind m (fun x => k))
  (at level 61, m at next level, right associativity).
Notation "m ;;; k" := (bind m (fun _ => k))
  (at level 61, right associativity).

(** [self.errors.append(msg)] and [self.warnings.append(msg)] *)
Definition append_error (msg : string) : M unit :=
  fun self =>
    Ok (tt, mkValidator (strict_mode self) (errors self ++ [msg]) (warnings self)).

Definition append_warning (msg : string) : M unit :=
  fun self =>
    Ok (tt, mkValidator (strict_mode self) (errors self) (warnings self ++ [msg])).

(** [self.errors = []; self.warnings = []] *)
Definition reset : M unit :=
  fun self => Ok (tt, mkValidator (strict_mode self) [] []).

Definition when (b : bool) (m : M unit) : M unit := if b then m else ret tt.

(** [for x in xs: body x] *)
Fixpoint for_each {A} (xs : list A) (body : A -> M unit) : M unit :=
  match xs with
  | [] => ret tt
  | x :: xs' => body x ;;; for_each xs' body
  end.

(** ** Schema registry *)

Record tdr_config : Type := mkConfig {
  name : string;
  required_sections : list string;
  optional_sections : list string
}.

Definition TDR_TYPES : list (string * tdr_config) :=
  [ ("MDD", mkConfig "Major Design Decision"
       ["Status"; "Context"; "Decision"; "Rationale";
        "Consequences"; "Implementation"; "Alternatives Considered"]
       ["Assumptions"; "Constraints"; "Risks"; "Timeline";
        "Success Metrics"; "Review Schedule"]);
    ("ADR", mkConfig "Architectural Decision Record"
       ["Status"; "Context"; "Decision"; "Consequences"]
       ["Rationale"; "Alternatives Considered"; "Implementation";
        "Assumptions"; "Constraints"; "Related Decisions"]);
    ("EDR", mkConfig "Engineering Decision Record"
       ["Status"; "Context"; "Decision"; "Implementation"]
       ["Rationale"; "Consequences"; "Alternatives Considered";
        "Technical Details"; "Testing Approach"; "Performance Impact"]);
    ("IDR", mkConfig "Implementation Decision Record"
       ["Status"; "Context"; "Decision"; "Implementation"]
       ["Rationale"; "Code Examples"; "Testing Notes";
        "Performance Notes"; "Dependencies"; "Rollback Plan"]);
    ("TDM", mkConfig "Technical Decision Memo"
       ["Context"; "Decision"; "Rationale"]
       ["Implementation"; "Consequences"; "Next Steps";
        "Follow-up Required"; "Related Work"]) ].

Definition VALID_STATUSES : list string :=
  ["proposed"; "accepted"; "rejected"; "superseded";
   "deprecated"; "under-review"; "implemented"].

Fixpoint assoc {A} (k : string) (l : list (string * A)) : option A :=
  match l with
  | [] => None
  | (k', v) :: l' => if String.eqb k' k then Some v else assoc k l'
  end.

(** [x in xs] for strings *)
Definition mem (x : string) (xs : list string) : bool :=
  existsb (String.eqb x) xs.

(** [t in self.TDR_TYPES] *)
Definition known_type (t : string) : bool := is_some (assoc t TDR_TYPES).

(** ** Frontmatter delimiters *)

Definition nl : string := String NL EmptyString.

(** ['---\n'] and ['\n---\n'] *)
Definition FM_OPEN : string := "---" ++ nl.
Definition FM_CLOSE : string := nl ++ "---" ++ nl.

(** ** Section segmenter: [_parse_sections] *)

(** The longest run of whitespace at the head of [s], and what follows. *)
Fixpoint span_space (s : string) : string * string :=
  match s with
  | EmptyString => (EmptyString, EmptyString)
  | String a r =>
      if isspace a then let (ws, rest) := span_space r in (String a ws, rest)
      else (EmptyString, s)
  end.

Fixpoint last_char (s : string) : string :=
  match s with
  | EmptyString => EmptyString
  | String a EmptyString => s
  | String _ r => last_char r
  end.

(** [\s+(.+)$] on the rest of a line (a piece of [split('\n')], so without
    line feed): [\s+] is greedy, and gives its last character back to [.+]
    when nothing else is left for it.  The result is group 2. *)
Definition match_heading_text (s : string) : option string :=
  let (ws, rest) := span_space s in
  match rest with
  | String _ _ => if is_empty ws then None else Some rest
  | EmptyString =>
      match ws with
      | String _ (String _ _) => Some (last_char ws)
      | _ => None
      end
  end.

(** [re.match(r'^(#{2,3})\s+(.+)$', line)]: groups 1 and 2.  [#{2,3}] first
    takes three hashes, then falls back to two. *)
Definition header_match (line : string) : option (string * string) :=
  match line with
  | String "#" (String "#" r) =>
      let two := option_map (pair "##") (match_heading_text r) in
      match r with
      | String "#" r3 =>
          match match_heading_text r3 with
          | Some g => Some ("###", g)
          | None => two
          end
      | _ => two
      end
  | _ => None
  end.

(** A [Dict[str, str]] in insertion order: assigning to a key that is present
    keeps its place. *)
Definition section_map : Type := list (string * string).

Fixpoint dict_set (k v : string) (d : section_map) : section_map :=
  match d with
  | [] => [(k, v)]
  | (k', v') :: d' =>
      if String.eqb k' k then (k', v) :: d' else (k', v') :: dict_set k v d'
  end.

(** [if current_section:] *)
Definition truthy_name (cur : option string) : bool :=
  match cur with Some c => negb (is_empty c) | None => false end.

(** [if current_section: sections[current_section] = '\n'.join(current_content).strip()] *)
Definition save_section (cur : option string) (current_content : list string)
    (sections : section_map) : section_map :=
  match cur with
  | Some c =>
      if is_empty c then sections
      else dict_set c (strip (join_lines current_content)) sections
  | None => sections
  end.

Fixpoint parse_loop (lines : list string) (sections : section_map)
    (current_section : option string) (current_content : list string)
    : section_map :=
  match lines with
  | [] => save_section current_section current_content sections
  | line :: lines' =>
      match header_match line with
      | Some (_, g2) =>
          parse_loop lines'
            (save_section current_section current_content sections)
            (Some (strip g2)) []
      | None =>
          parse_loop lines' sections current_section
            (if truthy_name current_section then current_content ++ [line]
             else current_content)
      end
  end.

Definition _parse_sections (content : string) : M section_map :=
  ret (parse_loop (split_lines content) [] None []).

(** ** Cross-reference pattern: [re.findall(r'\b([A-Z]{3})-(\d+)\b', content)] *)

Fixpoint span_digits {U : Unicode} (s : string) : string * string :=
  match s with
  | EmptyString => (EmptyString, EmptyString)
  | String a r =>
      if is_digit a then let (ds, rest) := span_digits r in (String a ds, rest)
      else (EmptyString, s)
  end.

(** [\b] between [prev] and a word character, and between a word character
    and [next]. *)
Definition boundary {U : Unicode} (other : option char) : bool :=
  match other with Some c => negb (is_word c) | None => true end.

Definition head_char (s : string) : option char :=
  match s with String a _ => Some a | EmptyString => None end.

(** The pattern tried at the head of [s], [prev] being the character before.
    [\d+] takes the whole run of digits; giving digits back cannot help the
    closing [\b], which would then stand between two digits. *)
Definition match_ref {U : Unicode} (prev : option char) (s : string) : option (string * string) :=
  match s with
  | String a (String b (String c (String h r))) =>
      if boundary prev && is_upper a && is_upper b && is_upper c
         && N.eqb h "-"%cp
      then
        let sp := span_digits r in
        if negb (is_empty (fst sp)) && boundary (head_char (snd sp))
        then Some (String a (String b (String c EmptyString)), fst sp)
        else None
      else None
  | _ => None
  end.

(** The scan of [findall]: leftmost matches, not overlapping.  [skip] counts
    the characters of the last match still to be passed. *)
Fixpoint scan {U : Unicode} (skip : nat) (prev : option char) (s : string)
    : list (string * string) :=
  match s with
  | EmptyString => []
  | String a r =>
      match skip with
      | S k => scan k (Some a) r
      | O =>
          match match_ref prev s with
          | Some (t, d) => (t, d) :: scan (3 + length d) (Some a) r
          | None => scan 0 (Some a) r
          end
      end
  end.

Definition findall {U : Unicode} (content : string) : list (string * string) :=
  scan 0 None content.

(** ** Results *)

Record metadata : Type := mkMetadata {
  frontmatter : pyval;
  section_count : nat;
  sections : list string;
  has_ai_context : bool
}.

(** The result dictionary; [metadata] is [None] for the empty dictionary of
    [_create_error_result]. *)
Module Result.
Record t : Type := mk {
  file : string;
  valid : bool;
  errors : list string;
  warnings : list string;
  metadata : option metadata
}.
End Result.

(** [len(xs) == 0] *)
Definition len_is_0 {A} (xs : list A) : bool :=
  match xs with [] => true | _ => false end.

Definition _create_error_result (error_message : string) : Result.t :=
  Result.mk "unknown" false [error_message] [] None.

(** ** Order of the files of a directory: [sorted] *)

Module PathOrder <: TotalLeBool.
Definition t := string.
Definition leb := String.leb.
Definition leb_total : forall x y, leb x y = true \/ leb y x = true.
Proof.
  unfold leb. induction x as [|a x IH]; intros [|b y]; simpl; auto.
  destruct (N.ltb_spec a b) as [H|H]; [now left|].
  destruct (N.ltb_spec b a) as [H'|H']; [now right|].
  assert (a = b) by lia. subst b. rewrite N.eqb_refl. apply IH.
Qed.
End PathOrder.

Module PathSort := Sort PathOrder.

Definition sorted (paths : list string) : list string := PathSort.sort paths.

(** ** The methods of [TDRValidator] *)

(** What [yaml.safe_load] does with a text: a value, a [yaml.YAMLError] with
    its message, or another exception. *)
Inductive yaml_result : Type :=
| YOk (v : pyval)
| YAMLError (msg : string)
| YRaise (e : exn).

(** What [open(...).read()] does with a path. *)
Inductive read_result : Type :=
| FileContent (content : string)
| FileNotFoundError
| UnicodeDecodeError
| ReadRaise (e : exn).

Definition raise {A} (e : exn) : M A := fun _ => Raise e.

Definition get_errors : M (list string) := fun self => Ok (errors self, self).
Definition get_strict_mode : M bool := fun self => Ok (strict_mode self, self).

(** [for x in xs: results.append(f x)] *)
Fixpoint map_m {A B} (f : A -> M B) (xs : list A) : M (list B) :=
  match xs with
  | [] => ret []
  | x :: xs' => y <- f x ;; ys <- map_m f xs' ;; ret (y :: ys)
  end.

Definition required_fields : list string :=
  ["type"; "title"; "status"; "date"; "decision_owner"].

Definition valid_levels : list string := ["low"; "medium"; "high"; "critical"].

(** [f"{valid_levels}"] *)
Definition valid_levels_repr : string := "['low', 'medium', 'high', 'critical']".

Section Validator.

Context {U : Unicode} {P : Paths}.

Variable safe_load : string -> yaml_result.
(** [datetime.fromisoformat s] returns ([true]) or raises [ValueError]. *)
Variable fromisoformat : string -> bool.
(** [str(v)] for the values that are neither strings nor dates. *)
Variable str_other : pyval -> string.
Variable read_file : string -> read_result.
Variable is_dir : string -> bool.
(** [dir_path.glob("*.md")] *)
Variable glob_md : string -> list string.

Definition py_str (v : pyval) : string :=
  match v with
  | VStr s => s
  | VDate iso => iso
  | _ => str_other v
  end.

Definition _parse_frontmatter (content : string) : M (pyval * string) :=
  if negb (startswith FM_OPEN content) then ret (VNone, content)
  else
    match find FM_CLOSE 4 content with
    | None => ret (VNone, content)
    | Some end_marker =>
        let yaml_content := slice 4 end_marker content in
        let markdown_content := drop (end_marker + 5) content in
        match safe_load yaml_content with
        | YOk fm => ret (fm, markdown_content)
        | YAMLError e =>
            append_error ("Invalid YAML frontmatter: " ++ e) ;;;
            ret (VNone, content)
        | YRaise e => raise e
        end
    end.

(** [if field in frontmatter: body frontmatter[field]] *)
Definition if_present (field : string) (fm : pyval) (body : pyval -> M unit)
    : M unit :=
  b <- lift (contains field fm) ;;
  if b then v <- lift (getitem fm field) ;; body v else ret tt.

Definition check_optional (fm : pyval) (field : string) : M unit :=
  if_present field fm (fun v =>
    if negb (isinstance_int_str v) then
      if String.eqb field "tdr_id" then ret tt
      else
        match int_of v with
        | Ok _ => ret tt
        | Raise ValueError | Raise TypeError =>
            append_warning ("Field '" ++ field ++ "' should be numeric or string")
        | Raise e => raise e
        end
    else ret tt).

Definition _validate_frontmatter (fm : pyval) : M unit :=
  for_each required_fields (fun field =>
    b <- lift (contains field fm) ;;
    when (negb b)
      (append_error ("Missing required frontmatter field: " ++ field))) ;;;
  if_present "type" fm (fun v =>
    tdr_type <- lift (call_upper v) ;;
    when (negb (known_type tdr_type))
      (append_error ("Invalid TDR type: " ++ py_str v ++ ". " ++
                     "Valid types: " ++ join_comma (map fst TDR_TYPES)))) ;;;
  if_present "status" fm (fun v =>
    status <- lift (call_lower v) ;;
    when (negb (mem status VALID_STATUSES))
      (append_error ("Invalid status: " ++ py_str v ++ ". " ++
                     "Valid statuses: " ++ join_comma VALID_STATUSES))) ;;;
  if_present "date" fm (fun v =>
    when (negb (fromisoformat (py_str v)))
      (append_error ("Invalid date format: " ++ py_str v ++ ". " ++
                     "Use ISO format: YYYY-MM-DD or YYYY-MM-DDTHH:MM:SS"))) ;;;
  if_present "decision_owner" fm (fun v =>
    match v with
    | VStr s =>
        when (is_empty (strip s)) (append_error "decision_owner cannot be empty")
    | _ => append_error "decision_owner must be a string"
    end) ;;;
  for_each ["tdr_id"; "supersedes"] (check_optional fm) ;;;
  if_present "reviewers" fm (fun v =>
    when (negb (isinstance_list v)) (append_warning "reviewers should be a list")).

Definition check_required (sections : section_map) (required_section : string)
    : M unit :=
  match assoc required_section sections with
  | None => append_error ("Missing required section: " ++ required_section)
  | Some c =>
      when (is_empty (strip c))
        (append_error ("Required section is empty: " ++ required_section))
  end.

Definition _validate_sections (tdr_type : pyval) (sections : section_map)
    : M unit :=
  tdr_type <- lift (call_upper tdr_type) ;;
  match assoc tdr_type TDR_TYPES with
  | None => ret tt
  | Some config =>
      for_each (required_sections config) (check_required sections) ;;;
      strict <- get_strict_mode ;;
      when strict
        (let known_sections :=
           (required_sections config ++ optional_sections config)%list in
         for_each (map fst sections) (fun section_name =>
           when (negb (mem section_name known_sections))
             (append_warning ("Unknown section for " ++ tdr_type ++ ": " ++
                              section_name))))
  end.

Definition _validate_cross_references (content : string) : M unit :=
  for_each (findall content) (fun '(ref_type, ref_id) =>
    when (negb (known_type ref_type))
      (append_warning ("Reference to unknown TDR type: " ++ ref_type ++ "-" ++
                       ref_id))).

Definition _validate_ai_context (fm : pyval) : M unit :=
  if_present "ai-context" fm (fun ai_context =>
    match ai_context with
    | VDict d =>
        match dict_get "summary" d with
        | Some (VStr s) =>
            when (length s <? 20)
              (append_warning "AI context summary should be a descriptive string (20+ chars)")
        | Some _ =>
            append_warning "AI context summary should be a descriptive string (20+ chars)"
        | None => ret tt
        end ;;;
        match dict_get "keywords" d with
        | Some v =>
            when (negb (isinstance_list v))
              (append_warning "AI context keywords should be a list")
        | None => ret tt
        end ;;;
        match dict_get "complexity-level" d with
        | Some v =>
            when (negb (existsb (fun l => eq_str l v) valid_levels))
              (append_warning ("AI context complexity-level should be one of: " ++
                               valid_levels_repr))
        | None => ret tt
        end
    | _ => append_error "ai-context must be a dictionary"
    end).

Definition _create_result (file_path : string) (fm : pyval)
    (sections : section_map) : M Result.t :=
  has_ai <- (if truthy fm then lift (contains "ai-context" fm) else ret false) ;;
  fun self =>
    Ok (Result.mk file_path (len_is_0 (errors self)) (errors self) (warnings self)
          (Some (mkMetadata fm (List.length sections) (map fst sections) has_ai)),
        self).

Definition validate_file (file_path : string) : M Result.t :=
  reset ;;;
  match read_file file_path with
  | FileNotFoundError =>
      ret (_create_error_result ("File not found: " ++ path_str file_path))
  | UnicodeDecodeError =>
      ret (_create_error_result
             ("Invalid UTF-8 encoding: " ++ path_str file_path))
  | ReadRaise e => raise e
  | FileContent content =>
      p <- _parse_frontmatter content ;;
      let (fm, markdown_content) := p in
      if negb (truthy fm) then
        append_error "Missing or invalid YAML frontmatter" ;;;
        _create_result (path_str file_path) fm []
      else
        _validate_frontmatter fm ;;;
        sections <- _parse_sections markdown_content ;;
        (b <- lift (contains "type" fm) ;;
         if b then v <- lift (getitem fm "type") ;; _validate_sections v sections
         else ret tt) ;;;
        _validate_cross_references markdown_content ;;;
        _validate_ai_context fm ;;;
        _create_result (path_str file_path) fm sections
  end.

Definition validate_directory (dir_path : string) : M (list Result.t) :=
  if negb (is_dir dir_path) then
    ret [_create_error_result ("Directory not found: " ++ path_str dir_path)]
  else
    let tdr_files := glob_md dir_path in
    if len_is_0 tdr_files then
      ret [_create_error_result
             ("No .md files found in: " ++ path_str dir_path)]
    else map_m validate_file (sorted tdr_files).

End Validator.

(** ** The report and the command line: [format_results], [main] *)

(** [str(n)] and [f"{n}"] for an integer. *)
Fixpoint string_of_uint (d : Decimal.uint) : string :=
  match d with
  | Decimal.Nil => EmptyString
  | Decimal.D0 d' => String "0" (string_of_uint d')
  | Decimal.D1 d' => String "1" (string_of_uint d')
  | Decimal.D2 d' => String "2" (string_of_uint d')
  | Decimal.D3 d' => String "3" (string_of_uint d')
  | Decimal.D4 d' => String "4" (string_of_uint d')
  | Decimal.D5 d' => String "5" (string_of_uint d')
  | Decimal.D6 d' => String "6" (string_of_uint d')
  | Decimal.D7 d' => String "7" (string_of_uint d')
  | Decimal.D8 d' => String "8" (string_of_uint d')
  | Decimal.D9 d' => String "9" (string_of_uint d')
  end.

Definition str_int (z : Z) : string :=
  match Z.to_int z with
  | Decimal.Pos d => string_of_uint d
  | Decimal.Neg d => String "-" (string_of_uint d)
  end.

(** [s * n] *)
Fixpoint repeat_string (s : string) (n : nat) : string :=
  match n with
  | O => EmptyString
  | S n' => s ++ repeat_string s n'
  end.

(** [v.get(key, default)]: the method of a mapping; no other value has it. *)
Definition call_get (v : pyval) (key : string) (default : pyval)
    : outcome pyval :=
  match v with
  | VDict d =>
      Ok (match dict_get key d with Some x => x | None => default end)
  | _ => Raise AttributeError
  end.

Definition and_then {A B} (o : outcome A) (k : A -> outcome B) : outcome B :=
  match o with Ok a => k a | Raise e => Raise e end.

(** The loop over the results: the lines of each, in order; the first
    exception ends it. *)
Fixpoint for_lines {A} (xs : list A) (body : A -> outcome (list string))
    : outcome (list string) :=
  match xs with
  | [] => Ok []
  | x :: xs' =>
      and_then (body x) (fun ls =>
      and_then (for_lines xs' body) (fun rest => Ok (ls ++ rest)%list))
  end.

(** What the process leaves when it ends by [sys.exit]: the exit status and
    the texts printed on the two streams. *)
Record exit_state : Type := mkExit {
  exit_code : Z;
  stdout : list string;
  stderr : list string
}.

Section Cli.

Context {U : Unicode} {P : Paths}.

Variable safe_load : string -> yaml_result.
Variable fromisoformat : string -> bool.
Variable str_other : pyval -> string.
Variable read_file : string -> read_result.
Variable is_dir : string -> bool.
Variable glob_md : string -> list string.
(** [Path(p).name] *)
Variable path_name : string -> string.
(** [json.dumps(results, indent=2)] *)
Variable json_dumps : list Result.t -> outcome string.
(** [path.exists()] and [path.is_file()] *)
Variable path_exists : string -> bool.
Variable is_file : string -> bool.

(** The lines of one result in the text report.  The glyphs of the source
    are held as their UTF-8 bytes. *)
Definition format_result (result : Result.t) : outcome (list string) :=
  let file_name := path_name (Result.file result) in
  let status := if Result.valid result then "✓ VALID" else "✗ INVALID" in
  let head := [status ++ " - " ++ file_name] in
  let error_lines :=
    if negb (len_is_0 (Result.errors result))
    then "  Errors:" :: map (fun error => "    • " ++ error) (Result.errors result)
    else [] in
  let warning_lines :=
    if negb (len_is_0 (Result.warnings result))
    then "  Warnings:"
         :: map (fun warning => "    • " ++ warning) (Result.warnings result)
    else [] in
  and_then
    (match Result.metadata result with
     | Some metadata =>
         if Result.valid result && truthy (frontmatter metadata) then
           let fm := frontmatter metadata in
           and_then (call_get fm "type" (VStr "Unknown")) (fun tdr_type =>
           and_then (call_get fm "status" (VStr "Unknown")) (fun status =>
           Ok ["  Type: " ++ py_str str_other tdr_type ++
               " | Status: " ++ py_str str_other status ++
               " | Sections: " ++ str_int (Z.of_nat (section_count metadata))]))
         else Ok []
     | None => Ok []
     end)
    (fun summary =>
       Ok (head ++ error_lines ++ warning_lines ++ summary ++ [""])%list).

Definition format_results (results : list Result.t) (output_format : string)
    : outcome string :=
  if String.eqb output_format "json" then json_dumps results
  else
    let total_files := Z.of_nat (List.length results) in
    let valid_files :=
      Z.of_nat (List.length (filter Result.valid results)) in
    let header :=
      ["TDR Validation Report";
       repeat_string "=" 50;
       "Files processed: " ++ str_int total_files;
       "Valid files: " ++ str_int valid_files;
       "Files with errors: " ++ str_int (total_files - valid_files)%Z;
       ""] in
    and_then (for_lines results format_result) (fun lines =>
    Ok (join_lines (header ++ lines)%list)).

(** [main] once the arguments are parsed: [strict] is [args.strict],
    [output] is [args.output] and [path] is [args.path]. *)
Definition main (strict : bool) (output path : string) : outcome exit_state :=
  let validator := init strict in
  if negb (path_exists path) then
    Ok (mkExit 1 [] ["Error: Path does not exist: " ++ path_str path])
  else
    and_then
      ((if is_file path
        then r <- validate_file safe_load fromisoformat str_other read_file
                    path ;;
             ret [r]
        else validate_directory safe_load fromisoformat str_other read_file
               is_dir glob_md path) validator)
      (fun '(results, _) =>
         and_then (format_results results output) (fun text =>
         let has_errors := existsb (fun r => negb (Result.valid r)) results in
         Ok (mkExit (if has_errors then 1 else 0)%Z [text] []))).

End Cli.

(** ** Instances used by the examples *)

(** The examples are ASCII texts: what the database says beyond ASCII is
    never asked of this instance. *)
#[export] Instance ascii_texts : Unicode := {
  unicode_decimal := fun _ => false;
  unicode_alnum := fun _ => false;
  unicode_upper := fun s => s;
  unicode_lower := fun s => s
}.

(** [str(PurePosixPath(p))]: the components of [p] other than the empty one
    and the dot, joined by [/], after the root if [p] has one, and the dot
    if nothing is left. *)
Fixpoint split_path (cur : string) (p : string) : list string :=
  match p with
  | EmptyString => [cur]
  | String "/" r => cur :: split_path EmptyString r
  | String c r => split_path (cur ++ String c EmptyString) r
  end.

Fixpoint join_path (parts : list string) : string :=
  match parts with
  | [] => EmptyString
  | [x] => x
  | x :: xs => x ++ "/" ++ join_path xs
  end.

Definition posix_str (p : string) : string :=
  let parts :=
    filter (fun x => negb (is_empty x || String.eqb x ".")) (split_path EmptyString p) in
  let root :=
    match p with
    | String "/" (String "/" (String "/" _)) => "/"
    | String "/" (String "/" _) => "//"
    | String "/" _ => "/"
    | _ => EmptyString
    end in
  if is_empty root && len_is_0 parts then "." else root ++ join_path parts.

#[export] Instance posix_paths : Paths := { path_str := posix_str }.

(** A decoder for a fragment of YAML, on which it answers as
    [yaml.safe_load] does: the empty document; one plain scalar; a block
    mapping of [key: value] lines with distinct keys, whose keys are plain
    words and whose values are plain scalars.  A plain scalar is resolved as
    PyYAML resolves it: a decimal number is an [int], a calendar date
    [YYYY-MM-DD] is a [date], a plain word is a [str].  A value that opens a
    flow sequence and does not close it is a [yaml.YAMLError] (the message
    stands for PyYAML's, which also quotes the position).  Outside the
    fragment the decoder answers [LibraryError]; no example is outside. *)
Fixpoint split_at_colon (s : string) : option (string * string) :=
  match s with
  | EmptyString => None
  | String ":" (String " " r) => Some (EmptyString, r)
  | String a r =>
      match split_at_colon r with
      | Some (k, v) => Some (String a k, v)
      | None => None
      end
  end.

Definition ascii_digit (c : char) : bool := ((48 <=? c) && (c <=? 57))%N.

Definition plain_char (c : char) : bool :=
  is_upper c || is_lower c || ascii_digit c
  || N.eqb c " "%cp || N.eqb c "-"%cp || N.eqb c "_"%cp || N.eqb c "."%cp.

Fixpoint ends_with_space (s : string) : bool :=
  match s with
  | EmptyString => false
  | String c EmptyString => N.eqb c " "%cp
  | String _ r => ends_with_space r
  end.

(** The plain words that PyYAML resolves as [bool] or as [None]. *)
Definition resolved_words : list string :=
  ["yes"; "Yes"; "YES"; "no"; "No"; "NO"; "true"; "True"; "TRUE";
   "false"; "False"; "FALSE"; "on"; "On"; "ON"; "off"; "Off"; "OFF";
   "null"; "Null"; "NULL"].

Definition is_plain_word (s : string) : bool :=
  match s with
  | String c _ =>
      (is_upper c || is_lower c) && all_str plain_char s
      && negb (ends_with_space s)
      && negb (existsb (String.eqb s) resolved_words)
  | EmptyString => false
  end.

Fixpoint digits_value (acc : Z) (s : string) : Z :=
  match s with
  | EmptyString => acc
  | String c r => digits_value (10 * acc + Z.of_N (c - 48)) r
  end.

(** [0], or digits that do not start with [0]. *)
Definition is_decimal_int (s : string) : bool :=
  match s with
  | String "0" EmptyString => true
  | String c _ => ascii_digit c && negb (N.eqb c "0"%cp) && all_str ascii_digit s
  | EmptyString => false
  end.

Definition two_digits (a b : char) : nat := N.to_nat ((a - 48) * 10 + (b - 48)).

Definition days_in_month (year month : nat) : nat :=
  match month with
  | 2 =>
      if ((year mod 4 =? 0) && negb (year mod 100 =? 0)) || (year mod 400 =? 0)
      then 29 else 28
  | 4 | 6 | 9 | 11 => 30
  | _ => 31
  end.

(** Calendar dates written [YYYY-MM-DD], from year 1 on. *)
Definition iso_date_shape (s : string) : bool :=
  match s with
  | String y1 (String y2 (String y3 (String y4 (String "-"
      (String m1 (String m2 (String "-"
        (String d1 (String d2 EmptyString))))))))) =>
      forallb ascii_digit [y1; y2; y3; y4; m1; m2; d1; d2]
      && (let year := two_digits y1 y2 * 100 + two_digits y3 y4 in
          let month := two_digits m1 m2 in
          let day := two_digits d1 d2 in
          (1 <=? year) && (1 <=? month) && (month <=? 12)
          && (1 <=? day) && (day <=? days_in_month year month))
  | _ => false
  end.

(** The shape PyYAML takes for a date, whatever the numbers. *)
Definition date_shape (s : string) : bool :=
  match s with
  | String y1 (String y2 (String y3 (String y4 (String "-"
      (String m1 (String m2 (String "-"
        (String d1 (String d2 EmptyString))))))))) =>
      forallb ascii_digit [y1; y2; y3; y4; m1; m2; d1; d2]
  | _ => false
  end.

(** A plain scalar, resolved. *)
Definition plain_scalar (s : string) : yaml_result :=
  if is_decimal_int s then YOk (VInt (digits_value 0 s))
  else if date_shape s then
    if iso_date_shape s then YOk (VDate s) else YRaise ValueError
  else if is_plain_word s then YOk (VStr s)
  else YRaise LibraryError.

Definition opens_flow_sequence (s : string) : bool :=
  match s with
  | String "[" r => all_str plain_char r
  | _ => false
  end.

(** The lines as [key: value] pairs: the parse, which comes first. *)
Fixpoint flat_lines (ls : list string) : outcome (list (string * string)) + string :=
  match ls with
  | [] => inl (Ok [])
  | l :: ls' =>
      match split_at_colon l with
      | Some (k, v) =>
          if negb (is_plain_word k) then inl (Raise LibraryError)
          else if opens_flow_sequence v then
            inr "while parsing a flow sequence"
          else
            match flat_lines ls' with
            | inl (Ok d) => inl (Ok ((k, v) :: d))
            | other => other
            end
      | None => inl (Raise LibraryError)
      end
  end.

(** The mapping built from the pairs, in order. *)
Fixpoint flat_entries (kvs : list (string * string)) : yaml_result :=
  match kvs with
  | [] => YOk (VDict [])
  | (k, v) :: kvs' =>
      match plain_scalar v with
      | YOk x =>
          match flat_entries kvs' with
          | YOk (VDict d) =>
              if is_some (dict_get k d) then YRaise LibraryError
              else YOk (VDict ((VStr k, x) :: d))
          | other => other
          end
      | other => other
      end
  end.

Definition flat_yaml (text : string) : yaml_result :=
  match split_lines text with
  | [l] =>
      if is_empty l then YOk VNone
      else
        match split_at_colon l with
        | None => plain_scalar l
        | Some _ =>
            match flat_lines [l] with
            | inl (Ok kvs) => flat_entries kvs
            | inl (Raise e) => YRaise e
            | inr msg => YAMLError msg
            end
        end
  | ls =>
      match flat_lines ls with
      | inl (Ok kvs) => flat_entries kvs
      | inl (Raise e) => YRaise e
      | inr msg => YAMLError msg
      end
  end.

(** [str(v)] for the numbers, the truth values and [None]. *)
Definition plain_str (v : pyval) : string :=
  match v with
  | VNone => "None"
  | VBool true => "True"
  | VBool false => "False"
  | VInt z => str_int z
  | _ => "<object>"
  end.

(** A file system with one readable file. *)
Definition one_file (path content : string) (p : string) : read_result :=
  if String.eqb p path then FileContent content else FileNotFoundError.

(** [validate_file] on a document text, with the instances above. *)
Abbreviation run_file strict content :=
  (validate_file flat_yaml iso_date_shape plain_str
     (one_file "doc.md" content) "doc.md" (init strict)) (only parsing).

Definition sample_adr : string :=
  join_lines
    ["---"; "type: ADR"; "title: Use a queue"; "status: Accepted";
     "date: 2025-01-15"; "decision_owner: Ann"; "---";
     "# Use a queue"; "";
     "## Status"; "Accepted, see ADR-007 and XYZ-12.";
     "## Context"; "Load is bursty.";
     "## Decision"; "Put a queue in front.";
     "## Consequences"; "One more service to run."; ""].

(** ** Vocabulary of the properties *)

(** A computation that only appends diagnostics: it returns, and [es] and
    [ws] are what it adds to the two lists. *)
Definition appends (m : M unit) (self : validator) (es ws : list string) : Prop :=
  m self = Ok (tt, mkValidator (strict_mode self)
                     (errors self ++ es) (warnings self ++ ws)).

Definition MISSING_HEADER : string := "Missing or invalid YAML frontmatter".

(** The result records the two entry points can return. *)
Inductive produced {U : Unicode} {P : Paths}
    (safe_load : string -> yaml_result)
    (fromisoformat : string -> bool) (str_other : pyval -> string)
    (read_file : string -> read_result) (is_dir : string -> bool)
    (glob_md : string -> list string) : Result.t -> Prop :=
| produced_file (path : string) (self self' : validator) (r : Result.t) :
    validate_file safe_load fromisoformat str_other read_file path self
      = Ok (r, self') ->
    produced safe_load fromisoformat str_other read_file is_dir glob_md r
| produced_directory (dir : string) (self self' : validator)
    (rs : list Result.t) (r : Result.t) :
    validate_directory safe_load fromisoformat str_other read_file is_dir
      glob_md dir self = Ok (rs, self') ->
    In r rs ->
    produced safe_load fromisoformat str_other read_file is_dir glob_md r.

(** The file-level conditions that end the validation of a file at once; a
    decoding failure comes with the message of the [yaml.YAMLError]. *)
Inductive file_fault : Type :=
| NotFound | BadEncoding | MissingHeader | DecodeFailure (msg : string).

(** The header of [content] is not delimited: no opening line, or no closing
    one after it. *)
Definition header_missing (content : string) : Prop :=
  startswith FM_OPEN content = false \/ find FM_CLOSE 4 content = None.

Definition has_fault (safe_load : string -> yaml_result)
    (read_file : string -> read_result) (path : string) (f : file_fault)
    : Prop :=
  match f with
  | NotFound => read_file path = FileNotFoundError
  | BadEncoding => read_file path = UnicodeDecodeError
  | MissingHeader =>
      exists content,
        read_file path = FileContent content /\ header_missing content
  | DecodeFailure msg =>
      exists content end_marker,
        read_file path = FileContent content /\
        startswith FM_OPEN content = true /\
        find FM_CLOSE 4 content = Some end_marker /\
        safe_load (slice 4 end_marker content) = YAMLError msg
  end.

Definition fault_errors (f : file_fault) : nat :=
  match f with DecodeFailure _ => 2 | _ => 1 end.

(** The errors of the result, for each fault. *)
Definition fault_messages {P : Paths} (path : string) (f : file_fault)
    : list string :=
  match f with
  | NotFound => ["File not found: " ++ path_str path]
  | BadEncoding => ["Invalid UTF-8 encoding: " ++ path_str path]
  | MissingHeader => [MISSING_HEADER]
  | DecodeFailure msg => ["Invalid YAML frontmatter: " ++ msg; MISSING_HEADER]
  end.

Definition flag_agrees (r : Result.t) : Prop :=
  Result.valid r = true <-> Result.errors r = [].


(** Computations that return after appending warnings only. *)
Definition warns_only (m : M unit) : Prop :=
  forall self, exists ws, appends m self [] ws.

(** ** Documents of the examples *)

Definition sample_result : Result.t :=
  Eval vm_compute in
    match run_file true sample_adr with
    | Ok (r, _) => r
    | Raise _ => _create_error_result EmptyString
    end.

(** The sample, validated under the path [./doc.md]. *)
Definition dotted_result : Result.t :=
  Eval vm_compute in
    match validate_file flat_yaml iso_date_shape plain_str
            (one_file "./doc.md" sample_adr) "./doc.md" (init true) with
    | Ok (r, _) => r
    | Raise _ => _create_error_result EmptyString
    end.

(** A text without header. *)
Definition headerless_doc : string :=
  join_lines ["# Use a queue"; "## Context"; "Load is bursty."].

(** A header that opens a flow sequence and does not close it. *)
Definition undecodable_doc : string :=
  join_lines ["---"; "type: [ADR"; "---"; "## Context"; "Load is bursty."].

Definition no_dir (p : string) : bool := false.
Definition no_files (p : string) : list string := [].

(** A line other than the three-dash delimiter. *)
Definition not_delimiter (l : string) : bool := negb (String.eqb l "---").

(** A header cut short: the opening line, a text [y] none of whose lines is
    a delimiter, and a closing delimiter that ends the file without a line
    feed. *)
Definition truncated_header (y : string) : string :=
  FM_OPEN ++ y ++ nl ++ "---".

(** What the loop over the required sections adds for one name. *)
Definition required_diag (sections : section_map) (name : string) : list string :=
  match assoc name sections with
  | None => ["Missing required section: " ++ name]
  | Some c =>
      if is_empty (strip c) then ["Required section is empty: " ++ name]
      else []
  end.

Definition adr_config : tdr_config :=
  Eval vm_compute in
    match assoc "ADR" TDR_TYPES with
    | Some c => c
    | None => mkConfig EmptyString [] []
    end.

(** Sections of an ADR: [Context] holds blanks only (a space, a no-break
    space and a tab), [Decision] and [Consequences] are missing. *)
Definition blank_sections : section_map :=
  [("Status", "Accepted");
   ("Context", String 32%N (String 0xA0%N (String 9%N EmptyString)))].

(** ** Reference tokens *)

(** Three uppercase letters [t] and one or more digits [d]: the two parts of
    a reference [t-d]. *)
Definition is_ref_token {U : Unicode} (t d : string) : bool :=
  match t with
  | String a (String b (String c EmptyString)) =>
      is_upper a && is_upper b && is_upper c
  | _ => false
  end && all_str is_digit d && negb (is_empty d).

Fixpoint last_of (s : string) : option char :=
  match s with
  | EmptyString => None
  | String a EmptyString => Some a
  | String _ r => last_of r
  end.

(** The five codes of the document types. *)
Definition TYPE_CODES : list string := ["MDD"; "ADR"; "EDR"; "IDR"; "TDM"].

(** The warning one match gives rise to. *)
Definition ref_warning (p : string * string) : list string :=
  let (t, d) := p in
  if known_type t then []
  else ["Reference to unknown TDR type: " ++ t ++ "-" ++ d].

(** The warnings of a text: those of its matches, in order. *)
Definition xref_warnings {U : Unicode} (text : string) : list string :=
  flat_map ref_warning (findall text).

(** ** Headings and their sections *)

(** The heading text of a line, when the line is a heading: group 2,
    trimmed. *)
Definition heading_text (line : string) : option string :=
  match header_match line with
  | Some (_, g2) => Some (strip g2)
  | None => None
  end.

Definition is_heading (line : string) : bool := is_some (header_match line).

(** [line] is a heading whose text is [name]. *)
Definition names_section (name line : string) : bool :=
  match heading_text line with
  | Some t => String.eqb t name
  | None => false
  end.

(** The lines up to the next heading. *)
Fixpoint body_lines (lines : list string) : list string :=
  match lines with
  | [] => []
  | l :: ls => if is_heading l then [] else l :: body_lines ls
  end.

(** The content of the section whose heading is followed by [lines]. *)
Definition section_body (lines : list string) : string :=
  strip (join_lines (body_lines lines)).

(** Two blank headings, each followed by a line. *)
Definition blank_headings_doc : string :=
  join_lines ["##  "; "first"; "##  "; "second"].

(** The same heading twice. *)
Definition repeated_heading_doc : string :=
  join_lines ["intro"; "## Context"; "first"; "### Context"; "second"; "";
              "## Decision"; "third"].

(** ** Well-formed documents *)

(** The premise of the validity property: [content] has a delimited header
    that decodes to the mapping [d], the required fields are present and
    valid, the declared type is one of the five codes, with configuration
    [config], and every section that [config] requires is in the segmented
    [body] with a content that is not empty once trimmed. *)
Definition well_formed {U : Unicode} (safe_load : string -> yaml_result)
    (fromisoformat : string -> bool) (str_other : pyval -> string)
    (content : string) (d : list (pyval * pyval)) (body : string)
    (config : tdr_config) : Prop :=
  startswith FM_OPEN content = true /\
  (exists end_marker,
     find FM_CLOSE 4 content = Some end_marker /\
     safe_load (slice 4 end_marker content) = YOk (VDict d) /\
     body = drop (end_marker + 5) content) /\
  (exists t,
     dict_get "type" d = Some (VStr t) /\
     assoc (upper t) TDR_TYPES = Some config) /\
  (exists v, dict_get "title" d = Some v) /\
  (exists s,
     dict_get "status" d = Some (VStr s) /\
     mem (lower s) VALID_STATUSES = true) /\
  (exists v,
     dict_get "date" d = Some v /\
     fromisoformat (py_str str_other v) = true) /\
  (exists o,
     dict_get "decision_owner" d = Some (VStr o) /\
     strip o <> EmptyString) /\
  (forall name, In name (required_sections config) ->
     exists c,
       assoc name (parse_loop (split_lines body) [] None []) = Some c /\
       strip c <> EmptyString).

(** The sample, with an [ai-context] entry that is a text. *)
Definition ai_text_adr : string :=
  join_lines
    ["---"; "type: ADR"; "title: Use a queue"; "status: accepted";
     "date: 2025-01-15"; "decision_owner: Ann"; "ai-context: see the notes";
     "---";
     "## Status"; "Accepted";
     "## Context"; "Load is bursty.";
     "## Decision"; "Put a queue in front.";
     "## Consequences"; "One more service to run."].

(** The mapping and the body that the example decoder and the extractor get
    from a text. *)
Definition decoded (content : string) : list (pyval * pyval) :=
  match find FM_CLOSE 4 content with
  | Some end_marker =>
      match flat_yaml (slice 4 end_marker content) with
      | YOk (VDict d) => d
      | _ => []
      end
  | None => []
  end.

Definition body_of (content : string) : string :=
  match find FM_CLOSE 4 content with
  | Some end_marker => drop (end_marker + 5) content
  | None => content
  end.
(** ** Vocabulary of the further properties *)

(** [self'] is [self] with diagnostics added at the end of its lists. *)
Definition extends (self self' : validator) : Prop :=
  strict_mode self' = strict_mode self /\
  (exists es, errors self' = (errors self ++ es)%list) /\
  (exists ws, warnings self' = (warnings self ++ ws)%list).

(** A computation that, when it returns, has only added diagnostics. *)
Definition append_only {A} (m : M A) : Prop :=
  forall self a self', m self = Ok (a, self') -> extends self self'.

(** A directory [docs] with two documents, listed in no order. *)
Definition docs_fs (p : string) : read_result :=
  if String.eqb p "docs/a.md" then FileContent sample_adr
  else if String.eqb p "docs/b.md" then FileContent headerless_doc
  else FileNotFoundError.

Definition docs_dir (p : string) : bool := String.eqb p "docs".

Definition docs_glob (p : string) : list string :=
  if String.eqb p "docs" then ["docs/b.md"; "docs/a.md"] else [].

(** The same directory when [docs/b.md] cannot be opened. *)
Definition locked_fs (p : string) : read_result :=
  if String.eqb p "docs/b.md" then ReadRaise OSError else docs_fs p.

Definition docs_results : list Result.t :=
  Eval vm_compute in
    match validate_directory flat_yaml iso_date_shape plain_str docs_fs docs_dir
            docs_glob "docs" (init false) with
    | Ok (rs, _) => rs
    | Raise _ => []
    end.

(** The heading texts of the lines, in order, without the empty ones. *)
Fixpoint heading_names (lines : list string) : list string :=
  match lines with
  | [] => []
  | l :: ls =>
      match heading_text l with
      | Some t => if is_empty t then heading_names ls else t :: heading_names ls
      | None => heading_names ls
      end
  end.

(** The name of the open section, when it is one that will be saved. *)
Definition open_name (cur : option string) : list string :=
  match cur with
  | Some c => if is_empty c then [] else [c]
  | None => []
  end.

(** [k] added at the end of [ks] unless it is there. *)
Definition add_key (ks : list string) (k : string) : list string :=
  if mem k ks then ks else (ks ++ [k])%list.

(** The names of [ns], each at the place of its first occurrence. *)
Definition first_occurrences (ns : list string) : list string :=
  fold_left add_key ns [].

(** The warning of strict mode for one section name. *)
Definition unknown_warning (tdr_type : string) (config : tdr_config)
    (section_name : string) : list string :=
  if mem section_name (required_sections config ++ optional_sections config)%list
  then []
  else ["Unknown section for " ++ tdr_type ++ ": " ++ section_name].

(** Sections of an ADR with one that the type does not know. *)
Definition extra_sections : section_map :=
  [("Status", "Accepted"); ("Glossary", "Terms"); ("Context", "Load");
   ("Decision", "Queue"); ("Consequences", "Cost")].

(** A document made of a header text and a body. *)
Definition with_header (y body : string) : string :=
  FM_OPEN ++ y ++ FM_CLOSE ++ body.

(** What the extractor does with the outcome of the decoder, for a content
    whose header is delimited. *)
Definition extracted (decoded_header : yaml_result) (content body : string)
    (self : validator) : outcome ((pyval * string) * validator) :=
  match decoded_header with
  | YOk fm => Ok ((fm, body), self)
  | YAMLError e =>
      Ok ((VNone, content),
          mkValidator (strict_mode self)
            (errors self ++ ["Invalid YAML frontmatter: " ++ e])
            (warnings self))
  | YRaise e => Raise e
  end.

(** Computations that return after appending diagnostics, and computations
    that raise. *)
Definition diagnoses (m : M unit) : Prop :=
  forall self, exists es ws, appends m self es ws.

Definition raises {A} (e : exn) (m : M A) : Prop :=
  forall self, m self = Raise e.

(** The entry of [field] in the mapping [d] is a string, or there is none. *)
Definition string_or_absent (field : string) (d : list (pyval * pyval)) : bool :=
  match dict_get field d with
  | Some v => isinstance_str v
  | None => true
  end.

(** The values that have neither [upper()] nor [lower()]: [None], the truth
    values, the numbers, the lists, the mappings and the dates. *)
Definition without_case (v : pyval) : bool :=
  match v with
  | VNone | VBool _ | VInt _ | VFloat _ | VList _ | VDict _ | VDate _ => true
  | VStr _ => false
  end.

(** The [supersedes] entry of [d] is not an infinite float. *)
Definition finite_supersedes (d : list (pyval * pyval)) : bool :=
  match dict_get "supersedes" d with
  | Some (VFloat (S754_infinity _)) => false
  | _ => true
  end.

(** The mappings on which the field validator returns. *)
Definition field_types_ok (d : list (pyval * pyval)) : bool :=
  string_or_absent "type" d && string_or_absent "status" d
  && finite_supersedes d.


(** [xs] is [ys] with some elements left out. *)
Inductive subseq {A} : list A -> list A -> Prop :=
| subseq_nil : subseq [] []
| subseq_skip x xs ys : subseq xs ys -> subseq xs (x :: ys)
| subseq_keep x xs ys : subseq xs ys -> subseq (x :: xs) (x :: ys).

(** A validator outside strict mode beside a validator in any mode: the same
    errors, and no warning that the second one does not hold. *)
Definition lenient_of (s1 s2 : validator) : Prop :=
  strict_mode s1 = false /\
  errors s1 = errors s2 /\
  subseq (warnings s1) (warnings s2).

(** Two outcomes of one computation, run on two such validators: the same
    value or the same exception. *)
Definition same_outcome {A} (o1 o2 : outcome (A * validator)) : Prop :=
  match o1, o2 with
  | Ok (a1, s1), Ok (a2, s2) => a1 = a2 /\ lenient_of s1 s2
  | Raise e1, Raise e2 => e1 = e2
  | _, _ => False
  end.

Definition mode_blind {A} (m : M A) : Prop :=
  forall s1 s2, lenient_of s1 s2 -> same_outcome (m s1) (m s2).

(** Two result records that differ at most by warnings that the second one
    has and the first one has not. *)
Definition same_verdict (r1 r2 : Result.t) : Prop :=
  Result.file r1 = Result.file r2 /\
  Result.valid r1 = Result.valid r2 /\
  Result.errors r1 = Result.errors r2 /\
  Result.metadata r1 = Result.metadata r2 /\
  subseq (Result.warnings r1) (Result.warnings r2).

Definition same_report (o1 o2 : outcome (Result.t * validator)) : Prop :=
  match o1, o2 with
  | Ok (r1, _), Ok (r2, _) => same_verdict r1 r2
  | Raise e1, Raise e2 => e1 = e2
  | _, _ => False
  end.

(** A document with a section that its type does not know. *)
Definition glossary_adr : string :=
  join_lines
    ["---"; "type: ADR"; "title: Use a queue"; "status: Accepted";
     "date: 2025-01-15"; "decision_owner: Ann"; "---";
     "## Status"; "Accepted";
     "## Glossary"; "Queue: a buffer.";
     "## Context"; "Load is bursty.";
     "## Decision"; "Put a queue in front.";
     "## Consequences"; "One more service to run."].

(** A result whose summary line the text report can format: the summary is
    wanted only for a valid result with a non-empty frontmatter, which then
    has to be a mapping. *)
Definition renderable (r : Result.t) : bool :=
  match Result.metadata r with
  | Some m =>
      negb (Result.valid r && truthy (frontmatter m))
      || isinstance_dict (frontmatter m)
  | None => true
  end.

(** The file at [p] can be read and its content is well-formed. *)
Definition well_formed_file {U : Unicode}
    (safe_load : string -> yaml_result)
    (fromisoformat : string -> bool) (str_other : pyval -> string)
    (read_file : string -> read_result) (p : string) : Prop :=
  exists content d body config,
    read_file p = FileContent content /\
    well_formed safe_load fromisoformat str_other content d body config.

(** The last component of a path written with [/]. *)
Fixpoint base_name_from (acc s : string) : string :=
  match s with
  | EmptyString => acc
  | String "/" r => base_name_from r r
  | String _ r => base_name_from acc r
  end.

Definition base_name (p : string) : string := base_name_from p p.

(** The examples ask for the text report only. *)
Definition json_unused (results : list Result.t) : outcome string :=
  Raise LibraryError.

Definition docs_is_file (p : string) : bool :=
  match docs_fs p with FileContent _ => true | _ => false end.

Definition docs_exists (p : string) : bool := docs_dir p || docs_is_file p.

(** A result that no run of the validator gives: valid, with a text where
    the frontmatter should be. *)
Definition odd_result : Result.t :=
  Result.mk "doc.md" true [] [] (Some (mkMetadata (VStr "ADR") 0 [] false)).

(** Every exception that the computation raises is one of [P]. *)
Definition raises_in (P : exn -> Prop) {A} (m : M A) : Prop :=
  forall s e, m s = Raise e -> P e.





(** The values on which the membership test [k in v] raises [TypeError]:
    the ones that are neither a text nor a container. *)
Definition not_iterable (v : pyval) : bool :=
  match v with
  | VNone | VBool _ | VInt _ | VFloat _ | VDate _ => true
  | _ => false
  end.

(** A header that decodes to a number. *)
Definition number_header_doc : string :=
  join_lines ["---"; "42"; "---"; "## Context"; "Load is bursty."].

(** A header that is a sentence. *)
Definition sentence_header_doc : string :=
  join_lines ["---"; "to be written"; "---"; "## Context"; "Load is bursty."].
(** * Properties *)

(** ** Strings *)

Lemma string_eqb_refl (s : string) : String.eqb s s = true.
Proof.
  induction s as [|a s IH]; simpl; [reflexivity|].
  now rewrite N.eqb_refl, IH.
Qed.

Lemma string_eqb_eq (s t : string) : String.eqb s t = true <-> s = t.
Proof.
  split; [|intros ->; apply string_eqb_refl].
  revert t. induction s as [|a s IH]; intros [|b t]; simpl;
    try discriminate; [reflexivity|].
  intros H. apply andb_prop in H. destruct H as [Hab Hst].
  apply N.eqb_eq in Hab. subst b. now rewrite (IH t Hst).
Qed.

Lemma string_eqb_sym (s t : string) : String.eqb s t = String.eqb t s.
Proof.
  revert t. induction s as [|a s IH]; intros [|b t]; simpl; try reflexivity.
  now rewrite N.eqb_sym, IH.
Qed.

Lemma len_is_0_nil {A} (xs : list A) : len_is_0 xs = true <-> xs = [].
Proof. destruct xs; simpl; split; congruence. Qed.

Lemma is_empty_true (s : string) : is_empty s = true <-> s = EmptyString.
Proof. destruct s; simpl; split; congruence. Qed.

Lemma append_inj_l (p s t : string) : p ++ s = p ++ t -> s = t.
Proof.
  induction p as [|a p IH]; simpl; intros H; [assumption|].
  injection H as H. auto.
Qed.

(** On ASCII text the classes and the case mappings are the same in every
    Unicode database. *)
Lemma is_digit_ascii (U1 U2 : Unicode) c :
  is_ascii c = true -> @is_digit U1 c = @is_digit U2 c.
Proof. intros H. unfold is_digit. now rewrite H. Qed.

Lemma is_word_ascii (U1 U2 : Unicode) c :
  is_ascii c = true -> @is_word U1 c = @is_word U2 c.
Proof. intros H. unfold is_word, is_digit. now rewrite H. Qed.

Lemma upper_ascii (U1 U2 : Unicode) s :
  all_str is_ascii s = true -> @upper U1 s = @upper U2 s.
Proof. intros H. unfold upper. now rewrite H. Qed.

Lemma lower_ascii (U1 U2 : Unicode) s :
  all_str is_ascii s = true -> @lower U1 s = @lower U2 s.
Proof. intros H. unfold lower. now rewrite H. Qed.

(** ** The monad *)

Lemma bind_ok {A B} (m : M A) (f : A -> M B) self x :
  bind m f self = Ok x ->
  exists a self', m self = Ok (a, self') /\ f a self' = Ok x.
Proof.
  unfold bind. destruct (m self) as [[a self']|e]; [|discriminate].
  intros H. exists a, self'. auto.
Qed.

Ltac bind_inv H :=
  let a := fresh "a" in
  let s := fresh "self" in
  let Hm := fresh "Hm" in
  apply bind_ok in H; destruct H as (a & s & Hm & H); cbv beta in H.

Lemma appends_ret self : appends (ret tt) self [] [].
Proof. unfold appends, ret. rewrite !app_nil_r. destruct self; reflexivity. Qed.

Lemma appends_error msg self : appends (append_error msg) self [msg] [].
Proof. unfold appends, append_error. rewrite app_nil_r. reflexivity. Qed.

Lemma appends_warning msg self : appends (append_warning msg) self [] [msg].
Proof. unfold appends, append_warning. rewrite app_nil_r. reflexivity. Qed.

Lemma appends_bind (m : M unit) (k : M unit) self es1 ws1 es2 ws2 :
  appends m self es1 ws1 ->
  appends k (mkValidator (strict_mode self) (errors self ++ es1)
               (warnings self ++ ws1)) es2 ws2 ->
  appends (m ;;; k) self (es1 ++ es2) (ws1 ++ ws2).
Proof.
  unfold appends, bind. intros -> H. rewrite H. simpl.
  rewrite !app_assoc. reflexivity.
Qed.

(** A loop whose body appends [fe x] and [fw x] appends their concatenation. *)
Lemma appends_for_each {A} (xs : list A) (body : A -> M unit)
    (fe fw : A -> list string) :
  (forall x self, In x xs -> appends (body x) self (fe x) (fw x)) ->
  forall self, appends (for_each xs body) self (flat_map fe xs) (flat_map fw xs).
Proof.
  induction xs as [|x xs IH]; intros Hb self; simpl.
  - apply appends_ret.
  - apply appends_bind.
    + apply Hb. now left.
    + apply IH. intros y s Hy. apply Hb. now right.
Qed.

Lemma warns_only_ret : warns_only (ret tt).
Proof. intros self. exists []. apply appends_ret. Qed.

Lemma warns_only_warning msg : warns_only (append_warning msg).
Proof. intros self. exists [msg]. apply appends_warning. Qed.

Lemma warns_only_bind (m k : M unit) :
  warns_only m -> warns_only k -> warns_only (m ;;; k).
Proof.
  intros Hm Hk self. destruct (Hm self) as (ws1 & H1).
  destruct (Hk (mkValidator (strict_mode self) (errors self ++ [])
                  (warnings self ++ ws1))) as (ws2 & H2).
  exists (ws1 ++ ws2)%list. apply (appends_bind m k self [] ws1 [] ws2 H1 H2).
Qed.

Lemma warns_only_when b m : warns_only m -> warns_only (when b m).
Proof. destruct b; simpl; [auto|intros _; apply warns_only_ret]. Qed.

Lemma warns_only_for_each {A} (xs : list A) (body : A -> M unit) :
  (forall x, warns_only (body x)) -> warns_only (for_each xs body).
Proof.
  intros Hb. induction xs as [|x xs IH]; simpl.
  - apply warns_only_ret.
  - apply warns_only_bind; auto.
Qed.

Lemma flat_map_constant_length_nil {A B} (xs : list A) :
  flat_map (fun _ : A => @nil B) xs = [].
Proof. induction xs; simpl; auto. Qed.

(** ** Results of [validate_file] and [validate_directory] *)

Section Properties.

Context {U : Unicode} {L : Paths}.

Variable safe_load : string -> yaml_result.
Variable fromisoformat : string -> bool.
Variable str_other : pyval -> string.
Variable read_file : string -> read_result.
Variable is_dir : string -> bool.
Variable glob_md : string -> list string.
Variable path_name : string -> string.
Variable json_dumps : list Result.t -> outcome string.
Variable path_exists : string -> bool.
Variable is_file : string -> bool.

Local Abbreviation validate_file' :=
  (validate_file safe_load fromisoformat str_other read_file).
Local Abbreviation validate_directory' :=
  (validate_directory safe_load fromisoformat str_other read_file is_dir glob_md).
Local Abbreviation produced' :=
  (produced safe_load fromisoformat str_other read_file is_dir glob_md).
Local Abbreviation format_results' :=
  (format_results str_other path_name json_dumps).
Local Abbreviation well_formed_file' :=
  (well_formed_file safe_load fromisoformat str_other read_file).
Local Abbreviation main' :=
  (main safe_load fromisoformat str_other read_file is_dir glob_md path_name
     json_dumps path_exists is_file).

Lemma create_error_result_flag msg : flag_agrees (_create_error_result msg).
Proof. unfold flag_agrees; simpl; split; discriminate. Qed.

Lemma create_result_flag path fm sections self r self' :
  _create_result path fm sections self = Ok (r, self') -> flag_agrees r.
Proof.
  unfold _create_result. intros H. bind_inv H.
  injection H as <- _. unfold flag_agrees; simpl. apply len_is_0_nil.
Qed.

Lemma validate_file_flag path self r self' :
  validate_file' path self = Ok (r, self') -> flag_agrees r.
Proof.
  unfold validate_file. intros H. bind_inv H.
  destruct (read_file path) as [content| | |e].
  - bind_inv H. destruct a0 as [fm md].
    destruct (negb (truthy fm)).
    + bind_inv H. eapply create_result_flag; eauto.
    + do 5 bind_inv H. eapply create_result_flag; eauto.
  - injection H as <- _. apply create_error_result_flag.
  - injection H as <- _. apply create_error_result_flag.
  - discriminate.
Qed.

Lemma map_m_validate_file_flag paths : forall self rs self',
  map_m validate_file' paths self = Ok (rs, self') -> Forall flag_agrees rs.
Proof.
  induction paths as [|p paths IH]; simpl; intros self rs self' H.
  - injection H as <- _. constructor.
  - bind_inv H. bind_inv H. injection H as <- _. constructor.
    + eapply validate_file_flag; eauto.
    + eapply IH; eauto.
Qed.

(** C2. In every result record that [validate_file] or [validate_directory]
    returns, the error results of missing files and directories included,
    the [valid] flag is true exactly when the list of errors is empty. *)
Theorem valid_iff_no_errors (r : Result.t) :
  produced' r -> (Result.valid r = true <-> Result.errors r = []).
Proof.
  intros [path self self' r' H | dir self self' rs r' H Hin].
  - exact (validate_file_flag _ _ _ _ H).
  - unfold validate_directory in H.
    destruct (negb (is_dir dir)).
    + injection H as <- _. destruct Hin as [<-|[]].
      apply create_error_result_flag.
    + destruct (len_is_0 (glob_md dir)).
      * injection H as <- _. destruct Hin as [<-|[]].
        apply create_error_result_flag.
      * apply map_m_validate_file_flag in H.
        rewrite Forall_forall in H. exact (H _ Hin).
Qed.

Lemma validate_file_header_missing path content self :
  read_file path = FileContent content ->
  header_missing content ->
  validate_file' path self =
    Ok (Result.mk (path_str path) false [MISSING_HEADER] []
          (Some (mkMetadata VNone 0 [] false)),
        mkValidator (strict_mode self) [MISSING_HEADER] []).
Proof.
  intros Hread Hmiss. unfold validate_file, bind at 1. simpl.
  rewrite Hread. unfold bind, _parse_frontmatter.
  destruct Hmiss as [H|H].
  - rewrite H. reflexivity.
  - destruct (negb (startswith FM_OPEN content)); [reflexivity|].
    rewrite H. reflexivity.
Qed.

(** C3. When the content has no delimited header (it does not start with the
    three-dash line, or no closing three-dash line follows), [validate_file]
    returns the result with the single error of the missing header and no
    warning, whose metadata has the absent frontmatter and no section; this
    holds whatever the decoder and the checks would do, so none of them
    contributes. *)
Theorem missing_header_single_error (path content : string) (self : validator) :
  read_file path = FileContent content ->
  header_missing content ->
  exists r self',
    validate_file' path self = Ok (r, self') /\
    Result.errors r = [MISSING_HEADER] /\
    Result.warnings r = [] /\
    Result.valid r = false /\
    Result.metadata r = Some (mkMetadata VNone 0 [] false) /\
    errors self' = [MISSING_HEADER] /\ warnings self' = [].
Proof.
  intros Hread Hmiss. eexists _, _. split.
  - exact (validate_file_header_missing _ _ _ Hread Hmiss).
  - repeat split.
Qed.

(** C4, as the code has it.  Each file-level fault gives a returned, invalid
    result and no exception.  The result holds one error for a file not
    found, an invalid encoding or a missing header, and two errors for a
    header that fails to decode: the decoder's message after "Invalid YAML
    frontmatter: ", then the missing-header message. *)
Theorem file_fault_isolated (path : string) (f : file_fault) (self : validator) :
  has_fault safe_load read_file path f ->
  exists r self',
    validate_file' path self = Ok (r, self') /\
    Result.valid r = false /\
    Result.errors r = fault_messages path f /\
    List.length (Result.errors r) = fault_errors f.
Proof.
  destruct f as [ | | |msg]; simpl.
  - intros H. unfold validate_file, bind. simpl. rewrite H.
    eexists _, _. split; [reflexivity|]. repeat split; reflexivity.
  - intros H. unfold validate_file, bind. simpl. rewrite H.
    eexists _, _. split; [reflexivity|]. repeat split; reflexivity.
  - intros (content & Hread & Hmiss).
    eexists _, _. split.
    + apply (validate_file_header_missing _ _ _ Hread Hmiss).
    + repeat split; reflexivity.
  - intros (content & e & Hread & Hs & Hf & Hy).
    unfold validate_file, bind. simpl. rewrite Hread.
    unfold _parse_frontmatter, bind. rewrite Hs, Hf, Hy. simpl.
    eexists _, _. split; [reflexivity|]. repeat split; reflexivity.
Qed.

Lemma required_loop_appends (d : list (pyval * pyval)) self :
  exists es,
    appends (for_each required_fields (fun field =>
               b <- lift (contains field (VDict d)) ;;
               when (negb b)
                 (append_error ("Missing required frontmatter field: " ++ field))))
      self es [].
Proof.
  eexists.
  pose proof (appends_for_each required_fields
    (fun field =>
       b <- lift (contains field (VDict d)) ;;
       when (negb b)
         (append_error ("Missing required frontmatter field: " ++ field)))
    (fun field => if is_some (dict_get field d) then []
                  else ["Missing required frontmatter field: " ++ field])
    (fun _ => [])) as H.
  rewrite (flat_map_constant_length_nil required_fields) in H.
  apply H. intros field s _. unfold bind, lift, contains.
  destruct (is_some (dict_get field d)); simpl.
  - apply appends_ret.
  - apply appends_error.
Qed.

(** ** Field validator *)

(** C5 fails on the code: a [type] that is not a string has no [upper]
    method, and the call raises.  For every mapping whose [type] entry is
    not a string, the field validator raises [AttributeError]. *)
Theorem field_validator_raises_on_non_string_type
    (d : list (pyval * pyval)) (v : pyval) (self : validator) :
  dict_get "type" d = Some v ->
  isinstance_str v = false ->
  _validate_frontmatter fromisoformat str_other (VDict d) self
    = Raise AttributeError.
Proof.
  intros Hget Hstr. unfold _validate_frontmatter.
  destruct (required_loop_appends d self) as (es & Hloop).
  unfold bind at 1. unfold appends in Hloop. rewrite Hloop.
  unfold bind at 1. unfold if_present, bind at 1. unfold lift at 1.
  unfold contains, bind, lift, getitem. rewrite Hget. simpl.
  destruct v; simpl in *; try reflexivity. discriminate.
Qed.

(** ** AI-context validator *)

Lemma ai_context_mapping_warns (c : list (pyval * pyval)) :
  warns_only
    (match dict_get "summary" c with
     | Some (VStr s) =>
         when (length s <? 20)
           (append_warning "AI context summary should be a descriptive string (20+ chars)")
     | Some _ =>
         append_warning "AI context summary should be a descriptive string (20+ chars)"
     | None => ret tt
     end ;;;
     match dict_get "keywords" c with
     | Some v =>
         when (negb (isinstance_list v))
           (append_warning "AI context keywords should be a list")
     | None => ret tt
     end ;;;
     match dict_get "complexity-level" c with
     | Some v =>
         when (negb (existsb (fun l => eq_str l v) valid_levels))
           (append_warning ("AI context complexity-level should be one of: " ++
                            valid_levels_repr))
     | None => ret tt
     end).
Proof.
  repeat apply warns_only_bind.
  - destruct (dict_get "summary" c) as [[]|];
      try apply warns_only_when; try apply warns_only_warning;
      apply warns_only_ret.
  - destruct (dict_get "keywords" c);
      [apply warns_only_when, warns_only_warning | apply warns_only_ret].
  - destruct (dict_get "complexity-level" c);
      [apply warns_only_when, warns_only_warning | apply warns_only_ret].
Qed.

(** C9, as the code has it.  For a mapping with an [ai-context] entry, the
    AI-context validator returns; when the entry is itself a mapping it
    appends warnings only, and when it is not it appends the one error
    "ai-context must be a dictionary" and no warning. *)
Theorem ai_context_diagnostics
    (d : list (pyval * pyval)) (v : pyval) (self : validator) :
  dict_get "ai-context" d = Some v ->
  exists es ws,
    appends (_validate_ai_context (VDict d)) self es ws /\
    (if isinstance_dict v then es = []
     else es = ["ai-context must be a dictionary"] /\ ws = []).
Proof.
  intros Hget. unfold _validate_ai_context, if_present.
  unfold appends, bind at 1. unfold lift at 1, contains. rewrite Hget. simpl.
  unfold bind at 1. unfold lift at 1, getitem. rewrite Hget.
  destruct v;
    try (exists ["ai-context must be a dictionary"], []; split;
         [apply appends_error | simpl; auto]).
  destruct (ai_context_mapping_warns d0 self) as (ws & H).
  exists [], ws. split; [exact H | reflexivity].
Qed.

(** ** Frontmatter extractor *)

Lemma startswith_cons a p b s :
  startswith (String a p) (String b s) = N.eqb a b && startswith p s.
Proof. reflexivity. Qed.

Lemma find_nil sub n :
  find sub n EmptyString =
    match n with O => if is_empty sub then Some 0 else None | S _ => None end.
Proof. reflexivity. Qed.

Lemma find_cons_0 sub b r :
  find sub 0 (String b r) =
    if startswith sub (String b r) then Some 0 else option_map S (find sub 0 r).
Proof. reflexivity. Qed.

Lemma find_cons_S sub n b r :
  find sub (S n) (String b r) = option_map S (find sub n r).
Proof. reflexivity. Qed.

(** What [find] returns is an index from [start] on at which [sub] begins. *)
Lemma find_sound sub s : forall n m,
  find sub n s = Some m -> n <= m /\ startswith sub (drop m s) = true.
Proof.
  induction s as [|b r IH]; intros n m.
  - rewrite find_nil. destruct n; [|discriminate].
    destruct sub; simpl; [|discriminate].
    intros H. injection H as <-. auto.
  - destruct n.
    + rewrite find_cons_0. destruct (startswith sub (String b r)) eqn:E.
      * intros H. injection H as <-. auto.
      * destruct (find sub 0 r) as [k|] eqn:F; [|discriminate].
        simpl. intros H. injection H as <-.
        destruct (IH _ _ F) as [_ H]. split; [lia|exact H].
    + rewrite find_cons_S.
      destruct (find sub n r) as [k|] eqn:F; [|discriminate].
      simpl. intros H. injection H as <-.
      destruct (IH _ _ F) as [Hle H]. split; [lia|exact H].
Qed.

Lemma find_none sub s : forall n,
  (forall j, startswith sub (drop j s) = false) -> find sub n s = None.
Proof.
  induction s as [|b r IH]; intros n H.
  - rewrite find_nil. destruct n; [|reflexivity].
    specialize (H 0). destruct sub; [discriminate H|reflexivity].
  - destruct n.
    + rewrite find_cons_0. rewrite (H 0 : startswith sub (String b r) = false).
      rewrite (IH 0 (fun j => H (S j))). reflexivity.
    + rewrite find_cons_S. rewrite (IH n (fun j => H (S j))). reflexivity.
Qed.

Lemma split_lines_cons a r :
  split_lines (String a r) =
    if N.eqb a NL then EmptyString :: split_lines r
    else String a (hd EmptyString (split_lines r)) :: tl (split_lines r).
Proof. simpl. destruct (N.eqb a NL), (split_lines r); reflexivity. Qed.

(** A text that begins with the delimiter and a line feed, once the closing
    delimiter is appended, has the delimiter as its first line. *)
Lemma dashes_at_head r :
  startswith ("---" ++ nl) (r ++ nl ++ "---") = true ->
  hd EmptyString (split_lines r) = "---".
Proof.
  destruct r as [|a [|b [|c [|d r]]]]; simpl; rewrite ?startswith_cons;
    intros H; repeat (apply andb_prop in H; destruct H as [? H]);
    repeat match goal with
           | E : N.eqb _ _ = true |- _ => apply N.eqb_eq in E
           end; subst; try discriminate; reflexivity.
Qed.

Lemma close_absent y :
  forallb not_delimiter (tl (split_lines y)) = true ->
  forall j, startswith FM_CLOSE (drop j (y ++ nl ++ "---")) = false.
Proof.
  induction y as [|a r IH]; intros Hl j.
  - do 5 (destruct j as [|j]; [reflexivity|]). reflexivity.
  - rewrite split_lines_cons in Hl. destruct j as [|j].
    + simpl drop. change (String a r ++ nl ++ "---")
        with (String a (r ++ nl ++ "---")).
      change FM_CLOSE with (String NL ("---" ++ nl)).
      rewrite startswith_cons.
      destruct (N.eqb NL a) eqn:E; [|reflexivity].
      apply N.eqb_eq in E. subst a. simpl in Hl.
      rewrite andb_true_l.
      match goal with
      | |- ?t = false => destruct t eqn:F; [|reflexivity]
      end.
      apply dashes_at_head in F.
      destruct (split_lines r) as [|l ls]; [discriminate F|].
      simpl in F. subst l. discriminate Hl.
    + simpl drop. apply IH.
      destruct (N.eqb a NL); simpl in Hl.
      * destruct (split_lines r); [reflexivity|].
        simpl in Hl. apply andb_prop in Hl. apply Hl.
      * exact Hl.
Qed.

Lemma find_close_truncated y :
  forallb not_delimiter (tl (split_lines y)) = true ->
  find FM_CLOSE 4 (truncated_header y) = None.
Proof.
  intros H. unfold truncated_header.
  change (FM_OPEN ++ y ++ nl ++ "---")
    with (String "-" (String "-" (String "-" (String NL (y ++ nl ++ "---"))))).
  rewrite !find_cons_S. rewrite (find_none _ _ 0 (close_absent y H)).
  reflexivity.
Qed.

(** C10. The extractor returns a frontmatter only for a content that starts
    with the three dashes and a line feed and in which, from index 4 on, a
    line feed, three dashes and a line feed occur; and for a header cut
    short, whose closing three dashes end the file with no line feed, it
    returns the absent frontmatter and the content unchanged, adding no
    diagnostic. *)
Theorem frontmatter_needs_both_delimiters :
  (forall content self fm body self',
     _parse_frontmatter safe_load content self = Ok ((fm, body), self') ->
     fm <> VNone ->
     startswith FM_OPEN content = true /\
     exists e, 4 <= e /\ startswith FM_CLOSE (drop e content) = true) /\
  (forall y self,
     forallb not_delimiter (split_lines y) = true ->
     _parse_frontmatter safe_load (truncated_header y) self
       = Ok ((VNone, truncated_header y), self)).
Proof.
  split.
  - intros content self fm body self'. unfold _parse_frontmatter.
    destruct (startswith FM_OPEN content) eqn:Hs; simpl.
    + destruct (find FM_CLOSE 4 content) as [e|] eqn:Hf.
      * intros _ _. split; [reflexivity|]. exists e.
        exact (find_sound _ _ _ _ Hf).
      * unfold ret. intros H Hfm. injection H as <- _ _. now elim Hfm.
    + unfold ret. intros H Hfm. injection H as <- _ _. now elim Hfm.
  - intros y self Hl. unfold _parse_frontmatter.
    replace (startswith FM_OPEN (truncated_header y)) with true
      by (unfold truncated_header; destruct y; reflexivity).
    simpl negb. cbv iota.
    rewrite find_close_truncated; [reflexivity|].
    destruct (split_lines y) as [|l ls]; [reflexivity|].
    simpl in Hl. apply andb_prop in Hl. apply Hl.
Qed.

(** ** Section validator *)

Lemma check_required_appends sections name self :
  appends (check_required sections name) self (required_diag sections name) [].
Proof.
  unfold check_required, required_diag.
  destruct (assoc name sections) as [c|].
  - destruct (is_empty (strip c)); simpl.
    + apply appends_error.
    + apply appends_ret.
  - apply appends_error.
Qed.

Lemma strict_check_warns (tdr_type : string) (config : tdr_config)
    (sections : section_map) :
  warns_only
    (strict <- get_strict_mode ;;
     when strict
       (let known_sections :=
          (required_sections config ++ optional_sections config)%list in
        for_each (map fst sections) (fun section_name =>
          when (negb (mem section_name known_sections))
            (append_warning ("Unknown section for " ++ tdr_type ++ ": " ++
                             section_name))))).
Proof.
  intros self. unfold appends, bind, get_strict_mode.
  match goal with
  | |- context [when _ ?X] =>
      assert (HX : warns_only X)
        by (apply warns_only_for_each; intros x;
            apply warns_only_when, warns_only_warning);
      exact (warns_only_when (strict_mode self) X HX self)
  end.
Qed.

Lemma validate_sections_appends (t : string) (config : tdr_config)
    (sections : section_map) (self : validator) :
  assoc (upper t) TDR_TYPES = Some config ->
  exists ws,
    appends (_validate_sections (VStr t) sections) self
      (flat_map (required_diag sections) (required_sections config)) ws.
Proof.
  intros Hcfg. unfold _validate_sections.
  pose proof (appends_for_each (required_sections config)
              (check_required sections) (required_diag sections)
              (fun _ => []) (fun x s _ => check_required_appends sections x s)
              self) as Hloop.
  rewrite flat_map_constant_length_nil in Hloop.
  destruct (strict_check_warns (upper t) config sections
              (mkValidator (strict_mode self)
                 (errors self ++ flat_map (required_diag sections)
                                  (required_sections config))
                 (warnings self ++ []))) as (ws & Hstrict).
  exists ws. unfold appends, bind at 1. unfold lift, call_upper.
  rewrite Hcfg.
  pose proof (appends_bind _ _ self _ _ _ _ Hloop Hstrict) as H.
  rewrite app_nil_r in H. exact H.
Qed.

(** A text is empty once trimmed exactly when it holds blanks only. *)
Lemma rstrip_blank s : all_str isspace s = true -> rstrip s = EmptyString.
Proof.
  induction s as [|a r IH]; simpl; [reflexivity|]. intros H.
  apply andb_prop in H. destruct H as [Ha Hr].
  now rewrite Ha, (IH Hr).
Qed.

Lemma rstrip_empty s : rstrip s = EmptyString -> all_str isspace s = true.
Proof.
  induction s as [|a r IH]; simpl; [reflexivity|].
  destruct (isspace a); simpl; [|discriminate].
  destruct (rstrip r); simpl; [|discriminate]. intros _. now apply IH.
Qed.

Lemma lstrip_blank s : all_str isspace s = true -> lstrip s = EmptyString.
Proof.
  induction s as [|a r IH]; simpl; [reflexivity|]. intros H.
  apply andb_prop in H. destruct H as [Ha Hr]. rewrite Ha. exact (IH Hr).
Qed.

Lemma all_str_lstrip s :
  all_str isspace (lstrip s) = true -> all_str isspace s = true.
Proof.
  induction s as [|a r IH]; simpl; [reflexivity|].
  destruct (isspace a) eqn:E; simpl; [exact IH|].
  rewrite E. discriminate.
Qed.

Lemma strip_blank s : strip s = EmptyString <-> all_str isspace s = true.
Proof.
  unfold strip. split.
  - intros H. apply all_str_lstrip, rstrip_empty, H.
  - intros H. rewrite (lstrip_blank s H). reflexivity.
Qed.

(** C7. For a declared type that is one of the five codes, the section
    validator returns, and for every name of the required list of that type:
    when the name is absent from the SectionMap, the errors it appends hold
    "Missing required section: name"; when the name is present with a
    content made of blanks only (or of nothing), they hold "Required section
    is empty: name" and do not hold "Missing required section: name"; when
    it is present with a content that holds something else than blanks,
    they hold neither. *)
Theorem required_section_errors (t : string) (config : tdr_config)
    (sections : section_map) (self : validator) :
  assoc (upper t) TDR_TYPES = Some config ->
  exists es ws,
    appends (_validate_sections (VStr t) sections) self es ws /\
    forall name, In name (required_sections config) ->
      (assoc name sections = None ->
       In ("Missing required section: " ++ name) es) /\
      (forall c, assoc name sections = Some c -> all_str isspace c = true ->
       In ("Required section is empty: " ++ name) es /\
       ~ In ("Missing required section: " ++ name) es) /\
      (forall c, assoc name sections = Some c -> all_str isspace c = false ->
       ~ In ("Required section is empty: " ++ name) es /\
       ~ In ("Missing required section: " ++ name) es).
Proof.
  intros Hcfg.
  destruct (validate_sections_appends t config sections self Hcfg) as (ws & H).
  exists (flat_map (required_diag sections) (required_sections config)), ws.
  split; [exact H|]. intros name Hin.
  assert (Hmiss : forall c, assoc name sections = Some c ->
            ~ In ("Missing required section: " ++ name)
                (flat_map (required_diag sections) (required_sections config))).
  { intros c Hsome Habs. apply in_flat_map in Habs.
    destruct Habs as (x & _ & Hx).
    unfold required_diag in Hx. destruct (assoc x sections) as [c'|] eqn:Ex.
    - destruct (is_empty (strip c')); [|contradiction].
      destruct Hx as [Hx|[]]. discriminate Hx.
    - destruct Hx as [Hx|[]]. apply append_inj_l in Hx. subst x.
      congruence. }
  split; [|split].
  - intros Hnone. apply in_flat_map. exists name. split; [exact Hin|].
    unfold required_diag. rewrite Hnone. now left.
  - intros c Hsome Hblank. split; [|exact (Hmiss c Hsome)].
    apply in_flat_map. exists name. split; [exact Hin|].
    unfold required_diag. rewrite Hsome.
    apply strip_blank in Hblank. rewrite Hblank. now left.
  - intros c Hsome Hfull. split; [|exact (Hmiss c Hsome)].
    intros Habs. apply in_flat_map in Habs. destruct Habs as (x & _ & Hx).
    unfold required_diag in Hx. destruct (assoc x sections) as [c'|] eqn:Ex.
    + destruct (is_empty (strip c')) eqn:Ec; [|contradiction].
      destruct Hx as [Hx|[]]. apply append_inj_l in Hx. subst x.
      rewrite Hsome in Ex. injection Ex as <-.
      apply is_empty_true, strip_blank in Ec. congruence.
    + destruct Hx as [Hx|[]]. discriminate Hx.
Qed.

(** ** Cross-reference scanner *)

Lemma is_upper_ascii x : is_upper x = true -> is_ascii x = true.
Proof.
  unfold is_upper, is_ascii. intros H. apply andb_prop in H.
  destruct H as [_ H]. apply N.leb_le in H. apply N.ltb_lt. lia.
Qed.

Lemma nonword_classes x :
  is_word x = false -> is_upper x = false /\ is_digit x = false.
Proof.
  unfold is_word. intros H.
  apply orb_false_elim in H. destruct H as [Hd H]. split; [|exact Hd].
  destruct (is_upper x) eqn:Hu; [|reflexivity].
  rewrite (is_upper_ascii x Hu) in H. discriminate H.
Qed.

Lemma upper_not_digit a : is_upper a = true -> is_digit a = false.
Proof.
  intros H. unfold is_digit. rewrite (is_upper_ascii a H).
  unfold is_upper in H. apply andb_prop in H. destruct H as [H1 _].
  apply N.leb_le in H1. apply andb_false_iff. right.
  apply N.leb_gt. lia.
Qed.

Lemma string_app_assoc (s t u : string) : (s ++ t) ++ u = s ++ t ++ u.
Proof. induction s as [|a s IH]; simpl; [reflexivity|now rewrite IH]. Qed.

Lemma span_digits_cons a r :
  span_digits (String a r) =
    if is_digit a
    then (String a (fst (span_digits r)), snd (span_digits r))
    else (EmptyString, String a r).
Proof. simpl. destruct (is_digit a), (span_digits r); reflexivity. Qed.

(** A run of digits followed by something that is not a digit is taken
    whole. *)
Lemma span_digits_app d rest :
  all_str is_digit d = true ->
  match head_char rest with Some c => is_digit c = false | None => True end ->
  span_digits (d ++ rest) = (d, rest).
Proof.
  intros Hd Hr. induction d as [|a d IH].
  - destruct rest as [|c rest]; [reflexivity|].
    simpl in Hr. change (EmptyString ++ String c rest) with (String c rest).
    rewrite span_digits_cons, Hr. reflexivity.
  - simpl in Hd. apply andb_prop in Hd. destruct Hd as [Ha Hd].
    change (String a d ++ rest) with (String a (d ++ rest)).
    rewrite span_digits_cons, Ha, (IH Hd). reflexivity.
Qed.

(** What follows a character that is not a digit does not change the run of
    digits before it, nor the character after the run. *)
Lemma span_digits_ext q x rest :
  is_digit x = false ->
  fst (span_digits (q ++ String x rest))
    = fst (span_digits (q ++ String x EmptyString)) /\
  head_char (snd (span_digits (q ++ String x rest)))
    = head_char (snd (span_digits (q ++ String x EmptyString))).
Proof.
  intros Hx. induction q as [|a q [IH1 IH2]].
  - change (EmptyString ++ String x rest) with (String x rest).
    change (EmptyString ++ String x EmptyString) with (String x EmptyString).
    rewrite !span_digits_cons, Hx. split; reflexivity.
  - change (String a q ++ String x rest) with (String a (q ++ String x rest)).
    change (String a q ++ String x EmptyString)
      with (String a (q ++ String x EmptyString)).
    rewrite !span_digits_cons. destruct (is_digit a); simpl.
    + rewrite IH1, IH2. split; reflexivity.
    + split; reflexivity.
Qed.

Lemma span_digits_bound q x :
  is_digit x = false ->
  length (fst (span_digits (q ++ String x EmptyString))) <= length q.
Proof.
  intros Hx. induction q as [|a q IH].
  - change (EmptyString ++ String x EmptyString) with (String x EmptyString).
    rewrite span_digits_cons, Hx. simpl. lia.
  - change (String a q ++ String x EmptyString)
      with (String a (q ++ String x EmptyString)).
    rewrite span_digits_cons. destruct (is_digit a); simpl; lia.
Qed.

Lemma match_ref_4 prev a b c h r :
  match_ref prev (String a (String b (String c (String h r)))) =
    if boundary prev && is_upper a && is_upper b && is_upper c
       && N.eqb h "-"%cp
    then
      if negb (is_empty (fst (span_digits r)))
         && boundary (head_char (snd (span_digits r)))
      then Some (String a (String b (String c EmptyString)), fst (span_digits r))
      else None
    else None.
Proof. reflexivity. Qed.

(** The pattern does not match where the text begins with a character that
    is not an uppercase letter. *)
Lemma match_ref_not_upper prev y s :
  is_upper y = false -> match_ref prev (String y s) = None.
Proof.
  intros Hy. destruct s as [|b [|c [|h r]]]; try reflexivity.
  rewrite match_ref_4, Hy, andb_false_r. reflexivity.
Qed.

Lemma span_digits_no_digit rest :
  match head_char rest with Some c => is_digit c = false | None => True end ->
  fst (span_digits rest) = EmptyString.
Proof.
  destruct rest as [|c rest]; [reflexivity|].
  simpl head_char. intros H. rewrite span_digits_cons, H. reflexivity.
Qed.

(** A match is decided by the text up to the first character after it that
    is not a word character. *)
Lemma match_ref_ext prev q x rest :
  is_word x = false ->
  match head_char rest with Some c => is_digit c = false | None => True end ->
  match_ref prev (q ++ String x rest) = match_ref prev (q ++ String x EmptyString).
Proof.
  intros Hx Hrest. destruct (nonword_classes x Hx) as [Hu Hd].
  destruct q as [|a [|b [|c [|h q]]]]; simpl append.
  - rewrite !match_ref_not_upper by assumption. reflexivity.
  - destruct rest as [|c [|h r]]; try reflexivity.
    rewrite match_ref_4, Hu, andb_false_r. reflexivity.
  - destruct rest as [|h r]; try reflexivity.
    rewrite match_ref_4, Hu, andb_false_r. reflexivity.
  - rewrite !match_ref_4, (span_digits_no_digit rest Hrest).
    destruct (boundary prev && is_upper a && is_upper b && is_upper c
              && N.eqb x "-"%cp); reflexivity.
  - rewrite !match_ref_4.
    destruct (span_digits_ext q x rest Hd) as [-> ->]. reflexivity.
Qed.

Lemma match_ref_bound prev q x t d :
  is_word x = false ->
  match_ref prev (q ++ String x EmptyString) = Some (t, d) ->
  3 + length d <= length q.
Proof.
  intros Hx. destruct (nonword_classes x Hx) as [Hu Hd].
  destruct q as [|a [|b [|c [|h q]]]]; simpl append; try discriminate.
  - rewrite match_ref_4.
    destruct (boundary prev && is_upper a && is_upper b && is_upper c
              && N.eqb x "-"%cp); discriminate.
  - rewrite match_ref_4.
    destruct (boundary prev && is_upper a && is_upper b && is_upper c
              && N.eqb h "-"%cp); [|discriminate].
    destruct (negb (is_empty (fst (span_digits (q ++ String x EmptyString))))
              && boundary (head_char (snd (span_digits (q ++ String x EmptyString)))));
      [|discriminate].
    intros H. injection H as _ <-.
    pose proof (span_digits_bound q x Hd). simpl. lia.
Qed.

Lemma scan_cons_0 prev a r :
  scan 0 prev (String a r) =
    match match_ref prev (String a r) with
    | Some (t, d) => (t, d) :: scan (3 + length d) (Some a) r
    | None => scan 0 (Some a) r
    end.
Proof. reflexivity. Qed.

Lemma scan_cons_S k prev a r :
  scan (S k) prev (String a r) = scan k (Some a) r.
Proof. reflexivity. Qed.

(** The text after a character that is not a word character, when it does
    not begin with a digit, is scanned on its own. *)
Lemma scan_split x rest :
  is_word x = false ->
  match head_char rest with Some c => is_digit c = false | None => True end ->
  forall p k prev,
    k <= S (length p) ->
    scan k prev (p ++ String x rest)
      = (scan k prev (p ++ String x EmptyString) ++ scan 0 (Some x) rest)%list.
Proof.
  intros Hx Hrest. destruct (nonword_classes x Hx) as [Hu Hd].
  induction p as [|a p IH]; intros k prev Hk.
  - simpl append. destruct k as [|[|k]].
    + rewrite !scan_cons_0, !match_ref_not_upper by assumption. reflexivity.
    + reflexivity.
    + simpl in Hk. lia.
  - change (String a p ++ String x rest) with (String a (p ++ String x rest)).
    change (String a p ++ String x EmptyString)
      with (String a (p ++ String x EmptyString)).
    destruct k as [|k].
    + rewrite !scan_cons_0.
      change (String a (p ++ String x rest)) with (String a p ++ String x rest).
      change (String a (p ++ String x EmptyString))
        with (String a p ++ String x EmptyString).
      rewrite (match_ref_ext prev (String a p) x rest Hx Hrest).
      destruct (match_ref prev (String a p ++ String x EmptyString))
        as [[t d]|] eqn:E.
      * apply match_ref_bound in E; [|assumption].
        rewrite IH by (simpl in E; simpl; lia). reflexivity.
      * rewrite IH by lia. reflexivity.
    + rewrite !scan_cons_S. apply IH. simpl in Hk. lia.
Qed.

Lemma scan_skip u : forall prev v,
  exists prev', scan (length u) prev (u ++ v) = scan 0 prev' v.
Proof.
  induction u as [|a u IH]; intros prev v.
  - exists prev. reflexivity.
  - destruct (IH (Some a) v) as (p' & H). exists p'. exact H.
Qed.

(** Before a character that is not a word character, the scan does not
    depend on the character before. *)
Lemma scan_boundary_head post prev prev' :
  boundary (head_char post) = true -> scan 0 prev post = scan 0 prev' post.
Proof.
  destruct post as [|y r]; [reflexivity|].
  cbn [head_char boundary]. intros H. apply negb_true_iff in H.
  destruct (nonword_classes y H) as [Hu _].
  rewrite !scan_cons_0, !match_ref_not_upper by assumption. reflexivity.
Qed.

Lemma boundary_no_digit post :
  boundary (head_char post) = true ->
  match head_char post with Some c => is_digit c = false | None => True end.
Proof.
  destruct post as [|y r]; simpl; [trivial|].
  intros H. apply negb_true_iff in H. apply (nonword_classes y H).
Qed.

(** A delimited reference at the head of the text is the first match. *)
Lemma scan_token prev t d post :
  is_ref_token t d = true ->
  boundary prev = true ->
  boundary (head_char post) = true ->
  scan 0 prev (t ++ "-" ++ d ++ post) = (t, d) :: findall post.
Proof.
  unfold is_ref_token. intros Ht Hp Hpost.
  apply andb_prop in Ht. destruct Ht as [Ht Hne].
  apply andb_prop in Ht. destruct Ht as [Ht Hd].
  destruct t as [|a [|b [|c [|? ?]]]]; try discriminate.
  apply andb_prop in Ht. destruct Ht as [Ht Hc].
  apply andb_prop in Ht. destruct Ht as [Ha Hb].
  change (String a (String b (String c EmptyString)) ++ "-" ++ d ++ post)
    with (String a (String b (String c (String "-" (d ++ post))))).
  rewrite scan_cons_0, match_ref_4, Hp, Ha, Hb, Hc.
  rewrite (span_digits_app d post Hd (boundary_no_digit post Hpost)).
  cbn [fst snd]. rewrite Hne, Hpost, N.eqb_refl. cbn [andb].
  f_equal.
  change (String b (String c (String "-" (d ++ post))))
    with (String b (String c (String "-" d)) ++ post).
  change (3 + length d) with (length (String b (String c (String "-" d)))).
  destruct (scan_skip (String b (String c (String "-" d))) (Some a) post)
    as (p' & ->).
  apply scan_boundary_head. exact Hpost.
Qed.

Lemma last_of_some pre : forall x,
  last_of pre = Some x -> exists p, pre = p ++ String x EmptyString.
Proof.
  induction pre as [|a r IH]; intros x; [discriminate|].
  destruct r as [|b r'].
  - intros H. injection H as <-. exists EmptyString. reflexivity.
  - change (last_of (String a (String b r'))) with (last_of (String b r')).
    intros H. destruct (IH x H) as (p & Hp). exists (String a p).
    simpl. rewrite <- Hp. reflexivity.
Qed.

(** A reference between word boundaries is matched, and the text before it
    and the text after it are scanned as they are on their own. *)
Lemma findall_token pre t d post :
  is_ref_token t d = true ->
  boundary (last_of pre) = true ->
  boundary (head_char post) = true ->
  findall (pre ++ t ++ "-" ++ d ++ post)
    = (findall pre ++ (t, d) :: findall post)%list.
Proof.
  intros Ht Hpre Hpost. unfold findall at 1 2.
  destruct (last_of pre) as [x|] eqn:E.
  - destruct (last_of_some pre x E) as (p & ->).
    simpl in Hpre. apply negb_true_iff in Hpre.
    rewrite string_app_assoc.
    change (String x EmptyString ++ t ++ "-" ++ d ++ post)
      with (String x (t ++ "-" ++ d ++ post)).
    rewrite scan_split; [|assumption| |lia].
    + rewrite (scan_token (Some x) t d post Ht); [reflexivity| |assumption].
      simpl. now rewrite Hpre.
    + unfold is_ref_token in Ht.
      destruct t as [|a t']; [discriminate|]. simpl.
      destruct t' as [|b [|c [|? ?]]]; try discriminate.
      apply andb_prop in Ht. destruct Ht as [Ht _].
      apply andb_prop in Ht. destruct Ht as [Ht _].
      apply andb_prop in Ht. destruct Ht as [Ht _].
      apply andb_prop in Ht. destruct Ht as [Ha _].
      apply upper_not_digit. exact Ha.
  - destruct pre as [|a r].
    + simpl append. simpl scan at 2. 
      apply (scan_token None t d post Ht); [reflexivity|assumption].
    + exfalso. clear -E. revert a E.
      induction r as [|b r IH]; intros a E; [discriminate|].
      apply (IH b). exact E.
Qed.

Lemma xref_body_appends (p : string * string) self :
  appends
    ((fun '(ref_type, ref_id) =>
        when (negb (known_type ref_type))
          (append_warning ("Reference to unknown TDR type: " ++ ref_type ++ "-" ++
                           ref_id))) p)
    self [] (ref_warning p).
Proof.
  destruct p as [t d]. unfold ref_warning.
  destruct (known_type t); simpl.
  - apply appends_ret.
  - apply appends_warning.
Qed.

Lemma validate_cross_references_appends content self :
  appends (_validate_cross_references content) self [] (xref_warnings content).
Proof.
  unfold _validate_cross_references, xref_warnings.
  pose proof (appends_for_each (findall content)
    (fun '(ref_type, ref_id) =>
        when (negb (known_type ref_type))
          (append_warning ("Reference to unknown TDR type: " ++ ref_type ++ "-" ++
                           ref_id)))
    (fun _ => []) ref_warning
    (fun p s _ => xref_body_appends p s) self) as H.
  rewrite flat_map_constant_length_nil in H. exact H.
Qed.

(** The keys of the registry are the five codes. *)
Lemma known_type_codes t : known_type t = true <-> In t TYPE_CODES.
Proof.
  unfold known_type, TDR_TYPES, TYPE_CODES. cbn [assoc In]. split.
  - intros H.
    repeat match type of H with
           | context [String.eqb ?k t] =>
               let E := fresh "E" in
               destruct (String.eqb k t) eqn:E;
               [apply string_eqb_eq in E; subst t; simpl; auto 10|clear E]
           end.
    cbn in H. discriminate H.
  - intros H.
    repeat (destruct H as [<-|H]; [reflexivity|]). contradiction.
Qed.

(** C8. The cross-reference scanner returns and leaves the errors as they
    are: what it appends are the warnings of the matches.  A reference
    (three uppercase letters, a hyphen, one or more digits) that stands
    between word boundaries adds nothing when its prefix is one of the five
    type codes, and adds the one warning that names it when its prefix is
    not one of them, between the warnings of the text before it and those
    of the text after it. *)
Theorem cross_references_warn_only :
  (forall content self,
     appends (_validate_cross_references content) self []
       (xref_warnings content)) /\
  (forall pre t d post self,
     is_ref_token t d = true ->
     boundary (last_of pre) = true ->
     boundary (head_char post) = true ->
     In t TYPE_CODES ->
     appends (_validate_cross_references (pre ++ t ++ "-" ++ d ++ post)) self []
       (xref_warnings pre ++ xref_warnings post)) /\
  (forall pre t d post self,
     is_ref_token t d = true ->
     boundary (last_of pre) = true ->
     boundary (head_char post) = true ->
     ~ In t TYPE_CODES ->
     appends (_validate_cross_references (pre ++ t ++ "-" ++ d ++ post)) self []
       (xref_warnings pre ++
        ["Reference to unknown TDR type: " ++ t ++ "-" ++ d] ++
        xref_warnings post)).
Proof.
  assert (H0 : forall pre t d post self,
            is_ref_token t d = true ->
            boundary (last_of pre) = true ->
            boundary (head_char post) = true ->
            appends (_validate_cross_references (pre ++ t ++ "-" ++ d ++ post))
              self []
              (xref_warnings pre ++
               (if known_type t then []
                else ["Reference to unknown TDR type: " ++ t ++ "-" ++ d]) ++
               xref_warnings post)).
  { intros pre t d post self Ht Hpre Hpost.
    pose proof (validate_cross_references_appends
                  (pre ++ t ++ "-" ++ d ++ post) self) as H.
    unfold xref_warnings in *.
    rewrite (findall_token pre t d post Ht Hpre Hpost) in H.
    rewrite flat_map_app in H. exact H. }
  split; [exact validate_cross_references_appends|]. split.
  - intros pre t d post self Ht Hpre Hpost Hin.
    pose proof (H0 pre t d post self Ht Hpre Hpost) as H.
    apply known_type_codes in Hin. rewrite Hin in H. exact H.
  - intros pre t d post self Ht Hpre Hpost Hout.
    pose proof (H0 pre t d post self Ht Hpre Hpost) as H.
    destruct (known_type t) eqn:E; [|exact H].
    apply known_type_codes in E. contradiction.
Qed.

(** ** Section segmenter *)

Lemma assoc_dict_set_same k v (d : section_map) :
  assoc k (dict_set k v d) = Some v.
Proof.
  induction d as [|[k' v'] d IH]; simpl.
  - now rewrite string_eqb_refl.
  - destruct (String.eqb k' k) eqn:E; simpl; rewrite E; [reflexivity|exact IH].
Qed.

Lemma assoc_dict_set_other k k0 v (d : section_map) :
  k0 <> k -> assoc k (dict_set k0 v d) = assoc k d.
Proof.
  intros Hne. induction d as [|[k' v'] d IH]; simpl.
  - destruct (String.eqb k0 k) eqn:E; [|reflexivity].
    apply string_eqb_eq in E. contradiction.
  - destruct (String.eqb k' k0) eqn:E; simpl.
    + apply string_eqb_eq in E. subst k'.
      destruct (String.eqb k0 k) eqn:E'; [|reflexivity].
      apply string_eqb_eq in E'. contradiction.
    + rewrite IH. reflexivity.
Qed.

Lemma in_keys_dict_set x k v (d : section_map) :
  In x (map fst (dict_set k v d)) -> x = k \/ In x (map fst d).
Proof.
  induction d as [|[k' v'] d IH]; simpl.
  - intros [<-|[]]. now left.
  - destruct (String.eqb k' k); simpl.
    + intros [<-|H]; auto.
    + intros [<-|H]; auto. destruct (IH H); auto.
Qed.

Lemma dict_set_nodup k v (d : section_map) :
  NoDup (map fst d) -> NoDup (map fst (dict_set k v d)).
Proof.
  induction d as [|[k' v'] d IH]; simpl; intros H.
  - constructor; [intros []|constructor].
  - inversion H as [|? ? Hnin Hd]; subst.
    destruct (String.eqb k' k) eqn:E; simpl.
    + constructor; assumption.
    + constructor; [|auto].
      intros Hin. apply in_keys_dict_set in Hin. destruct Hin as [->|Hin].
      * rewrite string_eqb_refl in E. discriminate.
      * contradiction.
Qed.

Lemma save_section_nodup cur content (secs : section_map) :
  NoDup (map fst secs) -> NoDup (map fst (save_section cur content secs)).
Proof.
  unfold save_section. destruct cur as [c|]; [|auto].
  destruct (is_empty c); [auto|]. apply dict_set_nodup.
Qed.

Lemma save_section_other name cur content (secs : section_map) :
  cur <> Some name ->
  assoc name (save_section cur content secs) = assoc name secs.
Proof.
  unfold save_section. intros Hne. destruct cur as [c|]; [|reflexivity].
  destruct (is_empty c); [reflexivity|].
  apply assoc_dict_set_other. congruence.
Qed.

Lemma save_section_current name content (secs : section_map) :
  name <> EmptyString ->
  assoc name (save_section (Some name) content secs)
    = Some (strip (join_lines content)).
Proof.
  unfold save_section. intros Hne.
  destruct (is_empty name) eqn:E.
  - apply is_empty_true in E. contradiction.
  - apply assoc_dict_set_same.
Qed.

Lemma parse_loop_nodup lines : forall secs cur content,
  NoDup (map fst secs) -> NoDup (map fst (parse_loop lines secs cur content)).
Proof.
  induction lines as [|l ls IH]; intros secs cur content H; simpl.
  - now apply save_section_nodup.
  - destruct (header_match l) as [[g1 g2]|].
    + apply IH. now apply save_section_nodup.
    + now apply IH.
Qed.

(** While no heading names [name] and the open section is another one, the
    entry of [name] stays as it is. *)
Lemma parse_loop_other name lines : forall secs cur content,
  cur <> Some name ->
  forallb (fun l => negb (names_section name l)) lines = true ->
  assoc name (parse_loop lines secs cur content) = assoc name secs.
Proof.
  induction lines as [|l ls IH]; intros secs cur content Hcur Hls; simpl.
  - now apply save_section_other.
  - simpl in Hls. apply andb_prop in Hls. destruct Hls as [Hl Hls].
    unfold names_section, heading_text in Hl.
    destruct (header_match l) as [[g1 g2]|].
    + rewrite IH; [now apply save_section_other| |assumption].
      intros E. injection E as E. rewrite E, string_eqb_refl in Hl.
      discriminate.
    + now apply IH.
Qed.

(** While no heading names [name] and the open section is [name], the entry
    of [name] becomes the content up to the next heading. *)
Lemma parse_loop_current name lines : forall secs content,
  name <> EmptyString ->
  forallb (fun l => negb (names_section name l)) lines = true ->
  assoc name (parse_loop lines secs (Some name) content)
    = Some (strip (join_lines (content ++ body_lines lines))).
Proof.
  induction lines as [|l ls IH]; intros secs content Hne Hls; simpl.
  - rewrite app_nil_r. now apply save_section_current.
  - simpl in Hls. apply andb_prop in Hls. destruct Hls as [Hl Hls].
    unfold names_section, heading_text in Hl. unfold is_heading.
    destruct (header_match l) as [[g1 g2]|]; simpl.
    + rewrite app_nil_r. rewrite parse_loop_other.
      * now apply save_section_current.
      * intros E. injection E as E. rewrite E, string_eqb_refl in Hl.
        discriminate.
      * assumption.
    + destruct (is_empty name) eqn:E.
      * apply is_empty_true in E. contradiction.
      * simpl. rewrite IH by assumption.
        rewrite <- app_assoc. reflexivity.
Qed.

Lemma parse_loop_prefix pre rest : forall secs cur content,
  exists secs' cur' content',
    parse_loop (pre ++ rest) secs cur content
      = parse_loop rest secs' cur' content'.
Proof.
  induction pre as [|l pre IH]; intros secs cur content; simpl.
  - exists secs, cur, content. reflexivity.
  - destruct (header_match l) as [[g1 g2]|]; apply IH.
Qed.

(** The last heading of a name decides the entry of that name. *)
Lemma parse_loop_last_heading name pre h post secs cur content :
  heading_text h = Some name ->
  name <> EmptyString ->
  forallb (fun l => negb (names_section name l)) post = true ->
  assoc name (parse_loop (pre ++ h :: post) secs cur content)
    = Some (section_body post).
Proof.
  intros Hh Hne Hpost.
  destruct (parse_loop_prefix pre (h :: post) secs cur content)
    as (secs' & cur' & content' & ->).
  simpl. unfold heading_text in Hh.
  destruct (header_match h) as [[g1 g2]|]; [|discriminate].
  injection Hh as ->.
  rewrite parse_loop_current by assumption. reflexivity.
Qed.

(** C6, as the code has it.  When a body holds two headings of the same
    trimmed text, and that text is not empty, the segmenter returns a
    SectionMap that has one entry for that text, and the entry is the
    content that follows the last heading of that text; the segmenter adds
    no error and no warning. *)
Theorem duplicate_heading_last_wins
    (body : string) (pre mid post : list string) (h1 h2 name : string)
    (self : validator) :
  split_lines body = (pre ++ h1 :: mid ++ h2 :: post)%list ->
  heading_text h1 = Some name ->
  heading_text h2 = Some name ->
  name <> EmptyString ->
  forallb (fun l => negb (names_section name l)) post = true ->
  exists sections,
    _parse_sections body self = Ok (sections, self) /\
    assoc name sections = Some (section_body post) /\
    NoDup (map fst sections).
Proof.
  intros Hlines _ Hh2 Hne Hpost. unfold _parse_sections, ret.
  eexists. split; [reflexivity|]. split.
  - rewrite Hlines.
    replace (pre ++ h1 :: mid ++ h2 :: post)%list
      with ((pre ++ h1 :: mid) ++ h2 :: post)%list
      by (rewrite <- app_assoc; reflexivity).
    now apply parse_loop_last_heading.
  - apply parse_loop_nodup. constructor.
Qed.

(** ** Well-formed documents *)

Lemma warns_only_for_each_in {A} (xs : list A) (body : A -> M unit) :
  (forall x, In x xs -> warns_only (body x)) -> warns_only (for_each xs body).
Proof.
  induction xs as [|x xs IH]; intros Hb; simpl.
  - apply warns_only_ret.
  - apply warns_only_bind.
    + apply Hb. now left.
    + apply IH. intros y Hy. apply Hb. now right.
Qed.

Lemma warns_only_if_present field d (body : pyval -> M unit) :
  (forall v, dict_get field d = Some v -> warns_only (body v)) ->
  warns_only (if_present field (VDict d) body).
Proof.
  intros H self. unfold if_present, appends, bind, lift, contains, getitem.
  destruct (dict_get field d) as [v|] eqn:E; simpl.
  - exact (H v eq_refl self).
  - exact (warns_only_ret self).
Qed.

Lemma check_optional_warns d field :
  field = "tdr_id" \/
  (forall s, dict_get field d <> Some (VFloat (S754_infinity s))) ->
  warns_only (check_optional (VDict d) field).
Proof.
  intros H. unfold check_optional. apply warns_only_if_present.
  intros v Hv. destruct (negb (isinstance_int_str v)); [|apply warns_only_ret].
  destruct (String.eqb field "tdr_id") eqn:E; [apply warns_only_ret|].
  destruct H as [->|H]; [discriminate E|].
  destruct v as [|b|z|f|s|l|m|iso]; simpl int_of;
    try apply warns_only_warning; try apply warns_only_ret.
  destruct f as [s|s| |s m e];
    try apply warns_only_warning; try apply warns_only_ret.
  elim (H s). exact Hv.
Qed.

Lemma validate_frontmatter_warns d t config s v_title v_date o :
  dict_get "type" d = Some (VStr t) ->
  assoc (upper t) TDR_TYPES = Some config ->
  dict_get "title" d = Some v_title ->
  dict_get "status" d = Some (VStr s) ->
  mem (lower s) VALID_STATUSES = true ->
  dict_get "date" d = Some v_date ->
  fromisoformat (py_str str_other v_date) = true ->
  dict_get "decision_owner" d = Some (VStr o) ->
  strip o <> EmptyString ->
  (forall sg, dict_get "supersedes" d <> Some (VFloat (S754_infinity sg))) ->
  warns_only (_validate_frontmatter fromisoformat str_other (VDict d)).
Proof.
  intros Htype Hcfg Htitle Hstatus Hmem Hdate Hiso Howner Hstrip Hsup.
  unfold _validate_frontmatter.
  apply warns_only_bind;
    [|apply warns_only_bind;
      [|apply warns_only_bind;
        [|apply warns_only_bind;
          [|apply warns_only_bind;
            [|apply warns_only_bind]]]]].
  - apply warns_only_for_each_in. intros x Hin self.
    unfold appends, bind, lift, contains.
    assert (Hx : is_some (dict_get x d) = true).
    { simpl in Hin.
      destruct Hin as [<-|[<-|[<-|[<-|[<-|[]]]]]];
        [rewrite Htype|rewrite Htitle|rewrite Hstatus|rewrite Hdate
        |rewrite Howner]; reflexivity. }
    rewrite Hx. exact (warns_only_ret self).
  - apply warns_only_if_present. intros v Hv. rewrite Htype in Hv.
    injection Hv as <-. intros self.
    unfold appends, bind, lift, call_upper, known_type. rewrite Hcfg.
    exact (warns_only_ret self).
  - apply warns_only_if_present. intros v Hv. rewrite Hstatus in Hv.
    injection Hv as <-. intros self.
    unfold appends, bind, lift, call_lower. rewrite Hmem.
    exact (warns_only_ret self).
  - apply warns_only_if_present. intros v Hv. rewrite Hdate in Hv.
    injection Hv as <-. rewrite Hiso. apply warns_only_ret.
  - apply warns_only_if_present. intros v Hv. rewrite Howner in Hv.
    injection Hv as <-.
    destruct (is_empty (strip o)) eqn:E.
    + apply is_empty_true in E. contradiction.
    + apply warns_only_ret.
  - apply warns_only_for_each_in. intros x Hin.
    apply check_optional_warns. simpl in Hin.
    destruct Hin as [<-|[<-|[]]]; [now left|right; exact Hsup].
  - apply warns_only_if_present. intros v _.
    apply warns_only_when, warns_only_warning.
Qed.

Lemma validate_ai_context_warns d :
  (forall v, dict_get "ai-context" d = Some v -> isinstance_dict v = true) ->
  warns_only (_validate_ai_context (VDict d)).
Proof.
  intros H. unfold _validate_ai_context. apply warns_only_if_present.
  intros v Hv. specialize (H v Hv).
  destruct v; try discriminate H. apply ai_context_mapping_warns.
Qed.

Lemma flat_map_all_nil {A B} (f : A -> list B) (xs : list A) :
  (forall x, In x xs -> f x = []) -> flat_map f xs = [].
Proof.
  induction xs as [|x xs IH]; intros H; simpl; [reflexivity|].
  rewrite (H x) by now left. apply IH. intros y Hy. apply H. now right.
Qed.
(** C1, as the code has it.  A well-formed document whose [ai-context]
    entry, when there is one, is a mapping, and whose [supersedes] entry,
    when there is one, is not an infinite number, is valid: [validate_file]
    returns a result with [valid] true and no error. *)
Theorem well_formed_document_valid
    (path content body : string) (d : list (pyval * pyval))
    (config : tdr_config) (self : validator) :
  read_file path = FileContent content ->
  well_formed safe_load fromisoformat str_other content d body config ->
  (forall v, dict_get "ai-context" d = Some v -> isinstance_dict v = true) ->
  (forall sg, dict_get "supersedes" d <> Some (VFloat (S754_infinity sg))) ->
  exists r self',
    validate_file' path self = Ok (r, self') /\
    Result.valid r = true /\ Result.errors r = [].
Proof.
  intros Hread
    (Hopen & (e & Hfind & Hload & Hbody) & (t & Htype & Hcfg) & (vt & Htitle)
     & (s & Hstatus & Hmem) & (vd & Hdate & Hiso) & (o & Howner & Hstrip)
     & Hsecs) Hai Hsup.
  set (s0 := mkValidator (strict_mode self) [] []).
  assert (Hpf : _parse_frontmatter safe_load content s0
                = Ok ((VDict d, body), s0)).
  { unfold _parse_frontmatter. rewrite Hopen. simpl negb. cbv iota.
    rewrite Hfind, Hload, Hbody. reflexivity. }
  assert (Htruthy : truthy (VDict d) = true).
  { destruct d; [discriminate Htype|reflexivity]. }
  destruct (validate_frontmatter_warns d t config s vt vd o Htype Hcfg Htitle
              Hstatus Hmem Hdate Hiso Howner Hstrip Hsup s0) as (ws1 & H1).
  unfold appends in H1.
  set (sections := parse_loop (split_lines body) [] None []) in *.
  match type of H1 with _ = Ok (tt, ?st) => set (s1 := st) in * end.
  destruct (validate_sections_appends t config sections s1 Hcfg) as (ws2 & H2).
  rewrite flat_map_all_nil in H2.
  2:{ intros name Hin. destruct (Hsecs name Hin) as (c & Hc & Hne).
      unfold required_diag. rewrite Hc.
      destruct (is_empty (strip c)) eqn:E; [|reflexivity].
      apply is_empty_true in E. contradiction. }
  unfold appends in H2.
  match type of H2 with _ = Ok (tt, ?st) => set (s2 := st) in * end.
  pose proof (validate_cross_references_appends body s2) as H3.
  unfold appends in H3.
  match type of H3 with _ = Ok (tt, ?st) => set (s3 := st) in * end.
  destruct (validate_ai_context_warns d Hai s3) as (ws4 & H4).
  unfold appends in H4.
  match type of H4 with _ = Ok (tt, ?st) => set (s4 := st) in * end.
  unfold validate_file. unfold bind at 1. unfold reset. rewrite Hread.
  fold s0. unfold bind at 1. rewrite Hpf. rewrite Htruthy.
  change (negb true) with false. cbv beta iota.
  unfold bind at 1. rewrite H1.
  unfold bind at 1. unfold _parse_sections at 1. unfold ret at 1.
  fold sections. cbv beta iota.
  unfold bind at 1. unfold bind at 1. unfold lift at 1. unfold contains.
  rewrite Htype. cbn [is_some]. cbv beta iota.
  unfold bind at 1. unfold lift at 1. unfold getitem. rewrite Htype.
  cbv beta iota. rewrite H2.
  unfold bind at 1. rewrite H3.
  unfold bind at 1. rewrite H4.
  unfold _create_result, bind. rewrite Htruthy. unfold lift, contains.
  eexists _, _. split; [reflexivity|]. split; reflexivity.
Qed.

(** ** Diagnostics are only appended *)

Lemma extends_refl self : extends self self.
Proof.
  repeat split; exists []; now rewrite app_nil_r.
Qed.

Lemma extends_trans s1 s2 s3 : extends s1 s2 -> extends s2 s3 -> extends s1 s3.
Proof.
  intros (Hs & (es & He) & (ws & Hw)) (Hs' & (es' & He') & (ws' & Hw')).
  repeat split.
  - congruence.
  - exists (es ++ es')%list. rewrite He', He, app_assoc. reflexivity.
  - exists (ws ++ ws')%list. rewrite Hw', Hw, app_assoc. reflexivity.
Qed.

Lemma append_only_ret {A} (a : A) : append_only (ret a).
Proof. intros s a' s' H. injection H as _ <-. apply extends_refl. Qed.

Lemma append_only_lift {A} (o : outcome A) : append_only (lift o).
Proof.
  intros s a s' H. unfold lift in H. destruct o; [|discriminate].
  injection H as _ <-. apply extends_refl.
Qed.

Lemma append_only_raise {A} e : append_only (@raise A e).
Proof. intros s a s' H. discriminate H. Qed.

Lemma append_only_error msg : append_only (append_error msg).
Proof.
  intros s a s' H. injection H as _ <-. repeat split; simpl.
  - now exists [msg].
  - exists []. now rewrite app_nil_r.
Qed.

Lemma append_only_warning msg : append_only (append_warning msg).
Proof.
  intros s a s' H. injection H as _ <-. repeat split; simpl.
  - exists []. now rewrite app_nil_r.
  - now exists [msg].
Qed.

Lemma append_only_get_strict_mode : append_only get_strict_mode.
Proof. intros s a s' H. injection H as _ <-. apply extends_refl. Qed.

Lemma append_only_bind {A B} (m : M A) (f : A -> M B) :
  append_only m -> (forall a, append_only (f a)) -> append_only (bind m f).
Proof.
  intros Hm Hf s b s' H. bind_inv H.
  eapply extends_trans; [eapply Hm|eapply Hf]; eauto.
Qed.

Lemma append_only_when b m : append_only m -> append_only (when b m).
Proof. destruct b; simpl; [auto|intros _; apply append_only_ret]. Qed.

Lemma append_only_for_each {A} (xs : list A) (body : A -> M unit) :
  (forall x, append_only (body x)) -> append_only (for_each xs body).
Proof.
  intros Hb. induction xs as [|x xs IH]; simpl.
  - apply append_only_ret.
  - apply append_only_bind; auto.
Qed.

Lemma append_only_if_present field fm body :
  (forall v, append_only (body v)) -> append_only (if_present field fm body).
Proof.
  intros Hb. unfold if_present. apply append_only_bind.
  - apply append_only_lift.
  - intros [|]; [|apply append_only_ret].
    apply append_only_bind; [apply append_only_lift|exact Hb].
Qed.

Ltac append_only_step :=
  first
    [ apply append_only_ret
    | apply append_only_lift
    | apply append_only_raise
    | apply append_only_error
    | apply append_only_warning
    | apply append_only_get_strict_mode
    | apply append_only_when
    | apply append_only_for_each; intros ?
    | apply append_only_if_present; intros ?
    | apply append_only_bind; [|intros ?]
    | match goal with
      | |- append_only (match ?x with _ => _ end) => destruct x
      end ].

Ltac append_only_solve := repeat append_only_step.

Lemma validate_frontmatter_append_only fm :
  append_only (_validate_frontmatter fromisoformat str_other fm).
Proof. unfold _validate_frontmatter, check_optional. append_only_solve. Qed.

Lemma validate_sections_append_only v secs :
  append_only (_validate_sections v secs).
Proof. unfold _validate_sections, check_required. append_only_solve. Qed.

Lemma validate_cross_references_append_only content :
  append_only (_validate_cross_references content).
Proof. unfold _validate_cross_references. append_only_solve. Qed.

Lemma validate_ai_context_append_only fm :
  append_only (_validate_ai_context fm).
Proof. unfold _validate_ai_context. append_only_solve. Qed.

Lemma parse_frontmatter_append_only content :
  append_only (_parse_frontmatter safe_load content).
Proof. unfold _parse_frontmatter. append_only_solve. Qed.

(** ** The entry points *)

Lemma append_only_create_result path fm secs :
  append_only (_create_result path fm secs).
Proof.
  unfold _create_result. apply append_only_bind.
  - destruct (truthy fm); [apply append_only_lift|apply append_only_ret].
  - intros b s a s' H. injection H as _ <-. apply extends_refl.
Qed.

Lemma create_result_shape path fm secs self r self' :
  _create_result path fm secs self = Ok (r, self') ->
  self' = self /\
  Result.file r = path /\
  Result.errors r = errors self /\
  Result.warnings r = warnings self /\
  exists b,
    Result.metadata r
      = Some (mkMetadata fm (List.length secs) (map fst secs) b).
Proof.
  unfold _create_result. intros H. bind_inv H.
  assert (self0 = self) as ->.
  { destruct (truthy fm).
    - unfold lift in Hm. destruct (contains "ai-context" fm); [|discriminate].
      now injection Hm as _ <-.
    - now injection Hm as _ <-. }
  injection H as <- <-. repeat split. exists a. reflexivity.
Qed.

Lemma bind_reset {A} (k : M A) self :
  (reset ;;; k) self = k (mkValidator (strict_mode self) [] []).
Proof. reflexivity. Qed.

Lemma validate_file_fresh path self :
  validate_file' path self = validate_file' path (init (strict_mode self)).
Proof. unfold validate_file. rewrite !bind_reset. reflexivity. Qed.

Lemma validate_file_extends_fresh path self r self' :
  validate_file' path self = Ok (r, self') ->
  extends (mkValidator (strict_mode self) [] []) self'.
Proof.
  unfold validate_file. rewrite bind_reset.
  generalize (mkValidator (strict_mode self) [] []). intros s0 H.
  revert H. revert r self'. revert s0.
  change (append_only
    (match read_file path with
     | FileContent content =>
         p <- _parse_frontmatter safe_load content ;;
         let (fm, markdown_content) := p in
         if negb (truthy fm) then
           append_error "Missing or invalid YAML frontmatter" ;;;
           _create_result (path_str path) fm []
         else
           _validate_frontmatter fromisoformat str_other fm ;;;
           sections <- _parse_sections markdown_content ;;
           (b <- lift (contains "type" fm) ;;
            if b then v <- lift (getitem fm "type") ;; _validate_sections v sections
            else ret tt) ;;;
           _validate_cross_references markdown_content ;;;
           _validate_ai_context fm ;;;
           _create_result (path_str path) fm sections
     | FileNotFoundError =>
         ret (_create_error_result ("File not found: " ++ path_str path))
     | UnicodeDecodeError =>
         ret (_create_error_result 
                ("Invalid UTF-8 encoding: " ++ path_str path))
     | ReadRaise e => raise e
     end)).
  destruct (read_file path);
    [|apply append_only_ret|apply append_only_ret|apply append_only_raise].
  apply append_only_bind; [apply parse_frontmatter_append_only|].
  intros [fm md]. destruct (negb (truthy fm)).
  - apply append_only_bind; [apply append_only_error|].
    intros _. apply append_only_create_result.
  - apply append_only_bind; [apply validate_frontmatter_append_only|].
    intros _. apply append_only_bind; [apply append_only_ret|].
    intros secs. apply append_only_bind.
    + apply append_only_bind; [apply append_only_lift|].
      intros [|]; [|apply append_only_ret].
      apply append_only_bind; [apply append_only_lift|].
      intros v. apply validate_sections_append_only.
    + intros _. apply append_only_bind;
        [apply validate_cross_references_append_only|].
      intros _. apply append_only_bind;
        [apply validate_ai_context_append_only|].
      intros _. apply append_only_create_result.
Qed.

Lemma validate_file_keeps_strict_mode path self r self' :
  validate_file' path self = Ok (r, self') ->
  strict_mode self' = strict_mode self.
Proof.
  intros H. apply validate_file_extends_fresh in H. destruct H as [H _].
  exact H.
Qed.

Lemma map_m_validate_file_per_file strict paths : forall self rs self',
  strict_mode self = strict ->
  map_m validate_file' paths self = Ok (rs, self') ->
  Forall2 (fun p r => exists s, validate_file' p (init strict) = Ok (r, s))
    paths rs.
Proof.
  induction paths as [|p paths IH]; simpl; intros self rs self' Hs H.
  - injection H as <- _. constructor.
  - bind_inv H. bind_inv H. injection H as <- _. constructor.
    + exists self0. rewrite <- Hs, <- validate_file_fresh. exact Hm.
    + apply (IH self0 a0 self1); [|exact Hm0].
      rewrite (validate_file_keeps_strict_mode _ _ _ _ Hm). exact Hs.
Qed.

(** X1. On a directory that holds [.md] files, the list that
    [validate_directory] returns has, for each file in the sorted order of the
    paths, the result that [validate_file] gives for that file on a fresh
    validator: files are validated one by one, none sees the diagnostics of
    another, and the results follow the sorted paths. *)
Theorem validate_directory_per_file
    (dir : string) (self self' : validator) (rs : list Result.t) :
  is_dir dir = true ->
  glob_md dir <> [] ->
  validate_directory' dir self = Ok (rs, self') ->
  Forall2 (fun p r =>
             exists s, validate_file' p (init (strict_mode self)) = Ok (r, s))
    (sorted (glob_md dir)) rs /\
  Permutation (glob_md dir) (sorted (glob_md dir)) /\
  Sorted (fun x y => String.leb x y = true) (sorted (glob_md dir)).
Proof.
  intros Hd Hg H. unfold validate_directory in H. rewrite Hd in H.
  simpl in H. destruct (glob_md dir) as [|p ps] eqn:E; [contradiction|].
  simpl in H. split; [|split].
  - eapply map_m_validate_file_per_file; [reflexivity|exact H].
  - apply PathSort.Permuted_sort.
  - apply PathSort.Sorted_sort.
Qed.

Lemma sorted_not_nil (paths : list string) : paths <> [] -> sorted paths <> [].
Proof.
  intros H E. apply H. apply Permutation_nil.
  rewrite <- E. apply Permutation_sym, PathSort.Permuted_sort.
Qed.

Lemma map_m_length {A B} (f : A -> M B) (xs : list A) : forall self ys self',
  map_m f xs self = Ok (ys, self') -> List.length ys = List.length xs.
Proof.
  induction xs as [|x xs IH]; simpl; intros self ys self' H.
  - now injection H as <- _.
  - bind_inv H. bind_inv H. injection H as <- _. simpl.
    f_equal. eapply IH; eauto.
Qed.

(** X2. [validate_directory] never returns the empty list: for a path that is
    not a directory, and for a directory without [.md] file, it returns one
    invalid result, with the file name ["unknown"], one error and no
    metadata; otherwise it returns as many results as there are files. *)
Theorem validate_directory_never_empty
    (dir : string) (self self' : validator) (rs : list Result.t) :
  validate_directory' dir self = Ok (rs, self') ->
  rs <> [] /\
  (is_dir dir = false \/ glob_md dir = [] ->
   exists msg, rs = [Result.mk "unknown" false [msg] [] None]) /\
  (is_dir dir = true -> glob_md dir <> [] ->
   List.length rs = List.length (glob_md dir)).
Proof.
  unfold validate_directory. intros H.
  destruct (is_dir dir); simpl in H.
  - destruct (glob_md dir) as [|p ps] eqn:E; simpl in H.
    + injection H as <- _. split; [discriminate|]. split.
      * intros _. eexists. reflexivity.
      * intros _ Hne. now elim Hne.
    + apply map_m_length in H.
      assert (Hlen : List.length (sorted (p :: ps)) = List.length (p :: ps)).
      { apply Permutation_length, Permutation_sym, PathSort.Permuted_sort. }
      split; [|split].
      * intros ->. rewrite Hlen in H. discriminate H.
      * intros [Hf|Hf]; discriminate Hf.
      * intros _ _. rewrite H. exact Hlen.
  - injection H as <- _. split; [discriminate|]. split.
    + intros _. eexists. reflexivity.
    + intros Hf. discriminate Hf.
Qed.

Lemma map_m_validate_file_raises strict paths p e : forall self,
  strict_mode self = strict ->
  In p paths ->
  validate_file' p (init strict) = Raise e ->
  exists e', map_m validate_file' paths self = Raise e'.
Proof.
  induction paths as [|q paths IH]; intros self Hs Hin Hp; [contradiction|].
  simpl. unfold bind at 1.
  destruct (validate_file' q self) as [[r s1]|e1] eqn:E.
  - destruct Hin as [->|Hin].
    + rewrite (validate_file_fresh p self), Hs in E. congruence.
    + destruct (IH s1) as (e' & He'); [|exact Hin|exact Hp|].
      * rewrite (validate_file_keeps_strict_mode _ _ _ _ E). exact Hs.
      * exists e'. unfold bind. rewrite He'. reflexivity.
  - exists e1. reflexivity.
Qed.

(** X3. An exception in the validation of one file ends the validation of the
    whole directory: when [validate_file] raises on one of the [.md] files,
    [validate_directory] raises and returns no result for any file. *)
Theorem validate_directory_aborts
    (dir p : string) (e : exn) (self : validator) :
  is_dir dir = true ->
  In p (glob_md dir) ->
  validate_file' p (init (strict_mode self)) = Raise e ->
  exists e', validate_directory' dir self = Raise e'.
Proof.
  intros Hd Hin Hp. unfold validate_directory. rewrite Hd. simpl.
  destruct (glob_md dir) as [|q qs] eqn:E; [contradiction|]. simpl len_is_0.
  cbv iota.
  apply (map_m_validate_file_raises (strict_mode self) _ p e);
    [reflexivity| |exact Hp].
  apply (Permutation_in _ (PathSort.Permuted_sort (q :: qs))). exact Hin.
Qed.

(** X4. A result of [validate_file] has one of two shapes.  For a file that
    is not found or not UTF-8 it is the placeholder result: file name
    ["unknown"], not valid, one error, no warning, no metadata.  For a file
    that is read it names the path, its two lists are those of the validator
    after the run, and its metadata has a [section_count] equal to the number
    of names in [sections], which are pairwise distinct. *)
Theorem validate_file_result_shape
    (path : string) (self self' : validator) (r : Result.t) :
  validate_file' path self = Ok (r, self') ->
  ((read_file path = FileNotFoundError \/ read_file path = UnicodeDecodeError) /\
   exists msg, r = Result.mk "unknown" false [msg] [] None) \/
  ((exists content, read_file path = FileContent content) /\
   Result.file r = path_str path /\
   Result.errors r = errors self' /\
   Result.warnings r = warnings self' /\
   exists m,
     Result.metadata r = Some m /\
     section_count m = List.length (sections m) /\
     NoDup (sections m)).
Proof.
  unfold validate_file. rewrite bind_reset.
  generalize (mkValidator (strict_mode self) [] []). intros s0 H.
  destruct (read_file path) as [content| | |e] eqn:Hread.
  - right. split; [now exists content|].
    bind_inv H. destruct a as [fm md].
    destruct (negb (truthy fm)).
    + bind_inv H. apply create_result_shape in H.
      destruct H as (-> & Hf & He & Hw & b & Hmeta).
      repeat split; try assumption.
      eexists. split; [exact Hmeta|]. simpl. split; [reflexivity|constructor].
    + do 5 bind_inv H. apply create_result_shape in H.
      destruct H as (-> & Hf & He & Hw & b & Hmeta).
      repeat split; try assumption.
      eexists. split; [exact Hmeta|]. simpl. split.
      * now rewrite length_map.
      * injection Hm1 as <- _. apply parse_loop_nodup. constructor.
  - left. split; [now left|]. injection H as <- _. eexists. reflexivity.
  - left. split; [now right|]. injection H as <- _. eexists. reflexivity.
  - discriminate H.
Qed.

(** ** The keys and the contents of the SectionMap *)

Lemma keys_dict_set k v (d : section_map) :
  map fst (dict_set k v d) = add_key (map fst d) k.
Proof.
  unfold add_key. induction d as [|[k' v'] d IH]; simpl; [reflexivity|].
  rewrite (string_eqb_sym k k').
  destruct (String.eqb k' k) eqn:E; simpl; [reflexivity|].
  rewrite IH. destruct (mem k (map fst d)); reflexivity.
Qed.

Lemma keys_save_section cur content (secs : section_map) :
  map fst (save_section cur content secs)
    = fold_left add_key (open_name cur) (map fst secs).
Proof.
  unfold save_section, open_name. destruct cur as [c|]; [|reflexivity].
  destruct (is_empty c); [reflexivity|]. simpl. apply keys_dict_set.
Qed.

Lemma keys_parse_loop lines : forall secs cur content,
  map fst (parse_loop lines secs cur content)
    = fold_left add_key (open_name cur ++ heading_names lines) (map fst secs).
Proof.
  induction lines as [|l ls IH]; intros secs cur content; simpl.
  - rewrite app_nil_r. apply keys_save_section.
  - unfold heading_text. destruct (header_match l) as [[g1 g2]|].
    + rewrite IH, keys_save_section, !fold_left_app. simpl open_name.
      destruct (is_empty (strip g2)); reflexivity.
    + apply IH.
Qed.

Lemma in_add_key k ks x : In x (add_key ks k) <-> In x ks \/ x = k.
Proof.
  unfold add_key. destruct (mem k ks) eqn:E.
  - split; [auto|]. intros [H | ->]; [exact H|].
    unfold mem in E. apply existsb_exists in E. destruct E as (y & Hy & Ey).
    apply string_eqb_eq in Ey. now subst y.
  - rewrite in_app_iff. simpl. split.
    + intros [H|[<-|[]]]; auto.
    + intros [H | ->]; auto.
Qed.

Lemma in_fold_add_key ns : forall ks x,
  In x (fold_left add_key ns ks) <-> In x ks \/ In x ns.
Proof.
  induction ns as [|n ns IH]; intros ks x; simpl.
  - split; [auto|]. intros [H|[]]. exact H.
  - rewrite IH, in_add_key. split.
    + intros [[H | ->] | H]; auto.
    + intros [H|[<-|H]]; auto.
Qed.

Lemma in_heading_names lines k :
  In k (heading_names lines) <->
  exists line, In line lines /\ heading_text line = Some k /\ k <> EmptyString.
Proof.
  induction lines as [|l ls IH]; simpl.
  - split; [intros []|intros (line & [] & _)].
  - destruct (heading_text l) as [t|] eqn:E.
    + destruct (is_empty t) eqn:Et.
      * rewrite IH. apply is_empty_true in Et. subst t. split.
        -- intros (line & Hin & Hl). exists line. split; [now right|exact Hl].
        -- intros (line & [<-|Hin] & Hl & Hne).
           ++ rewrite E in Hl. injection Hl as <-. now elim Hne.
           ++ exists line. auto.
      * simpl. rewrite IH. split.
        -- intros [<-|(line & Hin & Hl)].
           ++ exists l. split; [now left|]. split; [exact E|].
              intros ->. discriminate Et.
           ++ exists line. split; [now right|exact Hl].
        -- intros (line & [<-|Hin] & Hl & Hne).
           ++ rewrite E in Hl. injection Hl as <-. now left.
           ++ right. exists line. auto.
    + rewrite IH. split.
      * intros (line & Hin & Hl). exists line. split; [now right|exact Hl].
      * intros (line & [<-|Hin] & Hl & Hne).
        -- rewrite E in Hl. discriminate Hl.
        -- exists line. auto.
Qed.

(** X5. The names of the SectionMap are the heading texts of the body that
    are not empty, each once, in the order of their first occurrence: a name
    is a key exactly when some line of the body is a heading with that text,
    and a body without such a line has no section. *)
Theorem section_names_are_heading_texts (body : string) (self : validator) :
  exists sections,
    _parse_sections body self = Ok (sections, self) /\
    map fst sections = first_occurrences (heading_names (split_lines body)) /\
    forall k,
      In k (map fst sections) <->
      exists line,
        In line (split_lines body) /\ heading_text line = Some k /\
        k <> EmptyString.
Proof.
  eexists. split; [reflexivity|].
  assert (H : map fst (parse_loop (split_lines body) [] None [])
              = first_occurrences (heading_names (split_lines body))).
  { apply (keys_parse_loop (split_lines body) [] None []). }
  split; [exact H|]. intros k. rewrite H. unfold first_occurrences.
  rewrite in_fold_add_key, in_heading_names. split.
  - intros [[]|Hk]. exact Hk.
  - intros Hk. now right.
Qed.

Lemma lstrip_head s :
  match lstrip s with String a _ => isspace a = false | EmptyString => True end.
Proof.
  induction s as [|a r IH]; simpl; [trivial|].
  destruct (isspace a) eqn:E; [exact IH|exact E].
Qed.

Lemma lstrip_fixed u :
  match u with String a _ => isspace a = false | EmptyString => True end ->
  lstrip u = u.
Proof. destruct u as [|a r]; simpl; [reflexivity|]. now intros ->. Qed.

Lemma rstrip_cons a r :
  rstrip (String a r) =
    if isspace a && is_empty (rstrip r) then EmptyString
    else String a (rstrip r).
Proof. reflexivity. Qed.

Lemma rstrip_idem s : rstrip (rstrip s) = rstrip s.
Proof.
  induction s as [|a r IH]; [reflexivity|]. rewrite rstrip_cons.
  destruct (isspace a && is_empty (rstrip r)) eqn:E; [reflexivity|].
  rewrite rstrip_cons, IH, E. reflexivity.
Qed.

Lemma rstrip_head u :
  match u with String a _ => isspace a = false | EmptyString => True end ->
  match rstrip u with String a _ => isspace a = false | EmptyString => True end.
Proof.
  destruct u as [|a r]; [trivial|]. intros H. rewrite rstrip_cons.
  destruct (isspace a && is_empty (rstrip r)); [trivial|exact H].
Qed.

(** Trimming twice is trimming once. *)
Lemma strip_idem s : strip (strip s) = strip s.
Proof.
  unfold strip.
  rewrite (lstrip_fixed (rstrip (lstrip s)))
    by apply rstrip_head, lstrip_head.
  apply rstrip_idem.
Qed.

Lemma dict_set_trimmed k v (d : section_map) :
  strip v = v ->
  Forall (fun kv => strip (snd kv) = snd kv) d ->
  Forall (fun kv => strip (snd kv) = snd kv) (dict_set k v d).
Proof.
  intros Hv. induction d as [|[k' v'] d IH]; simpl; intros H.
  - constructor; [exact Hv|constructor].
  - inversion H as [|? ? Hh Ht]; subst.
    destruct (String.eqb k' k); constructor; auto.
Qed.

Lemma save_section_trimmed cur content (secs : section_map) :
  Forall (fun kv => strip (snd kv) = snd kv) secs ->
  Forall (fun kv => strip (snd kv) = snd kv) (save_section cur content secs).
Proof.
  unfold save_section. intros H. destruct cur as [c|]; [|exact H].
  destruct (is_empty c); [exact H|].
  apply dict_set_trimmed; [apply strip_idem|exact H].
Qed.

Lemma parse_loop_trimmed lines : forall secs cur content,
  Forall (fun kv => strip (snd kv) = snd kv) secs ->
  Forall (fun kv => strip (snd kv) = snd kv)
    (parse_loop lines secs cur content).
Proof.
  induction lines as [|l ls IH]; intros secs cur content H; simpl.
  - now apply save_section_trimmed.
  - destruct (header_match l) as [[g1 g2]|].
    + apply IH. now apply save_section_trimmed.
    + now apply IH.
Qed.

Lemma assoc_in {A} k (v : A) (l : list (string * A)) :
  assoc k l = Some v -> In (k, v) l.
Proof.
  induction l as [|[k' v'] l IH]; simpl; [discriminate|].
  destruct (String.eqb k' k) eqn:E.
  - apply string_eqb_eq in E. subst k'. intros H. injection H as <-. now left.
  - intros H. right. auto.
Qed.

(** X6. Every content held in the SectionMap is trimmed: trimming it again
    changes nothing, so a stored section is empty once trimmed exactly when
    it is the empty text. *)
Theorem section_contents_trimmed (body : string) (self : validator) :
  exists sections,
    _parse_sections body self = Ok (sections, self) /\
    forall k c,
      assoc k sections = Some c ->
      strip c = c /\ (is_empty (strip c) = true <-> c = EmptyString).
Proof.
  eexists. split; [reflexivity|]. intros k c Hc.
  assert (H : strip c = c).
  { pose proof (parse_loop_trimmed (split_lines body) [] None []
                  (Forall_nil _)) as HF.
    rewrite Forall_forall in HF. apply (HF (k, c)). now apply assoc_in. }
  split; [exact H|]. rewrite H. apply is_empty_true.
Qed.

(** ** Section validator: both modes *)

Lemma unknown_section_appends tdr_type config section_name self :
  appends
    (when (negb (mem section_name
                   (required_sections config ++ optional_sections config)%list))
       (append_warning ("Unknown section for " ++ tdr_type ++ ": " ++
                        section_name)))
    self [] (unknown_warning tdr_type config section_name).
Proof.
  unfold unknown_warning.
  destruct (mem section_name
              (required_sections config ++ optional_sections config)%list);
    simpl.
  - apply appends_ret.
  - apply appends_warning.
Qed.

(** X7. What the section validator appends for a string type.  When the
    upper-cased type is not one of the five codes it appends nothing, in
    either mode.  When it is, the errors are those of the required sections,
    in the order of the required list; there is no warning outside strict
    mode, and in strict mode there is one warning, naming the upper-cased
    type, for each name of the SectionMap that is neither required nor
    optional for the type, in the order of the SectionMap. *)
Theorem section_validator_diagnostics
    (t : string) (sections : section_map) (self : validator) :
  match assoc (upper t) TDR_TYPES with
  | None => _validate_sections (VStr t) sections self = Ok (tt, self)
  | Some config =>
      appends (_validate_sections (VStr t) sections) self
        (flat_map (required_diag sections) (required_sections config))
        (if strict_mode self
         then flat_map (unknown_warning (upper t) config) (map fst sections)
         else [])
  end.
Proof.
  destruct (assoc (upper t) TDR_TYPES) as [config|] eqn:Hcfg.
  2:{ unfold _validate_sections, bind, lift, call_upper. rewrite Hcfg.
      reflexivity. }
  unfold _validate_sections, appends. unfold bind at 1.
  unfold lift, call_upper. rewrite Hcfg.
  pose proof (appends_for_each (required_sections config)
                (check_required sections) (required_diag sections)
                (fun _ => []) (fun x s _ => check_required_appends sections x s)
                self) as Hloop.
  rewrite flat_map_constant_length_nil in Hloop. unfold appends in Hloop.
  unfold bind at 1. rewrite Hloop. unfold bind, get_strict_mode.
  cbn [strict_mode]. destruct (strict_mode self); cbn [when].
  - pose proof (appends_for_each (map fst sections)
                  (fun section_name =>
                     when (negb (mem section_name
                                   (required_sections config ++
                                    optional_sections config)%list))
                       (append_warning ("Unknown section for " ++ upper t ++
                                        ": " ++ section_name)))
                  (fun _ => []) (unknown_warning (upper t) config)
                  (fun x s _ => unknown_section_appends (upper t) config x s)
                  (mkValidator true
                     (errors self ++
                      flat_map (required_diag sections)
                        (required_sections config))
                     (warnings self ++ []))) as Hw.
    rewrite flat_map_constant_length_nil in Hw. unfold appends in Hw.
    cbn [strict_mode errors warnings] in Hw. rewrite !app_nil_r in Hw.
    rewrite !app_nil_r. exact Hw.
  - reflexivity.
Qed.

(** ** Frontmatter extractor: the text between the delimiters *)

Lemma string_app_length (s t : string) :
  length (s ++ t) = length s + length t.
Proof. induction s as [|a s IH]; simpl; [reflexivity|now rewrite IH]. Qed.

Lemma startswith_app p rest : startswith p (p ++ rest) = true.
Proof.
  induction p as [|a p IH]; [destruct rest; reflexivity|].
  change (String a p ++ rest) with (String a (p ++ rest)).
  rewrite startswith_cons, N.eqb_refl, IH. reflexivity.
Qed.

Lemma startswith_longer p : forall w z,
  length p <= length w -> startswith p (w ++ z) = startswith p w.
Proof.
  induction p as [|a p IH]; intros w z H.
  - destruct w, z; reflexivity.
  - destruct w as [|b w]; [simpl in H; lia|].
    change (String b w ++ z) with (String b (w ++ z)).
    rewrite !startswith_cons, IH; [reflexivity|simpl in H; lia].
Qed.

Lemma drop_app j : forall w z,
  j <= length w -> drop j (w ++ z) = drop j w ++ z.
Proof.
  induction j as [|j IH]; intros w z H; [reflexivity|].
  destruct w as [|b w]; [simpl in H; lia|].
  simpl. apply IH. simpl in H. lia.
Qed.

Lemma drop_length j : forall w, length (drop j w) = length w - j.
Proof.
  induction j as [|j IH]; intros w; simpl; [lia|].
  destruct w as [|b w]; simpl; [reflexivity|apply IH].
Qed.

Lemma drop_all w z : drop (length w) (w ++ z) = z.
Proof. induction w as [|a w IH]; simpl; [reflexivity|exact IH]. Qed.

Lemma substring_prefix y z : substring 0 (length y) (y ++ z) = y.
Proof.
  induction y as [|a y IH]; simpl.
  - destruct z; reflexivity.
  - now rewrite IH.
Qed.

Lemma find_after y sub rest :
  (forall j, j < length y -> startswith sub (drop j (y ++ sub ++ rest)) = false) ->
  find sub 0 (y ++ sub ++ rest) = Some (length y).
Proof.
  induction y as [|a y IH]; intros H.
  - simpl append. simpl length.
    pose proof (startswith_app sub rest) as Hs.
    destruct (sub ++ rest) as [|b r] eqn:E.
    + rewrite find_nil. destruct sub; [reflexivity|discriminate E].
    + rewrite find_cons_0, Hs. reflexivity.
  - change (String a y ++ sub ++ rest) with (String a (y ++ sub ++ rest)).
    rewrite find_cons_0.
    rewrite (H 0 ltac:(simpl; lia) : startswith sub (String a (y ++ sub ++ rest)) = false).
    rewrite IH; [reflexivity|].
    intros j Hj. apply (H (S j)). simpl. lia.
Qed.

Lemma find_close_with_header y body :
  forallb not_delimiter (tl (split_lines y)) = true ->
  find FM_CLOSE 4 (with_header y body) = Some (4 + length y).
Proof.
  intros Hl. unfold with_header.
  change (FM_OPEN ++ y ++ FM_CLOSE ++ body)
    with (String "-" (String "-" (String "-" (String NL (y ++ FM_CLOSE ++ body))))).
  rewrite !find_cons_S, find_after; [reflexivity|].
  intros j Hj.
  change (y ++ FM_CLOSE ++ body) with (y ++ (nl ++ "---") ++ nl ++ body).
  rewrite <- string_app_assoc.
  rewrite drop_app by (rewrite string_app_length; lia).
  rewrite startswith_longer.
  - apply (close_absent y Hl j).
  - rewrite drop_length, string_app_length. simpl. lia.
Qed.

(** X8. For a content made of the opening delimiter line, a header text in
    which no line after the first is a delimiter, the closing delimiter line
    and a body, the extractor gives the decoder exactly the header text, and
    returns what the decoder builds together with exactly the body; when the
    decoder fails it records the decoder's message and returns the absent
    frontmatter with the whole content. *)
Theorem frontmatter_between_delimiters (y body : string) (self : validator) :
  forallb not_delimiter (tl (split_lines y)) = true ->
  _parse_frontmatter safe_load (with_header y body) self
    = extracted (safe_load y) (with_header y body) body self.
Proof.
  intros Hl. unfold _parse_frontmatter.
  replace (startswith FM_OPEN (with_header y body)) with true
    by (unfold with_header; symmetry; apply startswith_app).
  change (negb true) with false. cbv iota.
  rewrite (find_close_with_header y body Hl).
  assert (Hy : slice 4 (4 + length y) (with_header y body) = y).
  { unfold slice, with_header.
    replace (4 + length y - 4) with (length y) by lia.
    change (FM_OPEN ++ y ++ FM_CLOSE ++ body)
      with (String "-" (String "-" (String "-"
              (String NL (y ++ FM_CLOSE ++ body))))).
    change (substring 4 (length y)
              (String "-" (String "-" (String "-"
                 (String NL (y ++ FM_CLOSE ++ body))))))
      with (substring 0 (length y) (y ++ FM_CLOSE ++ body)).
    apply substring_prefix. }
  assert (Hb : drop (4 + length y + 5) (with_header y body) = body).
  { unfold with_header.
    rewrite <- (string_app_assoc y FM_CLOSE body).
    rewrite <- (string_app_assoc FM_OPEN (y ++ FM_CLOSE) body).
    replace (4 + length y + 5) with (length (FM_OPEN ++ y ++ FM_CLOSE))
      by (rewrite !string_app_length; reflexivity).
    apply drop_all. }
  rewrite Hy, Hb. unfold extracted.
  destruct (safe_load y); reflexivity.
Qed.

(** ** Field validator: when it returns *)

Lemma diagnoses_of_warns m : warns_only m -> diagnoses m.
Proof. intros H self. destruct (H self) as (ws & Hw). now exists [], ws. Qed.

Lemma diagnoses_ret : diagnoses (ret tt).
Proof. apply diagnoses_of_warns, warns_only_ret. Qed.

Lemma diagnoses_error msg : diagnoses (append_error msg).
Proof. intros self. exists [msg], []. apply appends_error. Qed.

Lemma diagnoses_bind (m k : M unit) :
  diagnoses m -> diagnoses k -> diagnoses (m ;;; k).
Proof.
  intros Hm Hk self. destruct (Hm self) as (es1 & ws1 & H1).
  destruct (Hk (mkValidator (strict_mode self) (errors self ++ es1)
                  (warnings self ++ ws1))) as (es2 & ws2 & H2).
  exists (es1 ++ es2)%list, (ws1 ++ ws2)%list.
  apply (appends_bind m k self es1 ws1 es2 ws2 H1 H2).
Qed.

Lemma diagnoses_when b m : diagnoses m -> diagnoses (when b m).
Proof. destruct b; simpl; [auto|intros _; apply diagnoses_ret]. Qed.

Lemma diagnoses_for_each_in {A} (xs : list A) (body : A -> M unit) :
  (forall x, In x xs -> diagnoses (body x)) -> diagnoses (for_each xs body).
Proof.
  induction xs as [|x xs IH]; intros Hb; simpl.
  - apply diagnoses_ret.
  - apply diagnoses_bind.
    + apply Hb. now left.
    + apply IH. intros y Hy. apply Hb. now right.
Qed.

Lemma diagnoses_if_present field d (body : pyval -> M unit) :
  (forall v, dict_get field d = Some v -> diagnoses (body v)) ->
  diagnoses (if_present field (VDict d) body).
Proof.
  intros H self. unfold if_present, appends, bind, lift, contains, getitem.
  destruct (dict_get field d) as [v|] eqn:E; simpl.
  - exact (H v eq_refl self).
  - exact (diagnoses_ret self).
Qed.

Lemma raises_bind_l {A B} e (m : M A) (k : A -> M B) :
  raises e m -> raises e (bind m k).
Proof. intros H self. unfold bind. now rewrite H. Qed.

Lemma raises_bind_r {B} e (m : M unit) (k : M B) :
  diagnoses m -> raises e k -> raises e (m ;;; k).
Proof.
  intros Hm Hk self. destruct (Hm self) as (es & ws & H).
  unfold appends in H. unfold bind. rewrite H. apply Hk.
Qed.

Lemma raises_if_present field d (body : pyval -> M unit) e v :
  dict_get field d = Some v -> raises e (body v) ->
  raises e (if_present field (VDict d) body).
Proof.
  intros Hv Hb self. unfold if_present, bind, lift, contains, getitem.
  rewrite Hv. simpl. apply Hb.
Qed.

Lemma diagnoses_required_loop d :
  diagnoses
    (for_each required_fields (fun field =>
       b <- lift (contains field (VDict d)) ;;
       when (negb b)
         (append_error ("Missing required frontmatter field: " ++ field)))).
Proof.
  intros self. destruct (required_loop_appends d self) as (es & H).
  now exists es, [].
Qed.

Lemma diagnoses_type_check d :
  string_or_absent "type" d = true ->
  diagnoses
    (if_present "type" (VDict d) (fun v =>
       tdr_type <- lift (call_upper v) ;;
       when (negb (known_type tdr_type))
         (append_error ("Invalid TDR type: " ++ py_str str_other v ++ ". " ++
                        "Valid types: " ++ join_comma (map fst TDR_TYPES))))).
Proof.
  intros H. apply diagnoses_if_present. intros v Hv.
  unfold string_or_absent in H. rewrite Hv in H.
  destruct v; try discriminate H. intros self. unfold bind, lift, call_upper.
  apply diagnoses_when, diagnoses_error.
Qed.

Lemma diagnoses_status_check d :
  string_or_absent "status" d = true ->
  diagnoses
    (if_present "status" (VDict d) (fun v =>
       status <- lift (call_lower v) ;;
       when (negb (mem status VALID_STATUSES))
         (append_error ("Invalid status: " ++ py_str str_other v ++ ". " ++
                        "Valid statuses: " ++ join_comma VALID_STATUSES)))).
Proof.
  intros H. apply diagnoses_if_present. intros v Hv.
  unfold string_or_absent in H. rewrite Hv in H.
  destruct v; try discriminate H. intros self. unfold bind, lift, call_lower.
  apply diagnoses_when, diagnoses_error.
Qed.

Lemma diagnoses_date_check d :
  diagnoses
    (if_present "date" (VDict d) (fun v =>
       when (negb (fromisoformat (py_str str_other v)))
         (append_error ("Invalid date format: " ++ py_str str_other v ++ ". " ++
                        "Use ISO format: YYYY-MM-DD or YYYY-MM-DDTHH:MM:SS")))).
Proof.
  apply diagnoses_if_present. intros v _.
  apply diagnoses_when, diagnoses_error.
Qed.

Lemma diagnoses_owner_check d :
  diagnoses
    (if_present "decision_owner" (VDict d) (fun v =>
       match v with
       | VStr s =>
           when (is_empty (strip s))
             (append_error "decision_owner cannot be empty")
       | _ => append_error "decision_owner must be a string"
       end)).
Proof.
  apply diagnoses_if_present. intros v _.
  destruct v; try apply diagnoses_error.
  apply diagnoses_when, diagnoses_error.
Qed.

Lemma diagnoses_reviewers_check d :
  diagnoses
    (if_present "reviewers" (VDict d) (fun v =>
       when (negb (isinstance_list v))
         (append_warning "reviewers should be a list"))).
Proof.
  apply diagnoses_of_warns, warns_only_if_present. intros v _.
  apply warns_only_when, warns_only_warning.
Qed.

Lemma diagnoses_optional_loop d :
  finite_supersedes d = true ->
  diagnoses (for_each ["tdr_id"; "supersedes"] (check_optional (VDict d))).
Proof.
  intros H. apply diagnoses_of_warns, warns_only_for_each_in.
  intros x Hin. apply check_optional_warns. simpl in Hin.
  destruct Hin as [<-|[<-|[]]]; [now left|right].
  intros sg E. unfold finite_supersedes in H. rewrite E in H. discriminate H.
Qed.

Lemma raises_optional_loop d :
  finite_supersedes d = false ->
  raises OverflowError
    (for_each ["tdr_id"; "supersedes"] (check_optional (VDict d))).
Proof.
  intros H. cbn [for_each]. apply raises_bind_r.
  - apply diagnoses_of_warns, check_optional_warns. now left.
  - apply raises_bind_l. unfold finite_supersedes in H.
    destruct (dict_get "supersedes" d) as [v|] eqn:E; [|discriminate H].
    unfold check_optional.
    apply (raises_if_present "supersedes" d _ OverflowError v E).
    destruct v; try discriminate H. destruct f; try discriminate H.
    intros self. reflexivity.
Qed.

Lemma raises_non_string field d (body : pyval -> string -> M unit)
    (call : pyval -> outcome string) :
  (forall v, isinstance_str v = false -> call v = Raise AttributeError) ->
  string_or_absent field d = false ->
  raises AttributeError
    (if_present field (VDict d) (fun v => x <- lift (call v) ;; body v x)).
Proof.
  intros Hcall H. unfold string_or_absent in H.
  destruct (dict_get field d) as [v|] eqn:E; [|discriminate H].
  apply (raises_if_present field d _ AttributeError v E).
  intros self. unfold bind, lift. now rewrite (Hcall v H).
Qed.

Lemma call_upper_non_string v :
  isinstance_str v = false -> call_upper v = Raise AttributeError.
Proof. destruct v; simpl; intros H; try reflexivity. discriminate H. Qed.

Lemma call_lower_non_string v :
  isinstance_str v = false -> call_lower v = Raise AttributeError.
Proof. destruct v; simpl; intros H; try reflexivity. discriminate H. Qed.

Lemma validate_frontmatter_returns d :
  field_types_ok d = true ->
  diagnoses (_validate_frontmatter fromisoformat str_other (VDict d)).
Proof.
  unfold field_types_ok. intros H.
  apply andb_prop in H. destruct H as [H H3].
  apply andb_prop in H. destruct H as [H1 H2].
  unfold _validate_frontmatter.
  apply diagnoses_bind; [apply diagnoses_required_loop|].
  apply diagnoses_bind; [now apply diagnoses_type_check|].
  apply diagnoses_bind; [now apply diagnoses_status_check|].
  apply diagnoses_bind; [apply diagnoses_date_check|].
  apply diagnoses_bind; [apply diagnoses_owner_check|].
  apply diagnoses_bind; [now apply diagnoses_optional_loop|].
  apply diagnoses_reviewers_check.
Qed.

Lemma absent_or_cased field d v :
  dict_get field d = Some v -> without_case v = true ->
  string_or_absent field d = false.
Proof.
  intros Hv Hc. unfold string_or_absent. rewrite Hv.
  destruct v; try reflexivity. discriminate Hc.
Qed.

Lemma validate_frontmatter_raises_type d :
  string_or_absent "type" d = false ->
  raises AttributeError
    (_validate_frontmatter fromisoformat str_other (VDict d)).
Proof.
  intros H1. unfold _validate_frontmatter.
  apply raises_bind_r; [apply diagnoses_required_loop|].
  apply raises_bind_l.
  apply (raises_non_string "type" d _ call_upper call_upper_non_string H1).
Qed.

Lemma validate_frontmatter_raises_status d :
  string_or_absent "type" d = true ->
  string_or_absent "status" d = false ->
  raises AttributeError
    (_validate_frontmatter fromisoformat str_other (VDict d)).
Proof.
  intros H1 H2. unfold _validate_frontmatter.
  apply raises_bind_r; [apply diagnoses_required_loop|].
  apply raises_bind_r; [now apply diagnoses_type_check|].
  apply raises_bind_l.
  apply (raises_non_string "status" d _ call_lower call_lower_non_string H2).
Qed.

Lemma validate_frontmatter_raises_supersedes d :
  string_or_absent "type" d = true ->
  string_or_absent "status" d = true ->
  finite_supersedes d = false ->
  raises OverflowError
    (_validate_frontmatter fromisoformat str_other (VDict d)).
Proof.
  intros H1 H2 H3. unfold _validate_frontmatter.
  apply raises_bind_r; [apply diagnoses_required_loop|].
  apply raises_bind_r; [now apply diagnoses_type_check|].
  apply raises_bind_r; [now apply diagnoses_status_check|].
  apply raises_bind_r; [apply diagnoses_date_check|].
  apply raises_bind_r; [apply diagnoses_owner_check|].
  apply raises_bind_l. now apply raises_optional_loop.
Qed.

Lemma validate_frontmatter_raises d :
  field_types_ok d = false ->
  exists e,
    raises e (_validate_frontmatter fromisoformat str_other (VDict d)) /\
    (e = AttributeError \/ e = OverflowError).
Proof.
  unfold field_types_ok. intros H.
  destruct (string_or_absent "type" d) eqn:H1.
  - destruct (string_or_absent "status" d) eqn:H2.
    + simpl in H. exists OverflowError. split; [|now right].
      now apply validate_frontmatter_raises_supersedes.
    + exists AttributeError. split; [|now left].
      now apply validate_frontmatter_raises_status.
  - exists AttributeError. split; [|now left].
    now apply validate_frontmatter_raises_type.
Qed.

(** X9. The outcomes of the field validator on a mapping.  When the [type]
    and the [status] entries are strings (or absent) and the [supersedes]
    entry is not an infinite float, it returns and has only added
    diagnostics.  When the [type] entry is a value without [upper()]
    ([None], a truth value, a number, a list, a mapping, a date) it raises
    [AttributeError]; so it does when the [type] entry is a string or absent
    and the [status] entry is such a value.  When both are strings or absent
    and the [supersedes] entry is an infinite float it raises
    [OverflowError]. *)
Theorem field_validator_outcomes
    (d : list (pyval * pyval)) (self : validator) :
  (field_types_ok d = true ->
   exists es ws,
     appends (_validate_frontmatter fromisoformat str_other (VDict d)) self
       es ws) /\
  (forall v,
     dict_get "type" d = Some v -> without_case v = true ->
     _validate_frontmatter fromisoformat str_other (VDict d) self
     = Raise AttributeError) /\
  (forall v,
     string_or_absent "type" d = true ->
     dict_get "status" d = Some v -> without_case v = true ->
     _validate_frontmatter fromisoformat str_other (VDict d) self
     = Raise AttributeError) /\
  (forall sg,
     string_or_absent "type" d = true ->
     string_or_absent "status" d = true ->
     dict_get "supersedes" d = Some (VFloat (S754_infinity sg)) ->
     _validate_frontmatter fromisoformat str_other (VDict d) self
     = Raise OverflowError).
Proof.
  split; [|split; [|split]].
  - intros H. exact (validate_frontmatter_returns d H self).
  - intros v Hv Hc.
    apply validate_frontmatter_raises_type.
    exact (absent_or_cased _ _ _ Hv Hc).
  - intros v H1 Hv Hc.
    apply validate_frontmatter_raises_status; [exact H1|].
    exact (absent_or_cased _ _ _ Hv Hc).
  - intros sg H1 H2 Hs.
    apply validate_frontmatter_raises_supersedes; [exact H1|exact H2|].
    unfold finite_supersedes. rewrite Hs. reflexivity.
Qed.

(** ** A valid result comes from a well-formed document *)

Lemma extends_no_error s s' : extends s s' -> errors s' = [] -> errors s = [].
Proof.
  intros (_ & (es & He) & _) H. rewrite He in H.
  apply app_eq_nil in H. apply H.
Qed.

Lemma when_error_returns b msg s s' :
  when b (append_error msg) s = Ok (tt, s') -> errors s' = [] -> b = false.
Proof.
  destruct b; [|reflexivity]. simpl. unfold append_error.
  intros H E. injection H as <-. simpl in E.
  apply app_eq_nil in E. destruct E as [_ E]. discriminate E.
Qed.

Lemma error_not_silent msg s s' :
  append_error msg s = Ok (tt, s') -> errors s' <> [].
Proof.
  unfold append_error. intros H E. injection H as <-. simpl in E.
  apply app_eq_nil in E. destruct E as [_ E]. discriminate E.
Qed.

Lemma if_present_some field d (body : pyval -> M unit) v s :
  dict_get field d = Some v -> if_present field (VDict d) body s = body v s.
Proof.
  intros H. unfold if_present, bind, lift, contains, getitem. rewrite H.
  reflexivity.
Qed.

Lemma for_each_no_error {A} (body : A -> M unit) (xs : list A) :
  (forall x, append_only (body x)) ->
  forall s s',
    for_each xs body s = Ok (tt, s') -> errors s' = [] ->
    forall x, In x xs ->
      exists t t', body x t = Ok (tt, t') /\ errors t' = [].
Proof.
  intros Hb. induction xs as [|y ys IH]; intros s s' H E x Hin; [contradiction|].
  simpl in H. bind_inv H. destruct a.
  assert (Hmid : errors self = []).
  { eapply extends_no_error; [|exact E].
    eapply (append_only_for_each ys body Hb); exact H. }
  destruct Hin as [<-|Hin].
  - exists s, self. auto.
  - eapply IH; eauto.
Qed.

Lemma required_field_present fm field s s' :
  (b <- lift (contains field fm) ;;
   when (negb b)
     (append_error ("Missing required frontmatter field: " ++ field))) s
    = Ok (tt, s') ->
  errors s' = [] ->
  contains field fm = Ok true.
Proof.
  unfold bind, lift. destruct (contains field fm) as [b|e]; [|discriminate].
  intros H E. apply when_error_returns in H; [|exact E].
  destruct b; [reflexivity|discriminate H].
Qed.

Lemma contains_then_getitem fm field v :
  contains field fm = Ok true -> getitem fm field = Ok v ->
  exists d, fm = VDict d /\ dict_get field d = Some v.
Proof.
  destruct fm; simpl; try discriminate. intros _ H. exists d. split; [reflexivity|].
  destruct (dict_get field d); [now injection H as ->|discriminate].
Qed.

Lemma contains_dict field d :
  contains field (VDict d) = Ok true -> exists v, dict_get field d = Some v.
Proof.
  simpl. destruct (dict_get field d) as [v|]; [now exists v|discriminate].
Qed.

Lemma parse_frontmatter_recovered content s fm md s' :
  _parse_frontmatter safe_load content s = Ok ((fm, md), s') ->
  truthy fm = true ->
  s' = s /\
  startswith FM_OPEN content = true /\
  exists end_marker,
    find FM_CLOSE 4 content = Some end_marker /\
    safe_load (slice 4 end_marker content) = YOk fm /\
    md = drop (end_marker + 5) content.
Proof.
  unfold _parse_frontmatter. intros H Ht.
  destruct (startswith FM_OPEN content); simpl in H.
  2:{ injection H as <- _ _. discriminate Ht. }
  destruct (find FM_CLOSE 4 content) as [e|].
  2:{ injection H as <- _ _. discriminate Ht. }
  destruct (safe_load (slice 4 e content)) as [v|msg|x] eqn:E.
  - injection H as <- <- <-. split; [reflexivity|]. split; [reflexivity|].
    exists e. auto.
  - unfold bind, append_error, ret in H. injection H as <- _ _.
    discriminate Ht.
  - discriminate H.
Qed.

Lemma validate_frontmatter_sound fm s s' :
  _validate_frontmatter fromisoformat str_other fm s = Ok (tt, s') ->
  errors s' = [] ->
  errors s = [] /\
  exists d,
    fm = VDict d /\
    (exists t, dict_get "type" d = Some (VStr t) /\
               known_type (upper t) = true) /\
    (exists v, dict_get "title" d = Some v) /\
    (exists st, dict_get "status" d = Some (VStr st) /\
                mem (lower st) VALID_STATUSES = true) /\
    (exists v, dict_get "date" d = Some v /\
               fromisoformat (py_str str_other v) = true) /\
    (exists o, dict_get "decision_owner" d = Some (VStr o) /\
               strip o <> EmptyString).
Proof.
  intros H E.
  assert (Hs : errors s = []).
  { eapply extends_no_error; [|exact E].
    eapply validate_frontmatter_append_only; exact H. }
  split; [exact Hs|].
  unfold _validate_frontmatter in H.
  bind_inv H. destruct a. rename self into t1, Hm into HL.
  bind_inv H. destruct a. rename self into t2, Hm into HT.
  bind_inv H. destruct a. rename self into t3, Hm into HS.
  bind_inv H. destruct a. rename self into t4, Hm into HD.
  bind_inv H. destruct a. rename self into t5, Hm into HO.
  bind_inv H. destruct a. rename self into t6, Hm into HP.
  assert (E6 : errors t6 = []).
  { eapply extends_no_error; [|exact E].
    eapply (append_only_if_present "reviewers" fm); [|exact H].
    intros v. cbv beta. append_only_solve. }
  assert (E5 : errors t5 = []).
  { eapply extends_no_error; [|exact E6].
    eapply (append_only_for_each _ (check_optional fm)); [|exact HP].
    intros x. unfold check_optional. append_only_solve. }
  assert (E4 : errors t4 = []).
  { eapply extends_no_error; [|exact E5].
    eapply (append_only_if_present "decision_owner" fm); [|exact HO].
    intros v. cbv beta. append_only_solve. }
  assert (E3 : errors t3 = []).
  { eapply extends_no_error; [|exact E4].
    eapply (append_only_if_present "date" fm); [|exact HD].
    intros v. cbv beta. append_only_solve. }
  assert (E2 : errors t2 = []).
  { eapply extends_no_error; [|exact E3].
    eapply (append_only_if_present "status" fm); [|exact HS].
    intros v. cbv beta. append_only_solve. }
  assert (E1 : errors t1 = []).
  { eapply extends_no_error; [|exact E2].
    eapply (append_only_if_present "type" fm); [|exact HT].
    intros v. cbv beta. append_only_solve. }
  assert (Hreq : forall f, In f required_fields -> contains f fm = Ok true).
  { intros f Hin.
    pose proof (fun Hb => for_each_no_error _ required_fields Hb s t1 HL E1
                            f Hin) as Hx.
    destruct Hx as (u & u' & Hu & Eu).
    - intros x. cbv beta. append_only_solve.
    - exact (required_field_present fm f u u' Hu Eu). }
  assert (Hdict : exists d v, fm = VDict d /\ dict_get "type" d = Some v).
  { pose proof (Hreq "type" ltac:(simpl; auto 10)) as Hc.
    unfold if_present, bind at 1, lift at 1 in HT. rewrite Hc in HT.
    unfold bind at 1, lift at 1 in HT.
    destruct (getitem fm "type") as [v|] eqn:G; [|discriminate HT].
    destruct (contains_then_getitem fm "type" v Hc G) as (d & -> & Hd).
    now exists d, v. }
  destruct Hdict as (d & vt & -> & Htype). exists d. split; [reflexivity|].
  destruct (contains_dict "title" d (Hreq "title" ltac:(simpl; auto 10)))
    as (vti & Htitle).
  destruct (contains_dict "status" d (Hreq "status" ltac:(simpl; auto 10)))
    as (vs & Hstatus).
  destruct (contains_dict "date" d (Hreq "date" ltac:(simpl; auto 10)))
    as (vd & Hdate).
  destruct (contains_dict "decision_owner" d
              (Hreq "decision_owner" ltac:(simpl; auto 10))) as (vo & Howner).
  rewrite (if_present_some _ _ _ _ _ Htype) in HT.
  rewrite (if_present_some _ _ _ _ _ Hstatus) in HS.
  rewrite (if_present_some _ _ _ _ _ Hdate) in HD.
  rewrite (if_present_some _ _ _ _ _ Howner) in HO.
  split; [|split; [|split; [|split]]].
  - unfold bind, lift in HT. destruct vt; try discriminate HT.
    simpl in HT. apply when_error_returns in HT; [|exact E2].
    exists s0. split; [exact Htype|]. now apply negb_false_iff in HT.
  - now exists vti.
  - unfold bind, lift in HS. destruct vs; try discriminate HS.
    simpl in HS. apply when_error_returns in HS; [|exact E3].
    exists s0. split; [exact Hstatus|]. now apply negb_false_iff in HS.
  - apply when_error_returns in HD; [|exact E4].
    exists vd. split; [exact Hdate|]. now apply negb_false_iff in HD.
  - destruct vo;
      try (apply error_not_silent in HO; contradiction).
    apply when_error_returns in HO; [|exact E5].
    exists s0. split; [exact Howner|]. intros Hz. rewrite Hz in HO.
    discriminate HO.
Qed.


Lemma validate_ai_context_sound d s s' :
  _validate_ai_context (VDict d) s = Ok (tt, s') -> errors s' = [] ->
  forall v, dict_get "ai-context" d = Some v -> isinstance_dict v = true.
Proof.
  intros H E v Hv. unfold _validate_ai_context in H.
  rewrite (if_present_some _ _ _ _ _ Hv) in H.
  destruct v; try (apply error_not_silent in H; contradiction).
  reflexivity.
Qed.

Lemma required_sections_present (sections : section_map) names :
  flat_map (required_diag sections) names = [] ->
  forall name, In name names ->
    exists c, assoc name sections = Some c /\ strip c <> EmptyString.
Proof.
  induction names as [|n ns IH]; intros H name Hin; [contradiction|].
  simpl in H. apply app_eq_nil in H. destruct H as [Hn Hns].
  destruct Hin as [<-|Hin]; [|now apply IH].
  unfold required_diag in Hn. destruct (assoc n sections) as [c|];
    [|discriminate Hn].
  exists c. split; [reflexivity|].
  destruct (is_empty (strip c)) eqn:E; [discriminate Hn|].
  intros Hz. rewrite Hz in E. discriminate E.
Qed.

Lemma validate_frontmatter_finite d s s' :
  _validate_frontmatter fromisoformat str_other (VDict d) s = Ok (tt, s') ->
  finite_supersedes d = true.
Proof.
  intros H. destruct (field_types_ok d) eqn:F.
  - unfold field_types_ok in F. apply andb_prop in F. tauto.
  - destruct (validate_frontmatter_raises d F) as (e & Hr & _).
    rewrite (Hr s) in H. discriminate H.
Qed.

Lemma valid_result_inv
    (path : string) (self self' : validator) (r : Result.t) :
  validate_file' path self = Ok (r, self') ->
  Result.valid r = true ->
  exists content d body config,
    read_file path = FileContent content /\
    well_formed safe_load fromisoformat str_other content d body config /\
    (forall v, dict_get "ai-context" d = Some v -> isinstance_dict v = true) /\
    finite_supersedes d = true /\
    exists m, Result.metadata r = Some m /\ frontmatter m = VDict d.
Proof.
  intros H Hv. unfold validate_file in H. rewrite bind_reset in H.
  destruct (read_file path) as [content| | |e] eqn:Hread.
  2,3: injection H as <- _; discriminate Hv.
  2: discriminate H.
  apply bind_ok in H. destruct H as ([fm md] & s1 & Hpf & H). cbv beta iota in H.
  destruct (truthy fm) eqn:Htruthy; simpl negb in H; cbv iota in H.
  2:{ apply bind_ok in H. destruct H as ([] & s2 & He & H).
      pose proof (create_result_flag _ _ _ _ _ _ H) as Hflag.
      destruct (create_result_shape _ _ _ _ _ _ H) as (_ & _ & Hes & _).
      apply Hflag in Hv. rewrite Hv in Hes.
      symmetry in Hes. apply error_not_silent in He. contradiction. }
  destruct (parse_frontmatter_recovered _ _ _ _ _ Hpf Htruthy)
    as (-> & Hopen & end_marker & Hfind & Hload & Hmd).
  apply bind_ok in H. destruct H as ([] & s2 & Hfm & H).
  apply bind_ok in H. destruct H as (sections & s2' & Hps & H).
  unfold _parse_sections, ret in Hps. injection Hps as <- <-.
  set (sections := parse_loop (split_lines md) [] None []) in *.
  apply bind_ok in H. destruct H as ([] & s3 & Hsec & H).
  apply bind_ok in H. destruct H as ([] & s4 & Hxr & H).
  apply bind_ok in H. destruct H as ([] & s5 & Hai & H).
  pose proof (create_result_flag _ _ _ _ _ _ H) as Hflag.
  destruct (create_result_shape _ _ _ _ _ _ H)
    as (_ & _ & Hes & _ & (b & Hmeta)).
  apply Hflag in Hv. rewrite Hv in Hes. symmetry in Hes.
  assert (E4 : errors s4 = []).
  { eapply extends_no_error; [|exact Hes].
    eapply validate_ai_context_append_only; exact Hai. }
  assert (E3 : errors s3 = []).
  { eapply extends_no_error; [|exact E4].
    eapply validate_cross_references_append_only; exact Hxr. }
  assert (E2 : errors s2 = []).
  { eapply extends_no_error; [|exact E3].
    cut (append_only
           (b <- lift (contains "type" fm) ;;
            if b then v <- lift (getitem fm "type") ;;
                      _validate_sections v sections
            else ret tt)).
    { intros Hx. eapply Hx. exact Hsec. }
    apply append_only_bind; [apply append_only_lift|].
    intros [|]; [|apply append_only_ret].
    apply append_only_bind; [apply append_only_lift|].
    intros v. apply validate_sections_append_only. }
  destruct (validate_frontmatter_sound fm _ _ Hfm E2)
    as (_ & d & -> & (t & Htype & Hknown) & Htitle & Hstatus & Hdate & Howner).
  unfold known_type in Hknown.
  destruct (assoc (upper t) TDR_TYPES) as [config|] eqn:Hcfg;
    [|discriminate Hknown].
  exists content, d, md, config.
  split; [reflexivity|]. split; [|split; [|split]].
  4:{ eexists. split; [exact Hmeta|reflexivity]. }
  - split; [exact Hopen|]. split; [now exists end_marker|].
    split; [now exists t|]. repeat (split; [assumption|]).
    unfold bind at 1, lift at 1, contains in Hsec. rewrite Htype in Hsec.
    cbn [is_some] in Hsec. cbv beta iota in Hsec.
    unfold bind at 1, lift at 1, getitem in Hsec. rewrite Htype in Hsec.
    cbv beta iota in Hsec.
    destruct (validate_sections_appends t config sections s2 Hcfg)
      as (ws & Ha).
    unfold appends in Ha. rewrite Ha in Hsec. injection Hsec as <-.
    simpl in E3. rewrite E2 in E3. simpl in E3.
    exact (required_sections_present sections _ E3).
  - eapply validate_ai_context_sound; eassumption.
  - eapply validate_frontmatter_finite; exact Hfm.
Qed.

(** X10. The converse of C1.  When [validate_file] returns a result with
    [valid] true, the file was read, its content is well-formed (delimited
    header decoding to a mapping, every required field present and valid,
    known type, every required section present and not blank), its
    [ai-context] entry, if any, is a mapping, and its [supersedes] entry is
    not an infinite number. *)
Theorem valid_result_is_well_formed
    (path : string) (self self' : validator) (r : Result.t) :
  validate_file' path self = Ok (r, self') ->
  Result.valid r = true ->
  exists content d body config,
    read_file path = FileContent content /\
    well_formed safe_load fromisoformat str_other content d body config /\
    (forall v, dict_get "ai-context" d = Some v -> isinstance_dict v = true) /\
    finite_supersedes d = true.
Proof.
  intros H Hv.
  destruct (valid_result_inv path self self' r H Hv)
    as (content & d & body & config & Hr & Hw & Ha & Hf & _).
  exists content, d, body, config. auto.
Qed.

(** ** Strict mode only adds warnings *)

Lemma subseq_refl {A} (xs : list A) : subseq xs xs.
Proof. induction xs; constructor; assumption. Qed.

Lemma subseq_nil_l {A} (ys : list A) : subseq [] ys.
Proof. induction ys; constructor; assumption. Qed.

Lemma subseq_app {A} (xs ys xs' ys' : list A) :
  subseq xs ys -> subseq xs' ys' -> subseq (xs ++ xs') (ys ++ ys').
Proof.
  intros H H'. induction H; simpl; [exact H'| |]; constructor; assumption.
Qed.

Lemma mode_blind_ret {A} (a : A) : mode_blind (ret a).
Proof. intros s1 s2 H. simpl. auto. Qed.

Lemma mode_blind_lift {A} (o : outcome A) : mode_blind (lift o).
Proof. intros s1 s2 H. unfold lift. destruct o; simpl; auto. Qed.

Lemma mode_blind_raise {A} e : mode_blind (@raise A e).
Proof. intros s1 s2 H. reflexivity. Qed.

Lemma mode_blind_error msg : mode_blind (append_error msg).
Proof.
  intros s1 s2 (Hs & He & Hw). simpl. split; [reflexivity|].
  repeat split; simpl; [exact Hs|now rewrite He|exact Hw].
Qed.

Lemma mode_blind_warning msg : mode_blind (append_warning msg).
Proof.
  intros s1 s2 (Hs & He & Hw). simpl. split; [reflexivity|].
  repeat split; simpl; [exact Hs|exact He|].
  apply subseq_app; [exact Hw|apply subseq_refl].
Qed.

Lemma mode_blind_bind {A B} (m : M A) (f : A -> M B) :
  mode_blind m -> (forall a, mode_blind (f a)) -> mode_blind (bind m f).
Proof.
  intros Hm Hf s1 s2 H. specialize (Hm s1 s2 H). unfold bind.
  unfold same_outcome in Hm.
  destruct (m s1) as [[a1 t1]|e1], (m s2) as [[a2 t2]|e2];
    try contradiction.
  - destruct Hm as [<- Ht]. apply Hf. exact Ht.
  - exact Hm.
Qed.

Lemma mode_blind_when b m : mode_blind m -> mode_blind (when b m).
Proof. destruct b; simpl; [auto|intros _; apply mode_blind_ret]. Qed.

Lemma mode_blind_for_each {A} (xs : list A) (body : A -> M unit) :
  (forall x, mode_blind (body x)) -> mode_blind (for_each xs body).
Proof.
  intros Hb. induction xs as [|x xs IH]; simpl.
  - apply mode_blind_ret.
  - apply mode_blind_bind; auto.
Qed.

Lemma mode_blind_if_present field fm body :
  (forall v, mode_blind (body v)) -> mode_blind (if_present field fm body).
Proof.
  intros Hb. unfold if_present. apply mode_blind_bind.
  - apply mode_blind_lift.
  - intros [|]; [|apply mode_blind_ret].
    apply mode_blind_bind; [apply mode_blind_lift|exact Hb].
Qed.

Ltac mode_blind_step :=
  first
    [ apply mode_blind_ret
    | apply mode_blind_lift
    | apply mode_blind_raise
    | apply mode_blind_error
    | apply mode_blind_warning
    | apply mode_blind_when
    | apply mode_blind_for_each; intros ?
    | apply mode_blind_if_present; intros ?
    | apply mode_blind_bind; [|intros ?]
    | match goal with
      | |- mode_blind (match ?x with _ => _ end) => destruct x
      end ].

Ltac mode_blind_solve := repeat mode_blind_step.

Lemma parse_frontmatter_mode_blind content :
  mode_blind (_parse_frontmatter safe_load content).
Proof. unfold _parse_frontmatter. mode_blind_solve. Qed.

Lemma validate_frontmatter_mode_blind fm :
  mode_blind (_validate_frontmatter fromisoformat str_other fm).
Proof. unfold _validate_frontmatter, check_optional. mode_blind_solve. Qed.

Lemma validate_cross_references_mode_blind content :
  mode_blind (_validate_cross_references content).
Proof. unfold _validate_cross_references. mode_blind_solve. Qed.

Lemma validate_ai_context_mode_blind fm :
  mode_blind (_validate_ai_context fm).
Proof. unfold _validate_ai_context. mode_blind_solve. Qed.

Lemma strict_check_mode_blind (tdr_type : string) (config : tdr_config)
    (sections : section_map) :
  mode_blind
    (strict <- get_strict_mode ;;
     when strict
       (let known_sections :=
          (required_sections config ++ optional_sections config)%list in
        for_each (map fst sections) (fun section_name =>
          when (negb (mem section_name known_sections))
            (append_warning ("Unknown section for " ++ tdr_type ++ ": " ++
                             section_name))))).
Proof.
  intros s1 s2 (Hs & He & Hw).
  destruct (strict_check_warns tdr_type config sections s2) as (ws & H2).
  unfold appends in H2. cbv zeta. rewrite H2.
  unfold bind at 1, get_strict_mode. rewrite Hs. simpl.
  split; [reflexivity|]. repeat split; simpl.
  - exact Hs.
  - now rewrite app_nil_r.
  - rewrite <- (app_nil_r (warnings s1)).
    apply subseq_app; [exact Hw|apply subseq_nil_l].
Qed.

Lemma validate_sections_mode_blind v sections :
  mode_blind (_validate_sections v sections).
Proof.
  unfold _validate_sections. apply mode_blind_bind; [apply mode_blind_lift|].
  intros t. destruct (assoc t TDR_TYPES) as [config|];
    [|apply mode_blind_ret].
  apply mode_blind_bind.
  - apply mode_blind_for_each. intros x. unfold check_required.
    mode_blind_solve.
  - intros _. apply strict_check_mode_blind.
Qed.

Lemma create_result_same_report path fm sections s1 s2 :
  lenient_of s1 s2 ->
  same_report (_create_result path fm sections s1)
    (_create_result path fm sections s2).
Proof.
  intros (Hs & He & Hw). unfold _create_result, bind.
  destruct (truthy fm).
  - unfold lift. destruct (contains "ai-context" fm); [|reflexivity].
    simpl. unfold same_verdict; simpl. rewrite He. auto.
  - simpl. unfold same_verdict; simpl. rewrite He. auto.
Qed.

Lemma same_report_bind {A} (m : M A) (k : A -> M Result.t) s1 s2 :
  mode_blind m ->
  (forall a t1 t2, lenient_of t1 t2 -> same_report (k a t1) (k a t2)) ->
  lenient_of s1 s2 ->
  same_report (bind m k s1) (bind m k s2).
Proof.
  intros Hm Hk H. specialize (Hm s1 s2 H). unfold bind.
  unfold same_outcome in Hm.
  destruct (m s1) as [[a1 t1]|e1], (m s2) as [[a2 t2]|e2];
    try contradiction.
  - destruct Hm as [<- Ht]. apply Hk. exact Ht.
  - exact Hm.
Qed.

(** X11. Strict mode only adds warnings.  Run on the same file outside strict
    mode and in any mode, whatever the two validators hold, [validate_file]
    raises the same exception or returns two results with the same file,
    the same [valid] flag, the same errors and the same metadata; the
    warnings of the run outside strict mode are among those of the other
    run, in the same order. *)
Theorem strict_mode_only_adds_warnings
    (path : string) (self1 self2 : validator) :
  strict_mode self1 = false ->
  same_report (validate_file' path self1) (validate_file' path self2).
Proof.
  intros Hs. unfold validate_file. rewrite !bind_reset, Hs.
  assert (H0 : lenient_of (mkValidator false [] [])
                 (mkValidator (strict_mode self2) [] [])).
  { repeat split. constructor. }
  revert H0.
  generalize (mkValidator false [] []).
  generalize (mkValidator (strict_mode self2) [] []).
  intros s2 s1 H0.
  assert (Hsame : forall r : Result.t, same_verdict r r).
  { intros r. repeat split. apply subseq_refl. }
  destruct (read_file path) as [content| | |e];
    [|apply Hsame|apply Hsame|reflexivity].
  apply same_report_bind;
    [apply parse_frontmatter_mode_blind| |exact H0].
  intros [fm md] t1 t2 Ht. destruct (negb (truthy fm)).
  - apply same_report_bind; [apply mode_blind_error| |exact Ht].
    intros _ u1 u2 Hu. now apply create_result_same_report.
  - apply same_report_bind;
      [apply validate_frontmatter_mode_blind| |exact Ht].
    intros _ u1 u2 Hu.
    apply same_report_bind; [apply mode_blind_ret| |exact Hu].
    intros sections v1 v2 Hv.
    apply same_report_bind; [| |exact Hv].
    { apply mode_blind_bind; [apply mode_blind_lift|].
      intros [|]; [|apply mode_blind_ret].
      apply mode_blind_bind; [apply mode_blind_lift|].
      intros v. apply validate_sections_mode_blind. }
    intros _ w1 w2 Hw.
    apply same_report_bind;
      [apply validate_cross_references_mode_blind| |exact Hw].
    intros _ x1 x2 Hx.
    apply same_report_bind;
      [apply validate_ai_context_mode_blind| |exact Hx].
    intros _ y1 y2 Hy. now apply create_result_same_report.
Qed.


(** ** The text report *)

Lemma format_result_returns r :
  renderable r = true ->
  exists ls, format_result str_other path_name r = Ok ls.
Proof.
  unfold renderable, format_result. intros H.
  destruct (Result.metadata r) as [m|]; [|eexists; reflexivity].
  destruct (Result.valid r && truthy (frontmatter m)).
  - simpl in H. destruct (frontmatter m); try discriminate H.
    eexists. reflexivity.
  - eexists. reflexivity.
Qed.

Lemma format_result_raises r :
  renderable r = false ->
  format_result str_other path_name r = Raise AttributeError.
Proof.
  unfold renderable, format_result. intros H.
  destruct (Result.metadata r) as [m|]; [|discriminate H].
  destruct (Result.valid r && truthy (frontmatter m)); [|discriminate H].
  simpl in H. destruct (frontmatter m); try discriminate H; reflexivity.
Qed.

Lemma for_lines_returns rs :
  forallb renderable rs = true ->
  exists ls, for_lines rs (format_result str_other path_name) = Ok ls.
Proof.
  induction rs as [|r rs IH]; simpl; intros H; [eexists; reflexivity|].
  apply andb_prop in H. destruct H as [Hr Hrs].
  destruct (format_result_returns r Hr) as (l & ->).
  destruct (IH Hrs) as (ls & ->). eexists. reflexivity.
Qed.

Lemma for_lines_raises rs :
  forallb renderable rs = false ->
  for_lines rs (format_result str_other path_name) = Raise AttributeError.
Proof.
  induction rs as [|r rs IH]; simpl; intros H; [discriminate H|].
  destruct (renderable r) eqn:Hr.
  - destruct (format_result_returns r Hr) as (l & ->). simpl.
    rewrite (IH H). reflexivity.
  - now rewrite (format_result_raises r Hr).
Qed.

Lemma format_results_text_returns rs output_format :
  String.eqb output_format "json" = false ->
  forallb renderable rs = true ->
  exists text, format_results' rs output_format = Ok text.
Proof.
  intros Hf H. unfold format_results. rewrite Hf.
  destruct (for_lines_returns rs H) as (ls & ->). eexists. reflexivity.
Qed.

(** X12. The text report raises only on a summary line it cannot format.  For
    an output format other than ['json'], [format_results] returns exactly
    when every result that is valid and holds a non-empty frontmatter holds
    a mapping there; otherwise it raises [AttributeError] (the [.get] of lines
    457 and 458). *)
Theorem text_report_returns_iff
    (results : list Result.t) (output_format : string) :
  String.eqb output_format "json" = false ->
  match format_results' results output_format with
  | Ok _ => forallb renderable results = true
  | Raise e => e = AttributeError /\ forallb renderable results = false
  end.
Proof.
  intros Hf. destruct (forallb renderable results) eqn:H.
  - destruct (format_results_text_returns results output_format Hf H)
      as (text & ->). reflexivity.
  - unfold format_results. rewrite Hf.
    rewrite (for_lines_raises results H). split; reflexivity.
Qed.

Lemma validate_file_renderable path self r self' :
  validate_file' path self = Ok (r, self') -> renderable r = true.
Proof.
  intros H. unfold renderable.
  destruct (Result.metadata r) as [m|] eqn:Hm; [|reflexivity].
  destruct (Result.valid r) eqn:Hv; [|reflexivity].
  destruct (valid_result_inv path self self' r H Hv)
    as (_ & d & _ & _ & _ & _ & _ & _ & m' & Hm' & Hfm).
  rewrite Hm in Hm'. injection Hm' as <-. rewrite Hfm.
  apply orb_true_r.
Qed.

Lemma map_m_validate_file_renderable paths : forall self rs self',
  map_m validate_file' paths self = Ok (rs, self') ->
  forallb renderable rs = true.
Proof.
  induction paths as [|p paths IH]; simpl; intros self rs self' H.
  - injection H as <- _. reflexivity.
  - bind_inv H. bind_inv H. injection H as <- _. simpl.
    rewrite (validate_file_renderable _ _ _ _ Hm).
    exact (IH _ _ _ Hm0).
Qed.

Lemma validate_directory_renderable dir self rs self' :
  validate_directory' dir self = Ok (rs, self') ->
  forallb renderable rs = true.
Proof.
  unfold validate_directory. intros H.
  destruct (negb (is_dir dir)); [injection H as <- _; reflexivity|].
  destruct (len_is_0 (glob_md dir)); [injection H as <- _; reflexivity|].
  exact (map_m_validate_file_renderable _ _ _ _ H).
Qed.

Lemma produced_renderable r : produced' r -> renderable r = true.
Proof.
  intros [path self self' r' H|dir self self' rs r' H Hin].
  - exact (validate_file_renderable _ _ _ _ H).
  - pose proof (validate_directory_renderable _ _ _ _ H) as Hall.
    rewrite forallb_forall in Hall. exact (Hall r' Hin).
Qed.

(** X13. The text report of what the validator returns never raises: for
    every list of results of [validate_file] or of [validate_directory] and
    every output format other than ['json'], [format_results] returns a
    text. *)
Theorem text_report_of_produced_results
    (results : list Result.t) (output_format : string) :
  Forall produced' results ->
  String.eqb output_format "json" = false ->
  exists text, format_results' results output_format = Ok text.
Proof.
  intros Hp Hf. apply format_results_text_returns; [exact Hf|].
  apply forallb_forall. rewrite Forall_forall in Hp.
  intros r Hin. apply produced_renderable, Hp, Hin.
Qed.

(** ** The exit status *)

Lemma all_valid (results : list Result.t) r :
  existsb (fun r => negb (Result.valid r)) results = false ->
  In r results -> Result.valid r = true.
Proof.
  intros H Hin. destruct (Result.valid r) eqn:E; [reflexivity|].
  assert (Hx : existsb (fun r => negb (Result.valid r)) results = true).
  { apply existsb_exists. exists r. split; [exact Hin|]. now rewrite E. }
  rewrite Hx in H. discriminate H.
Qed.

Lemma forall2_in_l {A B} (P : A -> B -> Prop) xs ys x :
  Forall2 P xs ys -> In x xs -> exists y, In y ys /\ P x y.
Proof.
  intros H. induction H as [|a b xs ys Hab _ IH]; intros Hin; [contradiction|].
  destruct Hin as [<-|Hin].
  - exists b. split; [now left|exact Hab].
  - destruct (IH Hin) as (y & Hy & Hp). exists y. split; [now right|exact Hp].
Qed.

Lemma valid_file_well_formed path self r self' :
  validate_file' path self = Ok (r, self') ->
  Result.valid r = true -> well_formed_file' path.
Proof.
  intros H Hv.
  destruct (valid_result_inv path self self' r H Hv)
    as (content & d & body & config & Hr & Hw & _).
  exists content, d, body, config. auto.
Qed.

(** X14. The exit status of the command.  When [main] ends by [sys.exit], the
    status is 0 or 1.  It is 0 only when the path exists, nothing was
    written on the error stream, one text was printed and: for a file, the
    file is well-formed; otherwise, the path is a directory that holds at
    least one [.md] file and every one of them is well-formed. *)
Theorem main_exit_zero
    (strict : bool) (output path : string) (st : exit_state) :
  main' strict output path = Ok st ->
  (exit_code st = 0%Z \/ exit_code st = 1%Z) /\
  (exit_code st = 0%Z ->
   path_exists path = true /\
   stderr st = [] /\
   List.length (stdout st) = 1 /\
   if is_file path then well_formed_file' path
   else is_dir path = true /\
        glob_md path <> [] /\
        forall p, In p (glob_md path) -> well_formed_file' p).
Proof.
  unfold main. intros H.
  destruct (path_exists path); simpl negb in H; cbv iota in H.
  2:{ injection H as <-. split; [now right|]. intros E. discriminate E. }
  unfold and_then at 1 in H.
  match type of H with
  | match ?run with _ => _ end = _ =>
      destruct run as [[results s]|e] eqn:Hrun; [|discriminate H]
  end.
  unfold and_then in H.
  destruct (format_results' results output) as [text|e]; [|discriminate H].
  injection H as <-. simpl exit_code. simpl stderr. simpl stdout.
  destruct (existsb (fun r => negb (Result.valid r)) results) eqn:Hall.
  { split; [now right|]. intros E. discriminate E. }
  split; [now left|]. intros _.
  split; [reflexivity|]. split; [reflexivity|]. split; [reflexivity|].
  destruct (is_file path).
  - bind_inv Hrun. injection Hrun as <- _.
    apply (valid_file_well_formed _ _ _ _ Hm).
    apply (all_valid [a]); [exact Hall|now left].
  - unfold validate_directory in Hrun.
    destruct (is_dir path).
    2:{ injection Hrun as <- _. discriminate Hall. }
    split; [reflexivity|].
    destruct (glob_md path) as [|q qs] eqn:Hg.
    { injection Hrun as <- _. discriminate Hall. }
    split; [discriminate|].
    change (map_m validate_file' (sorted (q :: qs)) (init strict)
            = Ok (results, s)) in Hrun.
    intros p Hin.
    assert (Hs : In p (sorted (q :: qs))).
    { eapply Permutation_in; [apply PathSort.Permuted_sort|exact Hin]. }
    pose proof (map_m_validate_file_per_file strict (sorted (q :: qs))
                  (init strict) results s eq_refl Hrun) as HF.
    destruct (forall2_in_l _ _ _ p HF Hs) as (r & Hr & (s' & Hp)).
    apply (valid_file_well_formed _ _ _ _ Hp).
    exact (all_valid results r Hall Hr).
Qed.


(** ** The exceptions that leave the validator *)

Section RaisesIn.

Variable P : exn -> Prop.

Lemma raises_in_ret {A} (a : A) : raises_in P (ret a).
Proof. intros s e H. discriminate H. Qed.

Lemma raises_in_raise {A} e : P e -> raises_in P (@raise A e).
Proof. intros He s e' H. injection H as <-. exact He. Qed.

Lemma raises_in_lift {A} (o : outcome A) :
  (forall e, o = Raise e -> P e) -> raises_in P (lift o).
Proof.
  intros Ho s e H. unfold lift in H. destruct o as [a|e']; [discriminate H|].
  injection H as <-. now apply Ho.
Qed.

Lemma raises_in_error msg : raises_in P (append_error msg).
Proof. intros s e H. discriminate H. Qed.

Lemma raises_in_warning msg : raises_in P (append_warning msg).
Proof. intros s e H. discriminate H. Qed.

Lemma raises_in_get_strict_mode : raises_in P get_strict_mode.
Proof. intros s e H. discriminate H. Qed.

Lemma raises_in_bind {A B} (m : M A) (f : A -> M B) :
  raises_in P m -> (forall a, raises_in P (f a)) -> raises_in P (bind m f).
Proof.
  intros Hm Hf s e H. unfold bind in H.
  destruct (m s) as [[a s']|e'] eqn:E.
  - exact (Hf a s' e H).
  - injection H as <-. exact (Hm s e' E).
Qed.

Lemma raises_in_when b m : raises_in P m -> raises_in P (when b m).
Proof. destruct b; simpl; [auto|intros _; apply raises_in_ret]. Qed.

Lemma raises_in_for_each {A} (xs : list A) (body : A -> M unit) :
  (forall x, raises_in P (body x)) -> raises_in P (for_each xs body).
Proof.
  intros Hb. induction xs as [|x xs IH]; simpl.
  - apply raises_in_ret.
  - apply raises_in_bind; auto.
Qed.

Lemma raises_in_contains field fm :
  P TypeError -> raises_in P (lift (contains field fm)).
Proof.
  intros HP. apply raises_in_lift. intros e H.
  destruct fm; simpl in H; try discriminate H; now injection H as <-.
Qed.

Lemma raises_in_call_upper v :
  P AttributeError -> raises_in P (lift (call_upper v)).
Proof.
  intros HP. apply raises_in_lift. intros e H.
  destruct v; simpl in H; try discriminate H; now injection H as <-.
Qed.

Lemma raises_in_call_lower v :
  P AttributeError -> raises_in P (lift (call_lower v)).
Proof.
  intros HP. apply raises_in_lift. intros e H.
  destruct v; simpl in H; try discriminate H; now injection H as <-.
Qed.

Lemma raises_in_if_present field fm body :
  P TypeError ->
  (forall v, raises_in P (body v)) ->
  raises_in P (if_present field fm body).
Proof.
  intros HP Hb s e H. unfold if_present, bind, lift in H.
  destruct fm as [ |b|z|f|t|l|d|iso]; simpl in H;
    try (injection H as <-; exact HP).
  - destruct (is_some (find field 0 t));
      [injection H as <-; exact HP|discriminate H].
  - destruct (existsb (eq_str field) l);
      [injection H as <-; exact HP|discriminate H].
  - destruct (dict_get field d) as [v|]; simpl in H;
      [exact (Hb v s e H)|discriminate H].
Qed.

Lemma raises_in_if_present_other field fm body :
  isinstance_dict fm = false ->
  P TypeError ->
  raises_in P (if_present field fm body).
Proof.
  intros Hd HP. unfold if_present.
  apply raises_in_bind; [now apply raises_in_contains|].
  intros [|]; [|apply raises_in_ret].
  intros s e H. unfold bind, lift in H.
  destruct fm; try discriminate Hd; simpl in H; now injection H as <-.
Qed.

Hypothesis P_type : P TypeError.

Ltac raises_in_step :=
  first
    [ apply raises_in_ret
    | apply raises_in_error
    | apply raises_in_warning
    | apply raises_in_get_strict_mode
    | apply raises_in_contains; assumption
    | apply raises_in_call_upper; assumption
    | apply raises_in_call_lower; assumption
    | apply raises_in_raise; assumption
    | apply raises_in_when
    | apply raises_in_for_each; intros ?
    | apply raises_in_if_present; [assumption|intros ?]
    | apply raises_in_bind; [|intros ?]
    | match goal with
      | |- raises_in _ (match ?x with _ => _ end) => destruct x
      end ].

Ltac raises_in_solve := repeat raises_in_step.

Lemma validate_cross_references_raises_in content :
  raises_in P (_validate_cross_references content).
Proof. unfold _validate_cross_references. raises_in_solve. Qed.

Lemma create_result_raises_in path fm sections :
  raises_in P (_create_result path fm sections).
Proof.
  unfold _create_result. apply raises_in_bind.
  - destruct (truthy fm); [now apply raises_in_contains|apply raises_in_ret].
  - intros b s e H. discriminate H.
Qed.

Lemma required_loop_raises_in fm :
  raises_in P
    (for_each required_fields (fun field =>
       b <- lift (contains field fm) ;;
       when (negb b)
         (append_error ("Missing required frontmatter field: " ++ field)))).
Proof. raises_in_solve. Qed.

Lemma validate_frontmatter_other fm :
  isinstance_dict fm = false ->
  raises_in P (_validate_frontmatter fromisoformat str_other fm).
Proof.
  intros Hd. unfold _validate_frontmatter.
  apply raises_in_bind; [apply required_loop_raises_in|intros _].
  repeat (apply raises_in_bind;
          [now apply raises_in_if_present_other|intros _]).
  apply raises_in_bind; [|intros _; now apply raises_in_if_present_other].
  apply raises_in_for_each. intros x. unfold check_optional.
  now apply raises_in_if_present_other.
Qed.

Lemma checks_other path fm md :
  isinstance_dict fm = false ->
  raises_in P
    (if negb (truthy fm) then
       append_error "Missing or invalid YAML frontmatter" ;;;
       _create_result path fm []
     else
       _validate_frontmatter fromisoformat str_other fm ;;;
       sections <- _parse_sections md ;;
       if_present "type" fm (fun v => _validate_sections v sections) ;;;
       _validate_cross_references md ;;;
       _validate_ai_context fm ;;;
       _create_result path fm sections).
Proof.
  intros Hd. destruct (negb (truthy fm)).
  - apply raises_in_bind; [apply raises_in_error|intros _].
    apply create_result_raises_in.
  - apply raises_in_bind; [now apply validate_frontmatter_other|intros _].
    apply raises_in_bind; [apply raises_in_ret|intros sections].
    apply raises_in_bind; [now apply raises_in_if_present_other|intros _].
    apply raises_in_bind;
      [apply validate_cross_references_raises_in|intros _].
    apply raises_in_bind; [|intros _; apply create_result_raises_in].
    unfold _validate_ai_context. now apply raises_in_if_present_other.
Qed.

Hypothesis P_attribute : P AttributeError.
Hypothesis P_overflow : P OverflowError.






End RaisesIn.

Lemma validate_file_checks path content self :
  read_file path = FileContent content ->
  validate_file' path self
  = (p <- _parse_frontmatter safe_load content ;;
     let (fm, md) := p in
     if negb (truthy fm) then
       append_error "Missing or invalid YAML frontmatter" ;;;
       _create_result (path_str path) fm []
     else
       _validate_frontmatter fromisoformat str_other fm ;;;
       sections <- _parse_sections md ;;
       if_present "type" fm (fun v => _validate_sections v sections) ;;;
       _validate_cross_references md ;;;
       _validate_ai_context fm ;;;
       _create_result (path_str path) fm sections)
      (mkValidator (strict_mode self) [] []).
Proof.
  intros H. unfold validate_file. rewrite bind_reset, H. reflexivity.
Qed.



(** X16. A header that does not decode to a mapping is never accepted.  When
    the delimited header decodes to a value that is not a mapping,
    [validate_file] returns an invalid result (with at least one error) or
    raises [TypeError]; it raises [TypeError] whenever the value is a number
    other than zero, [true] or a date. *)
Theorem non_mapping_header_rejected
    (path content : string) (end_marker : nat) (fm : pyval)
    (self : validator) :
  read_file path = FileContent content ->
  startswith FM_OPEN content = true ->
  find FM_CLOSE 4 content = Some end_marker ->
  safe_load (slice 4 end_marker content) = YOk fm ->
  isinstance_dict fm = false ->
  match validate_file' path self with
  | Ok (r, _) => Result.valid r = false /\ Result.errors r <> []
  | Raise e => e = TypeError
  end /\
  (truthy fm = true -> not_iterable fm = true ->
   validate_file' path self = Raise TypeError).
Proof.
  intros Hread Hopen Hfind Hload Hd.
  assert (Hpf : forall s0,
            _parse_frontmatter safe_load content s0
            = Ok ((fm, drop (end_marker + 5) content), s0)).
  { intros s0. unfold _parse_frontmatter. rewrite Hopen. simpl negb.
    cbv iota. rewrite Hfind, Hload. reflexivity. }
  split.
  - destruct (validate_file' path self) as [[r s']|e] eqn:E.
    + assert (Hv : Result.valid r = false).
      { destruct (Result.valid r) eqn:Hv; [|reflexivity].
        destruct (valid_result_inv _ _ _ _ E Hv)
          as (c' & d & body & config & Hr & Hw & _).
        rewrite Hread in Hr. injection Hr as <-.
        destruct Hw as (_ & (e' & Hf & Hl & _) & _).
        rewrite Hfind in Hf. injection Hf as <-.
        rewrite Hload in Hl. injection Hl as ->. discriminate Hd. }
      split; [exact Hv|]. intros He.
      apply (validate_file_flag _ _ _ _ E) in He.
      rewrite He in Hv. discriminate Hv.
    + rewrite (validate_file_checks _ _ _ Hread) in E.
      unfold bind at 1 in E. rewrite Hpf in E.
      exact (checks_other (fun x => x = TypeError) eq_refl (path_str path) fm
               _ Hd _ _ E).
  - intros Ht Hn. rewrite (validate_file_checks _ _ _ Hread).
    unfold bind at 1. rewrite Hpf. cbv beta iota. rewrite Ht.
    destruct fm; try discriminate Hn; try discriminate Ht; reflexivity.
Qed.

End Properties.

(** ** Examples *)

(** The heading pattern on single lines. *)
Example header_match_blank : header_match "##  " = Some ("##", " ").
Proof. reflexivity. Qed.

Example header_match_level3 : header_match "### foo  " = Some ("###", "foo  ").
Proof. reflexivity. Qed.

Example header_match_no_space : header_match "###foo" = None.
Proof. reflexivity. Qed.

Example header_match_level4 : header_match "####  x" = None.
Proof. reflexivity. Qed.

Example header_match_no_text : header_match "## " = None.
Proof. reflexivity. Qed.

(** The blanks of the pattern are those of Unicode: a no-break space after
    the hashes makes a heading, and one after the text is trimmed away. *)
Example header_match_no_break_space :
  header_match (String "#" (String "#" (String 0xA0%N "Context")))
  = Some ("##", "Context") /\
  heading_text ("## A" ++ String 0xA0%N EmptyString) = Some "A".
Proof. split; reflexivity. Qed.

Example strip_unicode_blanks :
  strip (String 0x2003%N (String 0xA0%N " x " ++ String 0x3000%N EmptyString))
  = "x" /\
  strip (String 0xA0%N (String 0x85%N EmptyString)) = EmptyString.
Proof. split; reflexivity. Qed.

(** The reference pattern on a line with delimited and embedded tokens. *)
Example findall_mixed :
  findall "ADR-007 XYZ-007 aXYZ-1 ABC-12x ABCD-1 ABC-1-DEF-2 QQQ-5 ABC-12_ _ABC-1 -ABC-3"
  = [("ADR", "007"); ("XYZ", "007"); ("ABC", "1"); ("DEF", "2"); ("QQQ", "5");
     ("ABC", "3")].
Proof. reflexivity. Qed.

(** The closing delimiter is searched from index 4 on. *)
Example find_skips_index_3 :
  find FM_CLOSE 4 (join_lines ["---"; "---"; "x"]) = None.
Proof. reflexivity. Qed.

Example find_empty_at_end :
  find EmptyString 3 "abc" = Some 3 /\ find EmptyString 4 "abc" = None.
Proof. split; reflexivity. Qed.

Example split_lines_trailing :
  split_lines (join_lines ["a"; "b"; ""]) = ["a"; "b"; ""].
Proof. reflexivity. Qed.

Example sorted_by_code : sorted ["b.md"; "a.md"; "B.md"] = ["B.md"; "a.md"; "b.md"].
Proof. reflexivity. Qed.

(** A heading seen twice keeps its place and takes the later content; lines
    before the first heading and after a blank heading are dropped. *)
Example parse_sections_last_wins :
  _parse_sections
    (join_lines ["lead"; "## A"; "one"; "##  "; "lost"; "## B"; "## A"; " two "])
    (init false)
  = Ok ([("A", "two"); ("B", EmptyString)], init false).
Proof. reflexivity. Qed.

(** A third heading [A], written with a no-break space after it, is the last
    one of that text. *)
Example parse_sections_no_break_space :
  _parse_sections
    (join_lines ["## A"; "x"; "## A"; "y";
                 "## A" ++ String 0xA0%N EmptyString; "z"])
    (init false)
  = Ok ([("A", "z")], init false).
Proof. reflexivity. Qed.

(** [validate_file] on the sample, in strict mode. *)
Example sample_adr_result :
  Result.valid sample_result = true /\
  Result.warnings sample_result = ["Reference to unknown TDR type: XYZ-12"] /\
  option_map sections (Result.metadata sample_result)
    = Some ["Status"; "Context"; "Decision"; "Consequences"].
Proof. repeat split. Qed.

(** ** The properties on concrete documents *)

Lemma valid_iff_no_errors_witness :
  produced flat_yaml iso_date_shape plain_str (one_file "doc.md" sample_adr)
    no_dir no_files sample_result /\
  (Result.valid sample_result = true <-> Result.errors sample_result = []).
Proof.
  assert (H : produced flat_yaml iso_date_shape plain_str
                (one_file "doc.md" sample_adr) no_dir no_files sample_result).
  { eapply (produced_file _ _ _ _ _ _ "doc.md" (init true)).
    vm_compute. reflexivity. }
  split; [exact H|].
  exact (valid_iff_no_errors _ _ _ _ _ _ _ H).
Defined.

Lemma missing_header_single_error_witness :
  exists r self',
    run_file false headerless_doc = Ok (r, self') /\
    Result.errors r = [MISSING_HEADER] /\
    Result.warnings r = [] /\
    Result.valid r = false /\
    Result.metadata r = Some (mkMetadata VNone 0 [] false) /\
    errors self' = [MISSING_HEADER] /\ warnings self' = [].
Proof.
  apply (missing_header_single_error flat_yaml iso_date_shape plain_str
           (one_file "doc.md" headerless_doc) "doc.md" headerless_doc
           (init false)).
  - reflexivity.
  - left. vm_compute. reflexivity.
Defined.

Lemma file_fault_isolated_witness :
  exists r self',
    run_file false undecodable_doc = Ok (r, self') /\
    Result.valid r = false /\
    Result.errors r
    = ["Invalid YAML frontmatter: while parsing a flow sequence";
       MISSING_HEADER] /\
    List.length (Result.errors r) = 2.
Proof.
  apply (file_fault_isolated flat_yaml iso_date_shape plain_str
           (one_file "doc.md" undecodable_doc) "doc.md"
           (DecodeFailure "while parsing a flow sequence") (init false)).
  exists undecodable_doc, 14.
  repeat split; vm_compute; reflexivity.
Defined.

(** C4 as stated fails: a header that does not decode leaves two errors in
    the result, not one.  The header [type: [ADR] opens a flow sequence that
    nothing closes, which is a [yaml.YAMLError]. *)
Lemma decode_failure_two_errors :
  (exists msg,
     has_fault flat_yaml (one_file "doc.md" undecodable_doc) "doc.md"
       (DecodeFailure msg)) /\
  exists r self' msg,
    run_file false undecodable_doc = Ok (r, self') /\
    Result.errors r = ["Invalid YAML frontmatter: " ++ msg; MISSING_HEADER] /\
    List.length (Result.errors r) <> 1.
Proof.
  split.
  - exists "while parsing a flow sequence", undecodable_doc, 14.
    repeat split; vm_compute; reflexivity.
  - eexists _, _, "while parsing a flow sequence".
    split; [vm_compute; reflexivity|].
    split; [reflexivity|]. simpl. discriminate.
Qed.

Lemma field_validator_raises_on_non_string_type_witness :
  _validate_frontmatter iso_date_shape plain_str
    (VDict [(VStr "type", VInt 123); (VStr "title", VStr "Use a queue")])
    (init false)
  = Raise AttributeError.
Proof.
  apply (field_validator_raises_on_non_string_type iso_date_shape plain_str
           [(VStr "type", VInt 123); (VStr "title", VStr "Use a queue")]
           (VInt 123) (init false)); reflexivity.
Defined.

Lemma ai_context_diagnostics_witness :
  exists es ws,
    appends
      (_validate_ai_context
         (VDict [(VStr "ai-context",
                  VDict [(VStr "summary", VStr "too short");
                         (VStr "keywords", VList [VStr "queue"])])]))
      (init false) es ws /\
    es = [].
Proof.
  apply (ai_context_diagnostics
           [(VStr "ai-context",
             VDict [(VStr "summary", VStr "too short");
                    (VStr "keywords", VList [VStr "queue"])])]
           (VDict [(VStr "summary", VStr "too short");
                   (VStr "keywords", VList [VStr "queue"])])
           (init false)).
  reflexivity.
Defined.

(** C9 as stated fails: an [ai-context] entry that is not a mapping adds an
    error. *)
Lemma ai_context_non_mapping_is_error :
  exists self',
    _validate_ai_context (VDict [(VStr "ai-context", VStr "notes")]) (init false)
      = Ok (tt, self') /\
    errors self' = ["ai-context must be a dictionary"] /\
    warnings self' = [] /\
    errors self' <> errors (init false).
Proof.
  eexists. split; [vm_compute; reflexivity|].
  repeat split. simpl. discriminate.
Qed.

Lemma frontmatter_needs_both_delimiters_witness :
  (startswith FM_OPEN sample_adr = true /\
   exists e, 4 <= e /\ startswith FM_CLOSE (drop e sample_adr) = true) /\
  _parse_frontmatter flat_yaml (truncated_header "type: ADR") (init false)
    = Ok ((VNone, truncated_header "type: ADR"), init false).
Proof.
  destruct (frontmatter_needs_both_delimiters flat_yaml) as [T1 T2]. split.
  - eapply (T1 sample_adr (init false)).
    + vm_compute. reflexivity.
    + discriminate.
  - apply T2. reflexivity.
Defined.

Lemma required_section_errors_witness :
  exists es ws,
    appends (_validate_sections (VStr "adr") blank_sections) (init false) es ws /\
    In "Required section is empty: Context" es /\
    ~ In "Missing required section: Context" es /\
    In "Missing required section: Decision" es /\
    ~ In "Required section is empty: Status" es.
Proof.
  destruct (required_section_errors "adr" adr_config blank_sections
              (init false) eq_refl) as (es & ws & Ha & H).
  exists es, ws. split; [exact Ha|].
  destruct (H "Context" ltac:(simpl; auto)) as (_ & Hblank & _).
  destruct (Hblank _ eq_refl eq_refl) as [He Hm].
  destruct (H "Decision" ltac:(simpl; auto)) as (Hmiss & _).
  destruct (H "Status" ltac:(simpl; auto)) as (_ & _ & Hfull).
  destruct (Hfull _ eq_refl eq_refl) as [Hs _].
  repeat split; [exact He|exact Hm|exact (Hmiss eq_refl)|exact Hs].
Defined.

(** What the section validator appends for these sections. *)
Example blank_section_errors :
  _validate_sections (VStr "adr") blank_sections (init false)
  = Ok (tt, mkValidator false
              ["Required section is empty: Context";
               "Missing required section: Decision";
               "Missing required section: Consequences"] []).
Proof. vm_compute. reflexivity. Qed.

Lemma cross_references_warn_only_witness :
  appends
    (_validate_cross_references "See ADR-007 and XYZ-12, then decide.")
    (init false) [] ["Reference to unknown TDR type: XYZ-12"] /\
  appends
    (_validate_cross_references "See XYZ-12 and ADR-007, then decide.")
    (init false) [] ["Reference to unknown TDR type: XYZ-12"].
Proof.
  destruct (@cross_references_warn_only ascii_texts) as (_ & Hknown & Hother).
  split.
  - refine (Hother "See ADR-007 and " "XYZ" "12" ", then decide."
              (init false) eq_refl eq_refl eq_refl _).
    simpl. intuition discriminate.
  - refine (Hknown "See XYZ-12 and " "ADR" "007" ", then decide."
              (init false) eq_refl eq_refl eq_refl _).
    simpl. auto.
Defined.

Lemma duplicate_heading_last_wins_witness :
  exists sections,
    _parse_sections repeated_heading_doc (init false) = Ok (sections, init false) /\
    assoc "Context" sections = Some (section_body ["second"; ""; "## Decision"; "third"]) /\
    NoDup (map fst sections).
Proof.
  apply (duplicate_heading_last_wins repeated_heading_doc
           ["intro"] ["first"] ["second"; ""; "## Decision"; "third"]
           "## Context" "### Context" "Context" (init false)).
  - reflexivity.
  - reflexivity.
  - reflexivity.
  - discriminate.
  - reflexivity.
Defined.

(** C6 as stated fails: two headings whose trimmed text is the same, the
    empty text, leave no entry in the SectionMap. *)
Lemma blank_headings_not_stored :
  split_lines blank_headings_doc = ([] ++ "##  " :: ["first"] ++ "##  " :: ["second"])%list /\
  heading_text "##  " = Some EmptyString /\
  exists sections,
    _parse_sections blank_headings_doc (init false) = Ok (sections, init false) /\
    assoc EmptyString sections = None /\
    assoc EmptyString sections <> Some (section_body ["second"]).
Proof.
  split; [reflexivity|]. split; [reflexivity|].
  eexists. split; [reflexivity|]. split; [reflexivity|]. discriminate.
Qed.

Lemma sample_adr_well_formed :
  well_formed flat_yaml iso_date_shape plain_str sample_adr
    (decoded sample_adr) (body_of sample_adr) adr_config.
Proof.
  unfold well_formed. split; [reflexivity|].
  split; [exists 86; repeat split; vm_compute; reflexivity|].
  split; [exists "ADR"; split; reflexivity|].
  split; [eexists; vm_compute; reflexivity|].
  split; [exists "Accepted"; split; reflexivity|].
  split; [eexists; split; vm_compute; reflexivity|].
  split; [exists "Ann"; split; [reflexivity|discriminate]|].
  intros name Hin. simpl in Hin.
  destruct Hin as [<-|[<-|[<-|[<-|[]]]]];
    (eexists; split; [vm_compute; reflexivity|discriminate]).
Defined.

Lemma well_formed_document_valid_witness :
  exists r self',
    run_file true sample_adr = Ok (r, self') /\
    Result.valid r = true /\ Result.errors r = [].
Proof.
  apply (well_formed_document_valid flat_yaml iso_date_shape plain_str
           (one_file "doc.md" sample_adr) "doc.md" sample_adr
           (body_of sample_adr) (decoded sample_adr) adr_config (init true)).
  - reflexivity.
  - exact sample_adr_well_formed.
  - intros v H. vm_compute in H. discriminate H.
  - intros sg H. vm_compute in H. discriminate H.
Defined.

Lemma ai_text_adr_well_formed :
  well_formed flat_yaml iso_date_shape plain_str ai_text_adr
    (decoded ai_text_adr) (body_of ai_text_adr) adr_config.
Proof.
  unfold well_formed. split; [reflexivity|].
  split; [exists 112; repeat split; vm_compute; reflexivity|].
  split; [exists "ADR"; split; reflexivity|].
  split; [eexists; vm_compute; reflexivity|].
  split; [exists "accepted"; split; reflexivity|].
  split; [eexists; split; vm_compute; reflexivity|].
  split; [exists "Ann"; split; [reflexivity|discriminate]|].
  intros name Hin. simpl in Hin.
  destruct Hin as [<-|[<-|[<-|[<-|[]]]]];
    (eexists; split; [vm_compute; reflexivity|discriminate]).
Qed.

(** C1 as stated fails: a document that is well-formed in its header, its
    required fields, its type and its required sections, and whose
    [ai-context] entry is a text, is not valid. *)
Lemma well_formed_with_ai_text_invalid :
  well_formed flat_yaml iso_date_shape plain_str ai_text_adr
    (decoded ai_text_adr) (body_of ai_text_adr) adr_config /\
  exists r self',
    run_file false ai_text_adr = Ok (r, self') /\
    Result.valid r = false /\
    Result.errors r = ["ai-context must be a dictionary"].
Proof.
  split; [exact ai_text_adr_well_formed|].
  eexists _, _. split; [vm_compute; reflexivity|]. split; reflexivity.
Qed.

(** ** The further properties on concrete inputs *)

Lemma validate_directory_per_file_witness :
  Forall2 (fun p r =>
             exists s,
               validate_file flat_yaml iso_date_shape plain_str docs_fs p
                 (init false) = Ok (r, s))
    (sorted (docs_glob "docs")) docs_results /\
  Permutation (docs_glob "docs") (sorted (docs_glob "docs")) /\
  Sorted (fun x y => String.leb x y = true) (sorted (docs_glob "docs")).
Proof.
  eapply (validate_directory_per_file flat_yaml iso_date_shape plain_str docs_fs
            docs_dir docs_glob "docs" (init false)).
  - reflexivity.
  - discriminate.
  - vm_compute. reflexivity.
Defined.

Lemma validate_directory_never_empty_witness :
  docs_results <> [] /\
  (docs_dir "docs" = false \/ docs_glob "docs" = [] ->
   exists msg, docs_results = [Result.mk "unknown" false [msg] [] None]) /\
  (docs_dir "docs" = true -> docs_glob "docs" <> [] ->
   List.length docs_results = List.length (docs_glob "docs")).
Proof.
  eapply (validate_directory_never_empty flat_yaml iso_date_shape plain_str docs_fs
            docs_dir docs_glob "docs" (init false)).
  vm_compute. reflexivity.
Defined.

Lemma validate_directory_aborts_witness :
  exists e',
    validate_directory flat_yaml iso_date_shape plain_str locked_fs docs_dir
      docs_glob "docs" (init false) = Raise e'.
Proof.
  apply (validate_directory_aborts flat_yaml iso_date_shape plain_str locked_fs
           docs_dir docs_glob "docs" "docs/b.md" OSError (init false)).
  - reflexivity.
  - simpl. now left.
  - reflexivity.
Defined.

Lemma validate_file_result_shape_witness :
  ((one_file "./doc.md" sample_adr "./doc.md" = FileNotFoundError \/
    one_file "./doc.md" sample_adr "./doc.md" = UnicodeDecodeError) /\
   exists msg, dotted_result = Result.mk "unknown" false [msg] [] None) \/
  ((exists content,
      one_file "./doc.md" sample_adr "./doc.md" = FileContent content) /\
   Result.file dotted_result = "doc.md" /\
   Result.errors dotted_result = [] /\
   Result.warnings dotted_result = ["Reference to unknown TDR type: XYZ-12"] /\
   exists m,
     Result.metadata dotted_result = Some m /\
     section_count m = List.length (sections m) /\
     NoDup (sections m)).
Proof.
  exact (@validate_file_result_shape ascii_texts posix_paths flat_yaml
           iso_date_shape plain_str
           (one_file "./doc.md" sample_adr) "./doc.md" (init true)
           (mkValidator true [] ["Reference to unknown TDR type: XYZ-12"])
           dotted_result ltac:(vm_compute; reflexivity)).
Defined.

(** The text of a path, as [pathlib] writes it. *)
Example posix_str_examples :
  posix_str "./doc.md" = "doc.md" /\ posix_str "docs/" = "docs" /\
  posix_str "docs//a.md" = "docs/a.md" /\ posix_str "/tmp/./x" = "/tmp/x" /\
  posix_str "../x" = "../x" /\ posix_str "" = "." /\ posix_str "/" = "/".
Proof. repeat split. Qed.

Lemma frontmatter_between_delimiters_witness :
  _parse_frontmatter flat_yaml
    (with_header (join_lines ["type: ADR"; "title: Use a queue"]) "## Status")
    (init false)
  = extracted (flat_yaml (join_lines ["type: ADR"; "title: Use a queue"]))
      (with_header (join_lines ["type: ADR"; "title: Use a queue"]) "## Status")
      "## Status" (init false).
Proof.
  apply (frontmatter_between_delimiters flat_yaml
           (join_lines ["type: ADR"; "title: Use a queue"]) "## Status"
           (init false)).
  reflexivity.
Defined.

Lemma valid_result_is_well_formed_witness :
  exists content d body config,
    one_file "doc.md" sample_adr "doc.md" = FileContent content /\
    well_formed flat_yaml iso_date_shape plain_str content d body config /\
    (forall v, dict_get "ai-context" d = Some v -> isinstance_dict v = true) /\
    finite_supersedes d = true.
Proof.
  apply (valid_result_is_well_formed flat_yaml iso_date_shape plain_str
           (one_file "doc.md" sample_adr) "doc.md" (init true)
           (mkValidator true [] ["Reference to unknown TDR type: XYZ-12"])
           sample_result).
  - vm_compute. reflexivity.
  - reflexivity.
Defined.

Lemma strict_mode_only_adds_warnings_witness :
  same_report (run_file false glossary_adr) (run_file true glossary_adr).
Proof.
  apply (strict_mode_only_adds_warnings flat_yaml iso_date_shape plain_str
           (one_file "doc.md" glossary_adr) "doc.md" (init false) (init true)).
  reflexivity.
Defined.

(** The two runs on the document with a glossary: the warning of strict mode
    is the only difference. *)
Example glossary_runs :
  (exists r s, run_file false glossary_adr = Ok (r, s) /\
               Result.valid r = true /\ Result.warnings r = []) /\
  (exists r s, run_file true glossary_adr = Ok (r, s) /\
               Result.valid r = true /\
               Result.warnings r = ["Unknown section for ADR: Glossary"]).
Proof.
  split; eexists; eexists; (split; [vm_compute; reflexivity|]);
    split; reflexivity.
Qed.

Lemma text_report_returns_iff_witness :
  match format_results plain_str base_name json_unused
          [sample_result; odd_result] "text" with
  | Ok _ => forallb renderable [sample_result; odd_result] = true
  | Raise e =>
      e = AttributeError /\
      forallb renderable [sample_result; odd_result] = false
  end.
Proof.
  apply (text_report_returns_iff plain_str base_name json_unused
           [sample_result; odd_result] "text").
  reflexivity.
Defined.

(** The report on a result that no run gives: the summary line raises. *)
Example odd_result_raises :
  format_results plain_str base_name json_unused [odd_result] "text"
  = Raise AttributeError.
Proof. vm_compute. reflexivity. Qed.

Lemma text_report_of_produced_results_witness :
  exists text,
    format_results plain_str base_name json_unused docs_results "text" = Ok text.
Proof.
  apply (text_report_of_produced_results flat_yaml iso_date_shape plain_str
           docs_fs docs_dir docs_glob base_name json_unused docs_results
           "text").
  - apply Forall_forall. intros r Hin.
    eapply (produced_directory flat_yaml iso_date_shape plain_str docs_fs docs_dir
              docs_glob "docs" (init false) _ docs_results r).
    + vm_compute. reflexivity.
    + exact Hin.
  - reflexivity.
Defined.

Lemma main_exit_zero_witness :
  well_formed_file flat_yaml iso_date_shape plain_str docs_fs "docs/a.md".
Proof.
  assert (H : exists st,
            main flat_yaml iso_date_shape plain_str docs_fs docs_dir docs_glob
              base_name json_unused docs_exists docs_is_file false "text"
              "docs/a.md" = Ok st /\
            exit_code st = 0%Z).
  { eexists. split; vm_compute; reflexivity. }
  destruct H as (st & Hm & Hc).
  destruct (main_exit_zero flat_yaml iso_date_shape plain_str docs_fs docs_dir
              docs_glob base_name json_unused docs_exists docs_is_file false
              "text" "docs/a.md" st Hm) as [_ H0].
  destruct (H0 Hc) as (_ & _ & _ & Hw). exact Hw.
Defined.


Lemma non_mapping_header_rejected_witness :
  validate_file flat_yaml iso_date_shape plain_str
    (one_file "doc.md" number_header_doc) "doc.md" (init false)
  = Raise TypeError.
Proof.
  refine (proj2 (non_mapping_header_rejected flat_yaml iso_date_shape plain_str
                   (one_file "doc.md" number_header_doc) "doc.md"
                   number_header_doc 6 (VInt 42) (init false) _ _ _ _ _)
            _ _);
    reflexivity.
Defined.

(** A header that is a sentence: the decoder gives a text, no required field
    is found in it and the result is invalid. *)
Example sentence_header_invalid :
  exists r s,
    validate_file flat_yaml iso_date_shape plain_str
      (one_file "doc.md" sentence_header_doc) "doc.md" (init false)
    = Ok (r, s) /\
    Result.valid r = false /\
    Result.errors r
    = map (fun f => "Missing required frontmatter field: " ++ f)
        required_fields.
Proof.
  eexists. eexists. split; [vm_compute; reflexivity|]. split; reflexivity.
Qed.

Lemma field_validator_outcomes_witness :
  _validate_frontmatter iso_date_shape plain_str
    (VDict [(VStr "type", VStr "ADR"); (VStr "status", VInt 5)]) (init false)
  = Raise AttributeError /\
  _validate_frontmatter iso_date_shape plain_str
    (VDict [(VStr "type", VStr "ADR");
            (VStr "supersedes", VFloat (S754_infinity false))]) (init false)
  = Raise OverflowError /\
  exists es ws,
    appends
      (_validate_frontmatter iso_date_shape plain_str
         (VDict [(VStr "type", VStr "ADR"); (VStr "status", VStr "draft")]))
      (init false) es ws.
Proof.
  split; [|split].
  - destruct (@field_validator_outcomes ascii_texts iso_date_shape plain_str
                [(VStr "type", VStr "ADR"); (VStr "status", VInt 5)]
                (init false)) as (_ & _ & Hstatus & _).
    exact (Hstatus (VInt 5) eq_refl eq_refl eq_refl).
  - destruct (@field_validator_outcomes ascii_texts iso_date_shape plain_str
                [(VStr "type", VStr "ADR");
                 (VStr "supersedes", VFloat (S754_infinity false))]
                (init false)) as (_ & _ & _ & Hsup).
    exact (Hsup false eq_refl eq_refl eq_refl).
  - destruct (@field_validator_outcomes ascii_texts iso_date_shape plain_str
                [(VStr "type", VStr "ADR"); (VStr "status", VStr "draft")]
                (init false)) as (Hret & _).
    exact (Hret eq_refl).
Defined.
